(** * REST-API ETL pipeline: request planning, paginated fetch, table
      transformations and output formatting (main.py)

    The development embeds the functions of [main.py] that make up the
    fetch-and-assemble engine:

    - [build_request_urls]            (request planner),
    - [fetch_data_with_pagination]    (paginated fetcher with token refresh),
    - [clean_join_key], [safe_cast_column], [safe_merge],
      [apply_transformations]         (transformation engine),
    - [format_output_columns]         (output formatter),
    - the fetch loop of [main],

    together with the endpoint configurations of [main.py] and of
    [Config/Master_Viewpoints_config.py] that the examples run on.

    Python exceptions are values of [exn] carried by [result]; the HTTP
    server and the token endpoint are an explicit world threaded through
    the fetcher; dictionaries are [gmap]s; a pandas frame is a row count
    and an ordered list of labelled columns. *)

From Stdlib Require Import ZArith QArith Qround.
From stdpp Require Import base tactics option list sorting strings gmap pretty.

Local Open Scope Z_scope.
Local Open Scope string_scope.
Local Open Scope list_scope.

(** ** Exceptions and the error monad *)

Inductive exn : Type :=
  | KeyError (key : string)
  | ValueError (msg : string)
  | IndexError
  | IntCastingNaNError
  | RequestException
  | JSONDecodeError
  | TokenError
  | FetchFailed (endpoint_name : string) (status : Z).

Inductive result (A : Type) : Type :=
  | Ok (a : A)
  | Raise (e : exn).
Arguments Ok {A} a.
Arguments Raise {A} e.

Global Instance result_ret : MRet result := λ A a, Ok a.
Global Instance result_bind : MBind result := λ A B k r,
  match r with
  | Ok a => k a
  | Raise e => Raise e
  end.

Fixpoint mapM {A B : Type} (f : A → result B) (l : list A) : result (list B) :=
  match l with
  | [] => Ok []
  | x :: l' => y ← f x; ys ← mapM f l'; Ok (y :: ys)
  end.

(** ** Scalar values

    A cell of a frame or a field of a JSON record.  A finite binary64 value
    is carried as the rational it denotes: none of the embedded functions
    does float arithmetic, they only parse, truncate and print floats. *)

Inductive float64 : Type :=
  | FNaN
  | FInf (negative : bool)
  | FFin (q : Q).

Inductive pyval : Type :=
  | VNone
  | VNA
  | VBool (b : bool)
  | VInt (z : Z)
  | VFloat (x : float64)
  | VStr (s : string).

Inductive number : Type :=
  | NumInt (z : Z)
  | NumFloat (x : float64).

(** [pd.isna] on a scalar. *)
Definition isna (v : pyval) : bool :=
  match v with
  | VNone | VNA | VFloat FNaN => true
  | _ => false
  end.

(** What is left of a cell when pandas brings cells of several kinds to a
    common dtype: a text and a float stay what they are, a null stays a
    null (possibly another one), an integer stays or becomes the float of
    the same value, a boolean stays or becomes the number 1 or 0. *)
Definition coerced_by (to_float : Z → float64) (v w : pyval) : Prop :=
  match v with
  | VStr s => w = VStr s
  | VNone | VNA | VFloat FNaN => isna w = true
  | VFloat x => w = VFloat x
  | VInt z => w = VInt z ∨ w = VFloat (to_float z)
  | VBool b =>
      w = VBool b ∨ w = VInt (if b then 1 else 0)
      ∨ w = VFloat (FFin (if b then 1 else 0))
  end.

(** What pandas and CPython own and the pipeline only calls:

    - the shortest round-trip text of a finite float, the numeric value of
      a text ([None] where the text is not a number), the integer a number
      outside the int64 range is cast to, and the binary64 value of an
      integer;
    - whether [astype(str)] keeps a null as a missing value (pandas 3 and
      later) or writes it as a text (earlier versions);
    - the cells of [pd.DataFrame(series_list).T]: pandas goes through a
      two-dimensional array and brings the cells to a common dtype on the
      way, so that an integer column next to a float column comes out as
      floats.  Shapes are kept and every cell keeps its value in the sense
      of [coerced_by]. *)
Class FloatText : Type := {
  float_repr : Q → string;
  parse_number : string → option number;
  int64_overflow : Q → Z;
  float_of_int : Z → float64;
  float_of_int_number : ∀ z, float_of_int z ≠ FNaN;
  astype_str_keeps_na : bool;
  common_dtype : list (list pyval) → list (list pyval);
  common_dtype_coerces :
    ∀ cs, Forall2 (Forall2 (coerced_by float_of_int)) cs (common_dtype cs)
}.

Definition coerced `{FloatText} (v w : pyval) : Prop := coerced_by float_of_int v w.

Definition is_int_cell (v : pyval) : bool :=
  match v with VInt _ => true | _ => false end.

Definition is_float_cell (v : pyval) : bool :=
  match v with VFloat _ => true | _ => false end.

(** The float of an integer cell; other cells as they are. *)
Definition float_cell (to_float : Z → float64) (v : pyval) : pyval :=
  match v with
  | VInt z => VFloat (to_float z)
  | _ => v
  end.

(** [str(v)]. *)
Definition py_str `{FloatText} (v : pyval) : string :=
  match v with
  | VNone => "None"
  | VNA => "<NA>"
  | VBool true => "True"
  | VBool false => "False"
  | VInt z => pretty z
  | VFloat FNaN => "nan"
  | VFloat (FInf false) => "inf"
  | VFloat (FInf true) => "-inf"
  | VFloat (FFin q) => float_repr q
  | VStr s => s
  end.

(** [sep.join(parts)]. *)
Definition str_join (sep : string) (parts : list string) : string :=
  String.concat sep parts.

(** Python truthiness of a string. *)
Definition truthy (s : string) : bool := negb (String.eqb s "").

(** ** Series and frames

    A column is the list of its cells.  Its dtype is not stored: it is
    the dtype pandas infers for such cells, int64 for integers only,
    float64 for floats only, bool for booleans only, object for anything
    else.  The frames [main] stores are built with that inference
    ([maybe_convert_objects] below), and the operations that depend on the
    dtype (a merge that leaves rows without a match) read it off the
    cells. *)

Record Series := mkSeries { sname : string; svalues : list pyval }.

Record DataFrame := mkFrame {
  nrows : nat;
  columns : list (string * list pyval)
}.

Definition labels (df : DataFrame) : list string := (columns df).*1.

(** The frames the embedding is faithful on: labels are unique and every
    column has one cell per row.  On a label that occurs twice [getitem]
    gives the first column, where pandas gives a frame of both. *)
Definition wf_frame (df : DataFrame) : Prop :=
  NoDup (labels df) ∧ Forall (λ c, length c.2 = nrows df) (columns df).

(** [column in df.columns]. *)
Definition has_column (df : DataFrame) (column : string) : bool :=
  bool_decide (column ∈ labels df).

Fixpoint assoc {A : Type} (k : string) (l : list (string * A)) : option A :=
  match l with
  | [] => None
  | (k', v) :: l' => if decide (k = k') then Some v else assoc k l'
  end.

(** [df[column]]: raises [KeyError] on a missing label. *)
Definition getitem (df : DataFrame) (column : string) : result (list pyval) :=
  match assoc column (columns df) with
  | Some c => Ok c
  | None => Raise (KeyError column)
  end.

(** [df[column] = values] for a label that is already there: the cells are
    replaced, the position of the column is kept. *)
Definition setitem (df : DataFrame) (column : string) (values : list pyval) : DataFrame :=
  mkFrame (nrows df)
    ((λ c : string * list pyval, if decide (c.1 = column) then (c.1, values) else c) <$> columns df).

(** [df.rename(columns={old_col: new_col})]: every label equal to
    [old_col] becomes [new_col]; nothing else moves. *)
Definition rename (df : DataFrame) (old_col new_col : string) : DataFrame :=
  mkFrame (nrows df)
    ((λ c : string * list pyval, if decide (c.1 = old_col) then (new_col, c.2) else c) <$> columns df).

(** ** Column operations of pandas used by the engine

    The pipeline calls pandas; what follows is the behaviour of the calls
    it makes on a column seen as the list of its cells:
    [to_numeric(errors="coerce")] turns what it cannot read into NaN,
    [astype(int)] truncates and refuses NaN and the infinities. *)

(** [series.astype(str)]: every cell becomes its text.  Before pandas 3
    that includes the nulls, written ["None"], ["nan"] and ["<NA>"] (the
    texts that [clean_join_key] goes on to replace); from pandas 3 on a
    null stays a missing value. *)
Definition astype_str `{FloatText} (c : list pyval) : list pyval :=
  (λ v, if astype_str_keeps_na && isna v then VFloat FNaN else VStr (py_str v)) <$> c.

(** [series.replace(to_replace, value)] with a list of texts. *)
Definition replace_values (to_replace : list string) (value : string)
    (c : list pyval) : list pyval :=
  (λ v, match v with
        | VStr s => if bool_decide (s ∈ to_replace) then VStr value else v
        | _ => v
        end) <$> c.

(** [series.fillna(value)]. *)
Definition fillna (value : pyval) (c : list pyval) : list pyval :=
  (λ v, if isna v then value else v) <$> c.

(** [series.dropna()]. *)
Definition dropna (c : list pyval) : list pyval :=
  filter (λ v, isna v = false) c.

(** [series.unique()] on texts: first occurrences, in order. *)
Fixpoint unique (seen : list string) (l : list string) : list string :=
  match l with
  | [] => []
  | x :: l' =>
      if bool_decide (x ∈ seen) then unique seen l'
      else x :: unique (x :: seen) l'
  end.

Definition char_lower (c : Ascii.ascii) : Ascii.ascii :=
  let n := Ascii.nat_of_ascii c in
  if bool_decide (65 ≤ n ≤ 90)%nat then Ascii.ascii_of_nat (n + 32) else c.

(** [s.lower()] on ASCII text. *)
Fixpoint str_lower (s : string) : string :=
  match s with
  | EmptyString => EmptyString
  | String c s' => String (char_lower c) (str_lower s')
  end.

(** One cell of [pd.to_numeric(series, errors="coerce")]: [None] stands
    for the NaN that a null or an unparsable text is coerced to. *)
Definition numeric_cell `{FloatText} (v : pyval) : option number :=
  match v with
  | VNone | VNA => None
  | VBool b => Some (NumInt (if b then 1 else 0))
  | VInt z => Some (NumInt z)
  | VFloat FNaN => None
  | VFloat x => Some (NumFloat x)
  | VStr s => parse_number s
  end.

Definition is_bool_cell (v : pyval) : bool :=
  match v with VBool _ => true | _ => false end.

Definition is_int_number (n : option number) : bool :=
  match n with Some (NumInt _) => true | _ => false end.

Definition to_float `{FloatText} (n : option number) : float64 :=
  match n with
  | None => FNaN
  | Some (NumInt z) => float_of_int z
  | Some (NumFloat x) => x
  end.

(** [pd.to_numeric(series, errors="coerce")]: a column of booleans comes
    back as it is, a column of integers stays integer, and as soon as one
    cell is a float or is coerced to NaN the whole column is float64. *)
Definition to_numeric `{FloatText} (c : list pyval) : list pyval :=
  if forallb is_bool_cell c then c
  else
    let ns := numeric_cell <$> c in
    if forallb is_int_number ns
    then (λ n, match n with Some (NumInt z) => VInt z | _ => VFloat FNaN end) <$> ns
    else (λ n, VFloat (to_float n)) <$> ns.

Definition Qtrunc (q : Q) : Z :=
  if Qle_bool 0 q then Qfloor q else Qceiling q.

(** One cell of [series.astype(int)]: truncation towards zero; NaN and the
    infinities raise; a number outside the int64 range comes out as
    whatever the conversion makes of it. *)
Definition int_cell `{FloatText} (v : pyval) : result pyval :=
  match v with
  | VBool b => Ok (VInt (if b then 1 else 0))
  | VInt z =>
      if bool_decide (- 2 ^ 63 ≤ z < 2 ^ 63) then Ok (VInt z)
      else Ok (VInt (int64_overflow (inject_Z z)))
  | VFloat (FFin q) =>
      let t := Qtrunc q in
      if bool_decide (- 2 ^ 63 ≤ t < 2 ^ 63) then Ok (VInt t)
      else Ok (VInt (int64_overflow q))
  | VFloat _ | VNone | VNA => Raise IntCastingNaNError
  | VStr s =>
      match parse_number s with
      | Some (NumInt z) => Ok (VInt z)
      | _ => Raise (ValueError s)
      end
  end.

Definition astype_int `{FloatText} (c : list pyval) : result (list pyval) :=
  mapM int_cell c.

(** ** [DataFrame.merge(right, left_on=, right_on=, how="left")] *)

(** Equality of two join keys.  [safe_merge] only ever joins on columns of
    texts; the other cases follow Python's [==], with nulls matching nulls
    as pandas does for join keys. *)
Definition key_eqb (a b : pyval) : bool :=
  match a, b with
  | VStr s, VStr t => String.eqb s t
  | VInt x, VInt y => Z.eqb x y
  | VBool x, VBool y => Bool.eqb x y
  | VFloat (FFin p), VFloat (FFin q) => Qeq_bool p q
  | VInt x, VFloat (FFin q) | VFloat (FFin q), VInt x => Qeq_bool (inject_Z x) q
  | VFloat (FInf x), VFloat (FInf y) => Bool.eqb x y
  | _, _ => isna a && isna b
  end.

(** The positions of the right rows whose key equals [k], in row order. *)
Fixpoint matches (k : pyval) (right_keys : list pyval) (j : nat) : list nat :=
  match right_keys with
  | [] => []
  | k' :: rest =>
      if key_eqb k k' then j :: matches k rest (S j) else matches k rest (S j)
  end.

(** The output rows of left row [i], whose matches are the right rows
    [js]: one row per match, or one row without a right row. *)
Definition row_block (i : nat) (js : list nat) : list (nat * option nat) :=
  match js with
  | [] => [(i, None)]
  | _ => (λ j, (i, Some j)) <$> js
  end.

(** The join indexers of a left join: one pair per output row, the left
    row and the matching right row if there is one.  Left rows keep their
    order; a left row with several matches fans out in right-row order. *)
Fixpoint left_join_indexers (left_keys right_keys : list pyval) (i : nat)
    : list (nat * option nat) :=
  match left_keys with
  | [] => []
  | k :: rest =>
      row_block i (matches k right_keys 0) ++ left_join_indexers rest right_keys (S i)
  end.

Definition take_left (c : list pyval) (ix : list (nat * option nat)) : list pyval :=
  (λ p : nat * option nat, default (VFloat FNaN) (c !! p.1)) <$> ix.

(** Some output row has no right row. *)
Definition has_unmatched (ix : list (nat * option nat)) : bool :=
  existsb (λ p : nat * option nat, bool_decide (p.2 = None)) ix.

(** A column that receives a missing cell: pandas holds the missing cell
    as NaN, and for that an integer column becomes a float column.  The
    columns of the other dtypes keep their cells (booleans and texts in
    an object column, floats as they are). *)
Definition promote_missing `{FloatText} (c : list pyval) : list pyval :=
  if forallb is_int_cell c then float_cell float_of_int <$> c else c.

Definition take_right `{FloatText} (c : list pyval) (ix : list (nat * option nat))
    : list pyval :=
  let c := if has_unmatched ix then promote_missing c else c in
  (λ p : nat * option nat,
     match p.2 with
     | Some j => default (VFloat FNaN) (c !! j)
     | None => VFloat FNaN
     end) <$> ix.

(** The left join of two frames with distinct labels.  Labels present on
    both sides get the suffixes [_x] and [_y]; a key that has the same
    name on both sides is kept once, from the left.  The right key is
    looked up before the left key, so a join on two missing keys raises
    on the right one. *)
Definition merge `{FloatText} (left_df right_df : DataFrame) (left_on right_on : string)
    : result DataFrame :=
  rk ← getitem right_df right_on;
  lk ← getitem left_df left_on;
  let ix := left_join_indexers lk rk 0 in
  let same_key := bool_decide (left_on = right_on) in
  let right_cols :=
    if same_key
    then filter (λ c : string * list pyval, c.1 ≠ right_on) (columns right_df)
    else columns right_df in
  let lcols :=
    (λ c : string * list pyval,
       ((if bool_decide (c.1 ∈ right_cols.*1) then c.1 +:+ "_x" else c.1),
        take_left c.2 ix)) <$> columns left_df in
  let shared := if same_key then filter (λ l, l ≠ left_on) (labels left_df)
                else labels left_df in
  let rcols :=
    (λ c : string * list pyval,
       ((if bool_decide (c.1 ∈ shared) then c.1 +:+ "_y" else c.1),
        take_right c.2 ix)) <$> right_cols in
  Ok (mkFrame (length ix) (lcols ++ rcols)).

(** ** Transformation engine *)

Definition null_markers : list string := ["nan"; "<NA>"; "None"].

Definition clean_join_key `{FloatText} (df : DataFrame) (key_column : string)
    : result DataFrame :=
  if negb (has_column df key_column) then Ok df
  else
    c ← getitem df key_column;
    Ok (setitem df key_column
          (fillna (VStr "") (replace_values null_markers "" (astype_str c)))).

Definition safe_cast_column `{FloatText} (df : DataFrame) (column dtype : string)
    : result DataFrame :=
  if negb (has_column df column) then Ok df
  else
    let dtype_lower := str_lower dtype in
    c ← getitem df column;
    if bool_decide (dtype_lower = "string") then
      Ok (setitem df column (fillna (VStr "") (astype_str c)))
    else if bool_decide (dtype_lower ∈ ["int64"; "int"]) then
      ints ← astype_int (fillna (VInt (-1)) (to_numeric c));
      Ok (setitem df column ints)
    else if bool_decide (dtype_lower ∈ ["float64"; "float"]) then
      Ok (setitem df column (fillna (VFloat (FFin 0)) (to_numeric c)))
    else
      Ok (setitem df column (astype_str c)).

Definition safe_merge `{FloatText} (left_df right_df : DataFrame)
    (left_key right_key : string) : result DataFrame :=
  left_df ← clean_join_key left_df left_key;
  right_df ← clean_join_key right_df right_key;
  merge left_df right_df left_key right_key.

(** An operation is a tuple of texts whose first component is the tag. *)
Definition operation : Type := list string.

Definition apply_operation `{FloatText} (dataframes : gmap string DataFrame)
    (result_df : DataFrame) (op : operation) : result DataFrame :=
  match op with
  | [] => Raise IndexError
  | action :: _ =>
      if bool_decide (action = "RENAME") then
        match op with
        | [_; old_col; new_col] => Ok (rename result_df old_col new_col)
        | _ => Raise (ValueError "unpack")
        end
      else if bool_decide (action = "CAST") then
        match op with
        | [_; column; dtype] => safe_cast_column result_df column dtype
        | _ => Raise (ValueError "unpack")
        end
      else if bool_decide (action = "JOIN") then
        match op with
        | [_; table; left_key; right_key] =>
            match dataframes !! table with
            | Some df_to_merge => safe_merge result_df df_to_merge left_key right_key
            | None => Raise (KeyError table)
            end
        | _ => Raise (ValueError "unpack")
        end
      else Ok result_df
  end.

Fixpoint apply_transformations `{FloatText} (df : DataFrame)
    (operations : list operation) (dataframes : gmap string DataFrame)
    : result DataFrame :=
  match operations with
  | [] => Ok df
  | op :: rest =>
      result_df ← apply_operation dataframes df op;
      apply_transformations result_df rest dataframes
  end.

(** ** Output formatter *)

(** [pd.DataFrame(series_list).T]: one column per series, under the index
    the series share, with the cells brought to a common dtype; no series
    at all gives the empty frame. *)
Definition frame_of_series `{FloatText} (series_list : list Series) : DataFrame :=
  match series_list with
  | [] => mkFrame 0 []
  | s :: _ =>
      mkFrame (length (svalues s))
        (zip (sname <$> series_list) (common_dtype (svalues <$> series_list)))
  end.

Definition format_output_columns `{FloatText} (df : DataFrame)
    (column_mappings : list (string * string)) : result DataFrame :=
  series_list ←
    mapM (λ m : string * string, c ← getitem df m.1; Ok (mkSeries m.2 c))
         (filter (λ m : string * string, has_column df m.1 = true) column_mappings);
  Ok (frame_of_series series_list).

(** ** Request planner *)

(** An endpoint configuration: a dictionary whose keys may be missing.
    [select] is a list of column names and [filter] a text, [None] when
    the key is missing.  The planner reads [key_filter] with [config.get]
    and only tests its truth value, so [None] also stands for a key bound
    to [None].  For [driving_view_col_name] it tests the presence of the
    key: the outer [None] is a missing key, [Some None] a key bound to
    [None]. *)
Record config := mkConfig {
  select : option (list string);
  filter_ : option string;
  key_filter : option string;
  driving_view_col_name : option (option string)
}.

Definition chunk_size : nat := 10.

(** [range(start, stop, step)] for a positive step. *)
Fixpoint range_from (fuel start stop step : nat) : list nat :=
  match fuel with
  | O => []
  | S fuel' =>
      if decide (start < stop)%nat
      then start :: range_from fuel' (start + step) stop step
      else []
  end.

Definition py_range (start stop step : nat) : list nat :=
  range_from stop start stop step.

(** [l[i:j]]. *)
Definition slice {A : Type} (l : list A) (i j : nat) : list A :=
  take (j - i) (drop i l).

(** The chunks the loop of the planner walks through. *)
Definition chunks (size : nat) (id_list : list string) : list (list string) :=
  (λ i, slice id_list i (i + size)) <$> py_range 0 (length id_list) size.

Definition select_truthy (select_clause : option (list string)) : bool :=
  match select_clause with
  | Some (_ :: _) => true
  | _ => false
  end.

(** The URL built for one chunk. *)
Definition chunk_url (base_url endpoint : string) (select_clause : option (list string))
    (extra_filter key_filter_col : string) (chunk : list string) : string :=
  let id_filter :=
    str_join " or " ((λ val, key_filter_col +:+ " eq '" +:+ val +:+ "'") <$> chunk) in
  let filter_str :=
    if truthy extra_filter then id_filter +:+ " and " +:+ extra_filter else id_filter in
  let url := base_url +:+ endpoint +:+ "?$filter=" +:+ filter_str in
  if select_truthy select_clause
  then url +:+ "&$select=" +:+ str_join "," (default [] select_clause)
  else url.

(** The driving values: the driving column of [df_users] without nulls,
    as texts, first occurrences only. *)
Definition driving_values `{FloatText} (dataframes : gmap string DataFrame)
    (driving_col : option string) : result (list string) :=
  match dataframes !! "df_users" with
  | None => Raise (KeyError "df_users")
  | Some users =>
      match driving_col with
      | None => Raise (KeyError "None")
      | Some col =>
          c ← getitem users col;
          Ok (unique [] (py_str <$> dropna c))
      end
  end.

(** The URLs of the branch taken when requests depend on another
    dataset, for a given chunk size. *)
Definition dependent_urls `{FloatText} (size : nat) (base_url endpoint : string)
    (select_clause : option (list string)) (extra_filter key_filter_col : string)
    (driving_col : option string) (dataframes : gmap string DataFrame)
    : result (list string) :=
  id_list ← driving_values dataframes driving_col;
  Ok (chunk_url base_url endpoint select_clause extra_filter key_filter_col
        <$> chunks size id_list).

(** The URL of a request that does not depend on another dataset. *)
Definition simple_url (base_url endpoint : string) (select_clause : option (list string))
    (extra_filter : string) : string :=
  let url := base_url +:+ endpoint +:+ "?" in
  let url := if truthy extra_filter then url +:+ "$filter=" +:+ extra_filter else url in
  if select_truthy select_clause then
    let separator := if truthy extra_filter then "&" else "" in
    url +:+ separator +:+ "$select=" +:+ str_join "," (default [] select_clause)
  else url.

(** The generator, as the list of the URLs it yields; an exception is
    raised before the first URL is yielded. *)
Definition build_request_urls `{FloatText} (base_url endpoint : string) (cfg : config)
    (dataframes : gmap string DataFrame) : result (list string) :=
  let select_clause := select cfg in
  let extra_filter := default "" (filter_ cfg) in
  let key_filter_col := default "" (key_filter cfg) in
  if truthy key_filter_col && bool_decide (is_Some (driving_view_col_name cfg)) then
    dependent_urls chunk_size base_url endpoint select_clause extra_filter
      key_filter_col (default None (driving_view_col_name cfg)) dataframes
  else
    Ok [simple_url base_url endpoint select_clause extra_filter].

(** ** Paginated fetcher *)

Definition record : Type := gmap string pyval.

(** The body of a response: [json_data.get("value", [])] and
    [json_data.get("@odata.nextLink")]. *)
Record Page := mkPage { value : list record; next_link : option string }.

(** A response; [json = None] when the body does not parse. *)
Record Response := mkResponse { status_code : Z; json : option Page }.

(** The resource server and the token endpoint.  [http_get] answers a GET
    of a URL under the given headers, [None] when [requests.get] raises.
    [token_post] answers the token request: [None] when the request or
    [raise_for_status] raises, otherwise the [access_token] field of the
    body ([None] when the field is missing). *)
Class Server (W : Type) : Type := {
  http_get : W → string → gmap string string → option Response * W;
  token_post : W → option (option string) * W
}.

(** What went over the wire, in order. *)
Inductive event : Type :=
  | EvGet (url : string) (hdrs : gmap string string) (status : option Z)
  | EvToken (token : option (option string)).

(** The headers dictionary shared by the caller and the fetcher, the
    world, and the events so far. *)
Record session (W : Type) : Type := mkSession {
  headers : gmap string string;
  world : W;
  trace : list event
}.
Arguments mkSession {W} _ _ _.
Arguments headers {W} _.
Arguments world {W} _.
Arguments trace {W} _.

(** The text of [f"Bearer {token}"]. *)
Definition bearer (token : option string) : string :=
  "Bearer " +:+ default "None" token.

(** [requests.get(url, headers=headers, ...)]. *)
Definition requests_get `{Server W} (url : string) (st : session W)
    : option Response * session W :=
  let '(r, w) := http_get (world st) url (headers st) in
  (r, mkSession (headers st) w
        (trace st ++ [EvGet url (headers st) (status_code <$> r)])).

Definition get_access_token `{Server W} (st : session W)
    : option (option string) * session W :=
  let '(t, w) := token_post (world st) in
  (t, mkSession (headers st) w (trace st ++ [EvToken t])).

(** The assignment to [headers["Authorization"]]: the update is made in
    the shared dictionary. *)
Definition set_authorization {W : Type} (v : string) (st : session W) : session W :=
  mkSession (<["Authorization" := v]> (headers st)) (world st) (trace st).

(** One turn of the loop: the request, the refresh and the retry on 401,
    the status check and the decoding of the body. *)
Definition fetch_page `{Server W} (endpoint_name url : string) (st : session W)
    : result Page * session W :=
  let '(r, st) := requests_get url st in
  match r with
  | None => (Raise RequestException, st)
  | Some response =>
      let '(r, st) :=
        if bool_decide (status_code response = 401) then
          let '(t, st) := get_access_token st in
          match t with
          | None => (Raise TokenError, st)
          | Some new_token =>
              let st := set_authorization (bearer new_token) st in
              let '(r, st) := requests_get url st in
              match r with
              | None => (Raise RequestException, st)
              | Some response => (Ok response, st)
              end
          end
        else (Ok response, st) in
      match r with
      | Raise e => (Raise e, st)
      | Ok response =>
          if bool_decide (status_code response ≠ 200) then
            (Raise (FetchFailed endpoint_name (status_code response)), st)
          else
            match json response with
            | None => (Raise JSONDecodeError, st)
            | Some page => (Ok page, st)
            end
      end
  end.

(** The [while url:] loop.  [None] is returned when [fuel] turns were not
    enough to reach the last page. *)
Fixpoint fetch_loop `{Server W} (fuel : nat) (endpoint_name url : string)
    (all_data : list record) (st : session W)
    : option (result (list record)) * session W :=
  if negb (truthy url) then (Some (Ok all_data), st)
  else
    match fuel with
    | O => (None, st)
    | S fuel' =>
        let '(r, st) := fetch_page endpoint_name url st in
        match r with
        | Raise e => (Some (Raise e), st)
        | Ok page =>
            fetch_loop fuel' endpoint_name (default "" (next_link page))
              (all_data ++ value page) st
        end
    end.

Definition fetch_data_with_pagination `{Server W} (fuel : nat)
    (url endpoint_name : string) (st : session W)
    : option (result (list record)) * session W :=
  fetch_loop fuel endpoint_name url [] st.

(** ** The fetch phase of [main] *)

(** The dtype pandas infers for a column it builds from Python objects.
    A column in which every cell is an integer, a float or [None] becomes
    a float column as soon as it has a float (NaN included) or has both an
    integer and [None]: the integers become floats and [None] becomes NaN.
    Every other column keeps its cells: integers only, booleans only,
    [None] only, and whatever has a text or mixes booleans with other
    cells. *)
Definition is_none_cell (v : pyval) : bool :=
  match v with VNone => true | _ => false end.

Definition maybe_convert_objects `{FloatText} (c : list pyval) : list pyval :=
  if forallb (λ v, is_int_cell v || is_float_cell v || is_none_cell v) c
     && (existsb is_float_cell c || existsb is_int_cell c && existsb is_none_cell c)
  then (λ v, match v with
             | VInt z => VFloat (float_of_int z)
             | VNone => VFloat FNaN
             | _ => v
             end) <$> c
  else c.

(** [pd.DataFrame(all_data).reindex(columns=expected_cols)]: a record that
    lacks a field has NaN there, and every column gets the dtype pandas
    infers for its cells. *)
Definition frame_of_records `{FloatText} (all_data : list record)
    (expected_cols : list string) : DataFrame :=
  mkFrame (length all_data)
    ((λ c, (c, maybe_convert_objects
                 ((λ r : record, default (VFloat FNaN) (r !! c)) <$> all_data)))
       <$> expected_cols).

(** [for url in build_request_urls(...)]: every URL is fetched under the
    one shared [headers]. *)
Fixpoint fetch_urls `{Server W} (fuel : nat) (endpoint : string) (urls : list string)
    (all_data : list record) (st : session W)
    : option (result (list record)) * session W :=
  match urls with
  | [] => (Some (Ok all_data), st)
  | url :: rest =>
      let '(r, st) := fetch_data_with_pagination fuel url endpoint st in
      match r with
      | Some (Ok data) => fetch_urls fuel endpoint rest (all_data ++ data) st
      | _ => (r, st)
      end
  end.

(** [for endpoint, config in ENDPOINT_CONFIGS.items()]. *)
Fixpoint fetch_endpoints `{FloatText} `{Server W} (fuel : nat) (base_url : string)
    (configs : list (string * config)) (dataframes : gmap string DataFrame)
    (st : session W) : option (result (gmap string DataFrame)) * session W :=
  match configs with
  | [] => (Some (Ok dataframes), st)
  | (endpoint, cfg) :: rest =>
      match build_request_urls base_url endpoint cfg dataframes with
      | Raise e => (Some (Raise e), st)
      | Ok urls =>
          let '(r, st) := fetch_urls fuel endpoint urls [] st in
          match r with
          | None => (None, st)
          | Some (Raise e) => (Some (Raise e), st)
          | Some (Ok all_data) =>
              let df := frame_of_records all_data (default [] (select cfg)) in
              fetch_endpoints fuel base_url rest
                (<["df_" +:+ endpoint := df]> dataframes) st
          end
      end
  end.

(** The headers [main] builds from the token acquired at start. *)
Definition initial_headers (access_token : option string) : gmap string string :=
  <["Authorization" := bearer access_token]>
    (<["Accept" := "application/json"]>
      (<["Prefer" := "odata.maxpagesize=100000"]>
        (<["Connection" := "close"]> ∅))).

(** ** Reference instances for closed examples *)

Fixpoint parse_digits (acc : Z) (s : string) : option Z :=
  match s with
  | EmptyString => Some acc
  | String c s' =>
      let n := Ascii.nat_of_ascii c in
      if bool_decide (48 ≤ n ≤ 57)%nat
      then parse_digits (10 * acc + Z.of_nat (n - 48)) s'
      else None
  end.

(** Signed decimal integer literals. *)
Definition parse_int (s : string) : option Z :=
  match s with
  | EmptyString => None
  | String c s' =>
      if bool_decide (Ascii.nat_of_ascii c = 45%nat) then
        match s' with
        | EmptyString => None
        | _ => Z.opp <$> parse_digits 0 s'
        end
      else parse_digits 0 s
  end.

(** The common dtype of the examples: columns that are all integer columns
    or float columns come out as floats as soon as one of them is a float
    column; any other list of columns is left as it is. *)
Definition unify_numbers (to_float : Z → float64) (cs : list (list pyval))
    : list (list pyval) :=
  if forallb (λ c, forallb is_int_cell c || forallb is_float_cell c) cs
     && existsb (λ c, negb (forallb is_int_cell c)) cs
  then (λ c : list pyval, float_cell to_float <$> c) <$> cs
  else cs.

(** Texts of the examples: integer literals parse to integers, ["inf"] and
    ["-inf"] to the infinities, every other text is not a number; a float
    with an integral value prints like ["7.0"]; integers convert to floats
    exactly. *)
Definition reference_text (keeps_na : bool) : FloatText.
Proof.
  refine {|
    float_repr q :=
      if bool_decide (Qden q = 1%positive) then pretty (Qnum q) +:+ ".0"
      else pretty (Qnum q) +:+ "/" +:+ pretty (Qden q);
    parse_number s :=
      if bool_decide (s = "inf") then Some (NumFloat (FInf false))
      else if bool_decide (s = "-inf") then Some (NumFloat (FInf true))
      else NumInt <$> parse_int s;
    int64_overflow _ := - 2 ^ 63;
    float_of_int z := FFin (inject_Z z);
    astype_str_keeps_na := keeps_na;
    common_dtype := unify_numbers (λ z, FFin (inject_Z z))
  |}.
  - discriminate.
  - intros cs. unfold unify_numbers.
    destruct (forallb _ cs && existsb _ cs).
    + apply Forall2_fmap_r, Forall_Forall2_diag, Forall_true. intros c.
      apply Forall2_fmap_r, Forall_Forall2_diag, Forall_true.
      intros [| |[]|z|[| |q]|t]; cbn; auto.
    + apply Forall_Forall2_diag, Forall_true. intros c.
      apply Forall_Forall2_diag, Forall_true.
      intros [| |[]|z|[| |q]|t]; cbn; auto.
Defined.

(** The reference under pandas before version 3, and under pandas 3. *)
Definition plain_text : FloatText := reference_text false.

Definition pandas3_text : FloatText := reference_text true.

(** A server that plays a script: the responses to the GETs and the
    answers of the token endpoint, in the order they are asked for.  A
    script that has run out answers with a connection failure. *)
Definition script : Type := list (option Response) * list (option (option string)).

Definition scripted : Server script := {|
  http_get w _ _ :=
    match w.1 with
    | [] => (None, w)
    | r :: rest => (r, (rest, w.2))
    end;
  token_post w :=
    match w.2 with
    | [] => (None, w)
    | t :: rest => (t, (w.1, rest))
    end
|}.

(** The number of token requests in a trace. *)
Definition is_token (e : event) : bool :=
  match e with EvToken _ => true | EvGet _ _ _ => false end.

Definition refreshes (tr : list event) : nat :=
  length (filter (λ e, is_token e = true) tr).

(** A small table of the examples. *)
Definition demo_table : DataFrame :=
  mkFrame 2 [("id", [VInt 1; VInt 2]); ("name", [VStr "ann"; VStr "bob"])].

(** The two clauses of a request that does not depend on another dataset,
    in the words of the interface description: the predicate clause is left
    out when the filter is empty, and the selection clause is led by [&]
    only behind a predicate clause. *)
Definition predicate_clause (extra_filter : string) : string :=
  match extra_filter with
  | EmptyString => ""
  | _ => "$filter=" +:+ extra_filter
  end.

Definition selection_clause (extra_filter : string) (cols : list string) : string :=
  match cols with
  | [] => ""
  | _ =>
      match extra_filter with EmptyString => "" | _ => "&" end
      +:+ "$select=" +:+ str_join "," cols
  end.

(** A request that depends on another dataset, in the words of the
    interface description: its predicate is the disjunction of one
    equality test per driving value of its chunk, followed by the filter
    of the configuration behind [and] when there is one; the selection
    clause follows behind [&]. *)
Definition equality_test (key_filter_col val : string) : string :=
  key_filter_col +:+ " eq '" +:+ val +:+ "'".

Definition dependent_descriptor (base_url endpoint : string) (cols : list string)
    (extra_filter : string) (tests : list string) : string :=
  base_url +:+ endpoint +:+ "?$filter=" +:+ str_join " or " tests
    +:+ match extra_filter with EmptyString => "" | _ => " and " +:+ extra_filter end
    +:+ match cols with [] => "" | _ => "&$select=" +:+ str_join "," cols end.

(** The projection the formatter is meant to compute: for each mapping, in
    mapping order, the cells of the source column under the output label,
    and nothing for a source column that the table does not have. *)
Definition projected_columns (df : DataFrame) (column_mappings : list (string * string))
    : list (string * list pyval) :=
  omap (λ m : string * string, (λ c, (m.2, c)) <$> assoc m.1 (columns df))
       column_mappings.

(** [ceil(n / c)]. *)
Definition ceil_div (n c : nat) : nat := ((n + c - 1) / c)%nat.

(** The users of the end-to-end scenario: fifteen distinct ids. *)
Definition users_15 : DataFrame :=
  mkFrame 15 [("id", (λ n, VInt (Z.of_nat n)) <$> seq 1 15)].

(** The configuration of [orders] in [ENDPOINT_CONFIGS]. *)
Definition orders_config : config :=
  mkConfig (Some ["order_id"; "user_id"; "total_amount"; "order_date"; "status"])
           (Some "") (Some "user_id") (Some (Some "id")).

(** The configuration of [order_items] in [VIEW_CONFIGS], whose comment
    reads "filtered based on orders". *)
Definition order_items_config : config :=
  mkConfig (Some ["item_id"; "order_id"; "product_id"; "product_name"; "category";
                  "quantity"; "unit_price"; "discount_applied"])
           (Some "") (Some "order_id") (Some (Some "order_id")).

Definition demo_orders : DataFrame :=
  mkFrame 2 [("order_id", [VInt 10; VInt 20]); ("user_id", [VInt 1; VInt 2])].

(** The column of the example of the int64 cast. *)
Definition demo_cast_table : DataFrame :=
  mkFrame 3 [("c", [VStr "7"; VStr "abc"; VNone])].

(** The normal form of a join key, in the words of the description: the
    text of the value, with the null markers collapsed to the empty text. *)
Definition normalize_key `{FloatText} (v : pyval) : string :=
  let s := py_str v in
  if bool_decide (s ∈ null_markers) then "" else s.


(** The tables of the join example: left keys ["1"], null, ["3"]; right
    keys ["1"], ["nan"], ["3"], ["3"]. *)
Definition join_left : DataFrame :=
  mkFrame 3 [("k", [VStr "1"; VNone; VStr "3"]); ("a", [VInt 10; VInt 20; VInt 30])].

Definition join_right : DataFrame :=
  mkFrame 4 [("k", [VStr "1"; VStr "nan"; VStr "3"; VStr "3"]);
             ("b", [VStr "x"; VStr "y"; VStr "z"; VStr "w"])].

(** The events of one turn of the fetch loop on [url] under the headers
    [h]: one request; or a request answered 401 and a token request that
    fails; or a request answered 401, one token, and one more request of
    the same URL under the headers with the new credential. *)
Inductive page_events (url : string) (h : gmap string string) : list event → Prop :=
  | page_plain (s : option Z) :
      s ≠ Some 401 → page_events url h [EvGet url h s]
  | page_token_failed :
      page_events url h [EvGet url h (Some 401); EvToken None]
  | page_retried (t : option string) (s : option Z) :
      page_events url h
        [EvGet url h (Some 401); EvToken (Some t);
         EvGet url (<["Authorization" := bearer t]> h) s].

(** The [Authorization] value in force after a run of events that began
    under the value [auth]: the bearer of the last token obtained. *)
Fixpoint auth_after (auth : option string) (tr : list event) : option string :=
  match tr with
  | [] => auth
  | EvToken (Some t) :: tr' => auth_after (Some (bearer t)) tr'
  | _ :: tr' => auth_after auth tr'
  end.

(** Every request of the run carries the value in force when it is made. *)
Fixpoint requests_carry (auth : option string) (tr : list event) : Prop :=
  match tr with
  | [] => True
  | EvGet _ h _ :: tr' => h !! "Authorization" = auth ∧ requests_carry auth tr'
  | EvToken (Some t) :: tr' => requests_carry (Some (bearer t)) tr'
  | EvToken None :: tr' => requests_carry auth tr'
  end.

(** From session [st] to session [st']: events were appended, every
    request carried the credential in force, the shared headers end up
    with the last credential, and no other header was touched. *)
Definition credential_threaded {W : Type} (st st' : session W) : Prop :=
  ∃ evs, trace st' = trace st ++ evs
    ∧ requests_carry (headers st !! "Authorization") evs
    ∧ headers st' !! "Authorization" = auth_after (headers st !! "Authorization") evs
    ∧ ∀ k, k ≠ "Authorization" → headers st' !! k = headers st !! k.

(** A descriptor of two pages served by a server whose tokens expire
    between the pages: each page is first answered 401. *)
Definition user_1 : record := {["id" := VInt 1]}.
Definition user_2 : record := {["id" := VInt 2]}.

Definition expiring_script : script :=
  ([ Some (mkResponse 401 None);
     Some (mkResponse 200 (Some (mkPage [user_1] (Some "https://api/users?page=2"))));
     Some (mkResponse 401 None);
     Some (mkResponse 200 (Some (mkPage [user_2] None))) ],
   [ Some (Some "t1"); Some (Some "t2") ]).

(** A server that answers 401 again after the refresh. *)
Definition rejecting_script : script :=
  ([ Some (mkResponse 401 None); Some (mkResponse 401 None) ],
   [ Some (Some "t1"); Some (Some "t2") ]).

(** The session [main] starts the fetch phase with, over a scripted
    server. *)
Definition start_session (w : script) : session script :=
  mkSession (initial_headers (Some "t0")) w [].

(** The configuration of [users] in [ENDPOINT_CONFIGS]. *)
Definition users_config : config :=
  mkConfig (Some ["id"; "username"; "email"; "created_date"; "status"])
           (Some "status eq 'active'") None None.

(** The URLs a descriptor walks through when its pages are [pages]: the
    start URL, then the continuation of each page. *)
Fixpoint page_urls (url : string) (pages : list Page) : list string :=
  match pages with
  | [] => []
  | p :: ps => url :: page_urls (default "" (next_link p)) ps
  end.

(** A chain of pages: every page but the last names a continuation. *)
Fixpoint well_linked (pages : list Page) : Prop :=
  match pages with
  | [] => False
  | [p] => truthy (default "" (next_link p)) = false
  | p :: ps => truthy (default "" (next_link p)) = true ∧ well_linked ps
  end.

(** The responses of a server that serves [pages] one after the other. *)
Definition serve (pages : list Page) : list (option Response) :=
  (λ p, Some (mkResponse 200 (Some p))) <$> pages.

(** A request that was answered 401. *)
Definition is_unauthorized (e : event) : bool :=
  match e with
  | EvGet _ _ (Some s) => bool_decide (s = 401)
  | _ => false
  end.

Definition three_pages : list Page :=
  [ mkPage [user_1] (Some "https://api/users?page=2");
    mkPage [user_2] (Some "https://api/users?page=3");
    mkPage [] None ].

(** Every column has one cell per row. *)
Definition rectangular (df : DataFrame) : Prop :=
  Forall (λ c : string * list pyval, length c.2 = nrows df) (columns df).

(** A cell after the text cast: its text, and for a null the text that
    [astype(str)] writes, or the empty text where [astype(str)] keeps the
    null and [fillna("")] fills it. *)
Definition text_cell `{FloatText} (v : pyval) : pyval :=
  if astype_str_keeps_na && isna v then VStr "" else VStr (py_str v).

(** The names of the casts that have a branch of their own. *)
Definition known_dtypes : list string := ["string"; "int64"; "int"; "float64"; "float"].

(** A cell that holds a number: a boolean, an integer or a float that is
    not NaN. *)
Definition is_number_cell (v : pyval) : bool :=
  match v with
  | VBool _ | VInt _ => true
  | VFloat x => negb (isna v)
  | _ => false
  end.

(** The labels of the result of a merge, read off the labels of the two
    sides. *)
Definition merge_labels (ls rs : list string) (left_on right_on : string) : list string :=
  let same_key := bool_decide (left_on = right_on) in
  let rs' := if same_key then filter (λ l, l ≠ right_on) rs else rs in
  let shared := if same_key then filter (λ l, l ≠ left_on) ls else ls in
  ((λ l, if bool_decide (l ∈ rs') then l +:+ "_x" else l) <$> ls)
  ++ ((λ l, if bool_decide (l ∈ shared) then l +:+ "_y" else l) <$> rs').

(** The labels an operation leaves, read off the labels of the working
    table and of the stored tables: what the engine does to the schema. *)
Definition schema_step (store : gmap string (list string)) (ls : list string)
    (op : operation) : result (list string) :=
  match op with
  | [] => Raise IndexError
  | action :: _ =>
      if bool_decide (action = "RENAME") then
        match op with
        | [_; old_col; new_col] =>
            Ok ((λ l, if decide (l = old_col) then new_col else l) <$> ls)
        | _ => Raise (ValueError "unpack")
        end
      else if bool_decide (action = "CAST") then
        match op with
        | [_; _; _] => Ok ls
        | _ => Raise (ValueError "unpack")
        end
      else if bool_decide (action = "JOIN") then
        match op with
        | [_; table; left_key; right_key] =>
            match store !! table with
            | Some rs =>
                if bool_decide (right_key ∈ rs) then
                  if bool_decide (left_key ∈ ls)
                  then Ok (merge_labels ls rs left_key right_key)
                  else Raise (KeyError left_key)
                else Raise (KeyError right_key)
            | None => Raise (KeyError table)
            end
        | _ => Raise (ValueError "unpack")
        end
      else Ok ls
  end.

Fixpoint schema_run (store : gmap string (list string)) (ls : list string)
    (operations : list operation) : result (list string) :=
  match operations with
  | [] => Ok ls
  | op :: rest => ls' ← schema_step store ls op; schema_run store ls' rest
  end.

(** The labels of the working table are distinct before every operation
    of a run and at its end. *)
Fixpoint unique_labels_run (store : gmap string (list string)) (ls : list string)
    (operations : list operation) : Prop :=
  NoDup ls
  ∧ match operations with
    | [] => True
    | op :: rest =>
        match schema_step store ls op with
        | Ok ls' => unique_labels_run store ls' rest
        | Raise _ => True
        end
    end.

(** A cast to [int64], the one operation whose outcome depends on the
    cells. *)
Definition is_int_cast (op : operation) : bool :=
  match op with
  | [action; _; dtype] =>
      bool_decide (action = "CAST") && bool_decide (str_lower dtype ∈ ["int64"; "int"])
  | _ => false
  end.

(** ** The configuration and the assembly phase of [main] *)

Definition products_config : config :=
  mkConfig (Some ["product_id"; "name"; "category"; "price"; "in_stock"])
           (Some "") None None.

Definition ENDPOINT_CONFIGS : list (string * config) :=
  [("users", users_config); ("orders", orders_config); ("products", products_config)].

Definition JOIN_OPERATIONS : list operation :=
  [ ["RENAME"; "id"; "user_id"];
    ["CAST"; "user_id"; "string"];
    ["JOIN"; "df_orders"; "user_id"; "user_id"];
    ["CAST"; "total_amount"; "float64"] ].

Definition COLUMN_MAPPINGS : list (string * string) :=
  [ ("user_id", "User ID"); ("username", "Customer Name"); ("email", "Email Address");
    ("order_id", "Order Number"); ("total_amount", "Order Total");
    ("order_date", "Purchase Date"); ("status", "Order Status") ].

(** [main] after the fetch phase: the working table is a copy of
    [df_users], the operations are applied, the output columns are
    formatted. *)
Definition assemble `{FloatText} (dataframes : gmap string DataFrame) : result DataFrame :=
  match dataframes !! "df_users" with
  | None => Raise (KeyError "df_users")
  | Some users =>
      final_df ← apply_transformations users JOIN_OPERATIONS dataframes;
      format_output_columns final_df COLUMN_MAPPINGS
  end.

(** ** The configuration of [Config/Master_Viewpoints_config.py] *)

Definition customers_view : config :=
  mkConfig (Some ["customer_id"; "customer_name"; "email"; "phone"; "region";
                  "account_status"; "created_date"; "last_modified_date"])
           (Some "account_status eq 'active'") None (Some None).

Definition orders_view : config :=
  mkConfig (Some ["order_id"; "customer_id"; "order_date"; "total_amount";
                  "status_code"; "priority_flag"; "shipping_address"; "payment_method"])
           (Some "") (Some "customer_id") (Some (Some "customer_id")).

Definition products_view : config :=
  mkConfig (Some ["product_id"; "product_name"; "category"; "brand"; "list_price";
                  "in_stock"; "discontinued"])
           (Some "discontinued eq false") None (Some None).

Definition VIEW_CONFIGS : list (string * config) :=
  [ ("customers", customers_view); ("orders", orders_view);
    ("order_items", order_items_config); ("products", products_view) ].

Definition TRANSFORMATION_STEPS : list operation :=
  [ ["RENAME"; "customer_id"; "cust_id"];
    ["RENAME"; "customer_name"; "name"];
    ["RENAME"; "created_date"; "customer_since"];
    ["CAST"; "cust_id"; "string"];
    ["CAST"; "phone"; "string"];
    ["JOIN"; "df_orders"; "cust_id"; "customer_id"];
    ["CAST"; "total_amount"; "int64"];
    ["CAST"; "order_id"; "string"];
    ["CAST"; "status_code"; "int64"];
    ["JOIN"; "df_order_items"; "order_id"; "order_id"];
    ["CAST"; "quantity"; "int64"];
    ["CAST"; "unit_price"; "int64"];
    ["CAST"; "product_id"; "string"];
    ["JOIN"; "df_products"; "product_id"; "product_id"] ].

(** The tables a list of operations joins. *)
Fixpoint join_tables (operations : list operation) : list string :=
  match operations with
  | [] => []
  | [action; table; _; _] :: rest =>
      if bool_decide (action = "JOIN") then table :: join_tables rest
      else join_tables rest
  | _ :: rest => join_tables rest
  end.

(** A store shaped by [VIEW_CONFIGS], with one customer, one order, one
    order item and one product. *)
Definition demo_customers : DataFrame :=
  @frame_of_records plain_text [ {["customer_id" := VInt 1; "customer_name" := VStr "ann"]} ]
    (default [] (select customers_view)).

Definition demo_view_store : gmap string DataFrame :=
  <["df_orders" :=
      @frame_of_records plain_text
        [ {["order_id" := VInt 10; "customer_id" := VInt 1; "total_amount" := VStr "12"]} ]
        (default [] (select orders_view))]>
    (<["df_order_items" :=
         @frame_of_records plain_text
           [ {["item_id" := VInt 5; "order_id" := VInt 10; "product_id" := VInt 7;
               "quantity" := VInt 2]} ]
           (default [] (select order_items_config))]>
       {["df_products" :=
           @frame_of_records plain_text
             [ {["product_id" := VInt 7; "product_name" := VStr "pen"]} ]
             (default [] (select products_view))]}).

(** * Properties *)

(** ** Rename *)

Lemma frame_eq (df1 df2 : DataFrame) :
  nrows df1 = nrows df2 → columns df1 = columns df2 → df1 = df2.
Proof. destruct df1, df2; simpl; intros -> ->; reflexivity. Qed.

Lemma rename_columns_missing (cs : list (string * list pyval)) (old_col new_col : string) :
  old_col ∉ cs.*1 →
  (λ c : string * list pyval, if decide (c.1 = old_col) then (new_col, c.2) else c) <$> cs = cs.
Proof.
  induction cs as [|c cs IH]; intros Hold; [reflexivity|].
  rewrite fmap_cons in Hold. apply not_elem_of_cons in Hold as [Hc Hcs].
  rewrite !fmap_cons, IH by assumption.
  rewrite decide_False by congruence. reflexivity.
Qed.

Lemma rename_columns_round_trip (cs : list (string * list pyval)) (a b : string) :
  b ∉ cs.*1 →
  (λ c : string * list pyval, if decide (c.1 = b) then (a, c.2) else c) <$>
    ((λ c : string * list pyval, if decide (c.1 = a) then (b, c.2) else c) <$> cs) = cs.
Proof.
  induction cs as [|[l c] cs IH]; intros Hb; [reflexivity|].
  rewrite fmap_cons in Hb. apply not_elem_of_cons in Hb as [Hl Hcs].
  rewrite !fmap_cons, IH by assumption. f_equal. simpl in *.
  destruct (decide (l = a)) as [->|Hne]; simpl.
  - rewrite decide_True; reflexivity.
  - rewrite decide_False; [reflexivity | congruence].
Qed.

Lemma rename_missing (df : DataFrame) (old_col new_col : string) :
  old_col ∉ labels df → rename df old_col new_col = df.
Proof.
  intros Hold. apply frame_eq; [reflexivity|].
  by apply rename_columns_missing.
Qed.

Lemma rename_round_trip (df : DataFrame) (a b : string) :
  b ∉ labels df → rename (rename df a b) b a = df.
Proof.
  intros Hb. apply frame_eq; [reflexivity|].
  by apply rename_columns_round_trip.
Qed.

(** C9.  On a table that has column [a] and no column [b], renaming [a]
    to [b] and then [b] back to [a] gives the table back: same labels,
    same cells, same order.  And renaming a column that is not there
    returns the table unchanged, without an exception. *)
Theorem rename_round_trip_and_missing `{FloatText}
    (df : DataFrame) (a b old_col new_col : string)
    (dataframes : gmap string DataFrame) :
  a ∈ labels df → b ∉ labels df → old_col ∉ labels df →
  apply_transformations df [["RENAME"; a; b]; ["RENAME"; b; a]] dataframes = Ok df
  ∧ apply_transformations df [["RENAME"; old_col; new_col]] dataframes = Ok df.
Proof.
  intros _ Hb Hold. split.
  - simpl. by rewrite rename_round_trip.
  - simpl. by rewrite rename_missing.
Qed.

Lemma rename_round_trip_and_missing_witness :
  @apply_transformations plain_text demo_table
    [["RENAME"; "id"; "user_id"]; ["RENAME"; "user_id"; "id"]] ∅ = Ok demo_table
  ∧ @apply_transformations plain_text demo_table
      [["RENAME"; "email"; "mail"]] ∅ = Ok demo_table.
Proof.
  apply (@rename_round_trip_and_missing plain_text);
    apply (bool_decide_unpack _); vm_compute; exact I.
Defined.

(** ** Operation lists *)

Lemma apply_transformations_app `{FloatText} (df : DataFrame)
    (ops1 ops2 : list operation) (dataframes : gmap string DataFrame) :
  apply_transformations df (ops1 ++ ops2) dataframes =
  (result_df ← apply_transformations df ops1 dataframes;
   apply_transformations result_df ops2 dataframes).
Proof.
  revert df. induction ops1 as [|op ops1 IH]; intros df; [reflexivity|].
  simpl. destruct (apply_operation dataframes df op) as [df'|e]; simpl.
  - apply IH.
  - reflexivity.
Qed.

Lemma apply_transformations_cons `{FloatText} (df : DataFrame) (op : operation)
    (rest : list operation) (dataframes : gmap string DataFrame) :
  apply_transformations df (op :: rest) dataframes =
  (result_df ← apply_operation dataframes df op;
   apply_transformations result_df rest dataframes).
Proof. reflexivity. Qed.

Lemma apply_operation_unknown `{FloatText} (dataframes : gmap string DataFrame)
    (df : DataFrame) (tag : string) (args : list string) :
  tag ≠ "RENAME" → tag ≠ "CAST" → tag ≠ "JOIN" →
  apply_operation dataframes df (tag :: args) = Ok df.
Proof.
  intros H1 H2 H3. unfold apply_operation.
  rewrite !bool_decide_eq_false_2 by assumption. reflexivity.
Qed.

(** C3, the claim as stated fails: the operation tagged [DROP] raises
    nothing, the table goes through it untouched and the operation after
    it is applied. *)
Lemma unknown_tag_raises_nothing :
  @apply_transformations plain_text demo_table
    [["DROP"; "name"]; ["RENAME"; "id"; "user_id"]] ∅
  = Ok (mkFrame 2 [("user_id", [VInt 1; VInt 2]); ("name", [VStr "ann"; VStr "bob"])]).
Proof. reflexivity. Qed.

(** C3, as amended.  An operation whose tag is none of [RENAME], [CAST]
    and [JOIN] is skipped: whatever its arguments and wherever it stands
    in the list, the result is the result of the list without it. *)
Theorem unknown_tag_is_skipped `{FloatText} (df : DataFrame)
    (before after : list operation) (tag : string) (args : list string)
    (dataframes : gmap string DataFrame) :
  tag ≠ "RENAME" → tag ≠ "CAST" → tag ≠ "JOIN" →
  apply_transformations df (before ++ (tag :: args) :: after) dataframes =
  apply_transformations df (before ++ after) dataframes.
Proof.
  intros H1 H2 H3. rewrite !apply_transformations_app.
  destruct (apply_transformations df before dataframes) as [df'|e]; [|reflexivity].
  cbv beta iota delta [mbind result_bind].
  by rewrite apply_transformations_cons, apply_operation_unknown.
Qed.

Lemma unknown_tag_is_skipped_witness :
  @apply_transformations plain_text demo_table
    ([["CAST"; "id"; "string"]] ++ ["DROP"; "name"] :: [["RENAME"; "id"; "user_id"]]) ∅ =
  @apply_transformations plain_text demo_table
    ([["CAST"; "id"; "string"]] ++ [["RENAME"; "id"; "user_id"]]) ∅.
Proof. apply (@unknown_tag_is_skipped plain_text); discriminate. Defined.

(** ** Requests that do not depend on another dataset *)

Lemma string_app_cons (c : Ascii.ascii) (s t : string) :
  String c s +:+ t = String c (s +:+ t).
Proof. reflexivity. Qed.

Lemma string_app_empty_l (s : string) : "" +:+ s = s.
Proof. reflexivity. Qed.

Lemma string_app_assoc (s1 s2 s3 : string) : (s1 +:+ s2) +:+ s3 = s1 +:+ s2 +:+ s3.
Proof.
  induction s1 as [|c s1 IH]; [reflexivity|].
  by rewrite !string_app_cons, IH.
Qed.

Lemma string_app_empty_r (s : string) : s +:+ "" = s.
Proof.
  induction s as [|c s IH]; [reflexivity|].
  by rewrite string_app_cons, IH.
Qed.

Lemma simple_url_clauses (base_url endpoint : string) (select_clause : option (list string))
    (extra_filter : string) :
  simple_url base_url endpoint select_clause extra_filter =
  base_url +:+ endpoint +:+ "?" +:+ predicate_clause extra_filter
    +:+ selection_clause extra_filter (default [] select_clause).
Proof.
  unfold simple_url, predicate_clause, selection_clause, select_truthy, truthy.
  destruct extra_filter as [|c f]; destruct select_clause as [[|col cols]|];
    cbn [String.eqb negb default];
    rewrite ?string_app_assoc, ?string_app_empty_l, ?string_app_empty_r;
    reflexivity.
Qed.

(** C8.  A configuration without [key_filter] yields exactly one URL: the
    base and the endpoint, [?], the predicate clause (the filter as it is,
    nothing when the filter is empty) and the selection clause (the
    selected columns joined by commas, led by [&] only behind a predicate
    clause). *)
Theorem no_key_filter_single_request `{FloatText} (base_url endpoint : string)
    (cfg : config) (dataframes : gmap string DataFrame) :
  key_filter cfg = None →
  build_request_urls base_url endpoint cfg dataframes =
  Ok [base_url +:+ endpoint +:+ "?"
        +:+ predicate_clause (default "" (filter_ cfg))
        +:+ selection_clause (default "" (filter_ cfg)) (default [] (select cfg))].
Proof.
  intros Hkey. unfold build_request_urls. rewrite Hkey. cbn.
  by rewrite simple_url_clauses.
Qed.

Lemma no_key_filter_single_request_witness :
  @build_request_urls plain_text "https://api/" "users"
    (mkConfig (Some ["id"; "username"]) (Some "status eq 'active'") None None) ∅ =
  Ok ["https://api/users?$filter=status eq 'active'&$select=id,username"].
Proof. apply (@no_key_filter_single_request plain_text); reflexivity. Defined.

Example simple_request_select_only :
  @build_request_urls plain_text "https://api/" "products"
    (mkConfig (Some ["product_id"; "name"]) (Some "") None None) ∅ =
  Ok ["https://api/products?$select=product_id,name"].
Proof. reflexivity. Qed.

Example simple_request_bare :
  @build_request_urls plain_text "https://api/" "products" (mkConfig None None None None) ∅ =
  Ok ["https://api/products?"].
Proof. reflexivity. Qed.

(** ** Output formatter *)

Lemma assoc_is_Some {A : Type} (k : string) (l : list (string * A)) :
  k ∈ l.*1 ↔ is_Some (assoc k l).
Proof.
  induction l as [|[k' v] l IH]; simpl.
  - split; [intros Hin; inversion Hin | intros [? ?]; discriminate].
  - rewrite elem_of_cons, IH. case_decide; [|tauto].
    split; [eauto | by left].
Qed.

Lemma assoc_elem_of {A : Type} (k : string) (l : list (string * A)) (v : A) :
  assoc k l = Some v → (k, v) ∈ l.
Proof.
  induction l as [|[k' v'] l IH]; simpl; [discriminate|].
  case_decide; intros Heq.
  - simplify_eq. left.
  - right. by apply IH.
Qed.

Lemma has_column_assoc (df : DataFrame) (column : string) :
  has_column df column = true ↔ is_Some (assoc column (columns df)).
Proof.
  unfold has_column, labels. rewrite bool_decide_eq_true. apply assoc_is_Some.
Qed.

Lemma has_column_getitem (df : DataFrame) (column : string) :
  has_column df column = true → ∃ c, getitem df column = Ok c ∧ (column, c) ∈ columns df.
Proof.
  intros [c Hc]%has_column_assoc. exists c. unfold getitem. rewrite Hc.
  split; [reflexivity | by apply assoc_elem_of].
Qed.

Lemma getitem_has_column (df : DataFrame) (column : string) (c : list pyval) :
  getitem df column = Ok c → has_column df column = true.
Proof.
  unfold getitem. intros Hget. apply has_column_assoc.
  destruct (assoc column (columns df)); [eauto | discriminate].
Qed.

Lemma format_series_list (df : DataFrame) (column_mappings : list (string * string)) :
  mapM (λ m : string * string, c ← getitem df m.1; Ok (mkSeries m.2 c))
       (filter (λ m : string * string, has_column df m.1 = true) column_mappings)
  = Ok ((λ p : string * list pyval, mkSeries p.1 p.2) <$> projected_columns df column_mappings).
Proof.
  unfold projected_columns.
  induction column_mappings as [|[old new] ms IH]; [reflexivity|].
  destruct (has_column df old) eqn:Hhas.
  - destruct (proj1 (has_column_assoc df old) Hhas) as [c Hc].
    rewrite filter_cons_True by exact Hhas.
    change (omap ?f ((old, new) :: ms)) with
      (match f (old, new) with Some y => y :: omap f ms | None => omap f ms end).
    change (mapM ?f ((old, new) :: ?l)) with (y ← f (old, new); ys ← mapM f l; Ok (y :: ys)).
    rewrite IH. cbn [fst snd]. unfold getitem. rewrite Hc. reflexivity.
  - rewrite filter_cons_False by (cbn [fst]; rewrite Hhas; discriminate).
    change (omap ?f ((old, new) :: ms)) with
      (match f (old, new) with Some y => y :: omap f ms | None => omap f ms end).
    cbn [fst snd].
    destruct (assoc old (columns df)) as [c|] eqn:Hc.
    + assert (has_column df old = true) as Hyes
        by (apply has_column_assoc; rewrite Hc; eauto).
      congruence.
    + exact IH.
Qed.

Lemma projected_columns_cells (df : DataFrame) (column_mappings : list (string * string))
    (p : string * list pyval) :
  p ∈ projected_columns df column_mappings →
  ∃ old, (old, p.1) ∈ column_mappings ∧ (old, p.2) ∈ columns df.
Proof.
  unfold projected_columns. rewrite list_elem_of_omap.
  intros ([old new] & Hin & Hp). simpl in Hp.
  destruct (assoc old (columns df)) as [c|] eqn:Hc; [|discriminate].
  simpl in Hp. simplify_eq. exists old. split; [assumption|].
  by apply assoc_elem_of.
Qed.

Lemma common_dtype_length `{FloatText} (cs : list (list pyval)) :
  length (common_dtype cs) = length cs.
Proof. symmetry. eapply Forall2_length, common_dtype_coerces. Qed.

(** The frame made of the projected columns. *)
Lemma frame_of_series_projected `{FloatText} (p : string * list pyval)
    (ps : list (string * list pyval)) :
  frame_of_series ((λ q : string * list pyval, mkSeries q.1 q.2) <$> p :: ps)
  = mkFrame (length p.2) (zip (p :: ps).*1 (common_dtype (p :: ps).*2)).
Proof.
  cbn [frame_of_series fmap list_fmap svalues]. f_equal.
  change (mkSeries p.1 p.2 :: list_fmap _ _ (λ q : string * list pyval, mkSeries q.1 q.2) ps)
    with ((λ q : string * list pyval, mkSeries q.1 q.2) <$> p :: ps).
  by rewrite <- !list_fmap_compose.
Qed.

(** C7, the claim as stated fails: on a table of two rows that has none of
    the mapped columns the formatter returns the frame without rows. *)
Lemma formatter_loses_rows_without_columns :
  @format_output_columns plain_text demo_table [("x", "X"); ("y", "Y")]
  = Ok (mkFrame 0 [])
  ∧ nrows demo_table = 2%nat.
Proof. split; reflexivity. Qed.

(** C7, as amended.  On a table with distinct labels the formatter never
    raises.  Its result holds exactly the mapped source columns that the
    table has, under their output labels and in mapping order; mapped
    columns that the table lacks are left out.  Each column has the cells
    of its source column, row by row, every cell with its value, possibly
    in another numeric type or as another null: pandas builds the result
    through a two-dimensional array and brings the cells to a common
    dtype, so an integer next to a float column comes out as a float.
    The row count is that of the table as soon as one mapped column
    exists; when none exists the result is the empty frame, without rows
    and without columns. *)
Theorem formatter_projects_existing_columns `{FloatText} (df : DataFrame)
    (column_mappings : list (string * string)) :
  wf_frame df →
  ∃ out, format_output_columns df column_mappings = Ok out
    ∧ labels out = (projected_columns df column_mappings).*1
    ∧ Forall2 (Forall2 coerced) (projected_columns df column_mappings).*2
        (columns out).*2
    ∧ (projected_columns df column_mappings ≠ [] → nrows out = nrows df)
    ∧ (projected_columns df column_mappings = [] → out = mkFrame 0 []).
Proof.
  intros [_ Hlen]. unfold format_output_columns. rewrite format_series_list.
  eexists. split; [reflexivity|].
  destruct (projected_columns df column_mappings) as [|p ps] eqn:Hproj.
  - repeat split; done || constructor.
  - rewrite frame_of_series_projected. unfold labels. cbn [columns nrows].
    split; [|split; [|split; [|done]]].
    + apply fst_zip. by rewrite common_dtype_length, !length_fmap.
    + rewrite snd_zip by by rewrite common_dtype_length, !length_fmap.
      apply common_dtype_coerces.
    + intros _.
      destruct (projected_columns_cells df column_mappings p) as (old & _ & Hin).
      { rewrite Hproj. left. }
      rewrite Forall_forall in Hlen. exact (Hlen _ Hin).
Qed.

Lemma formatter_projects_existing_columns_witness :
  ∃ out, @format_output_columns plain_text demo_table
           [("id", "User ID"); ("email", "Email Address"); ("name", "Customer Name")]
         = Ok out
    ∧ labels out = ["User ID"; "Customer Name"]
    ∧ nrows out = 2%nat.
Proof.
  destruct (@formatter_projects_existing_columns plain_text demo_table
              [("id", "User ID"); ("email", "Email Address"); ("name", "Customer Name")])
    as (out & Hout & Hlabels & _ & Hrows & _).
  - split.
    + apply (bool_decide_unpack _). vm_compute. exact I.
    + repeat constructor.
  - exists out. split; [exact Hout|]. split; [exact Hlabels|].
    apply Hrows. discriminate.
Defined.

Example formatter_single_column :
  @format_output_columns plain_text (mkFrame 2 [("x", [VInt 1; VInt 2])])
    [("x", "X"); ("y", "Y")]
  = Ok (mkFrame 2 [("X", [VInt 1; VInt 2])]).
Proof. reflexivity. Qed.

(** An integer column next to a float column comes out as floats. *)
Example formatter_unifies_numbers :
  @format_output_columns plain_text
    (mkFrame 2 [("n", [VInt 1; VInt 2]); ("x", [VFloat (FFin (3 # 2)); VFloat FNaN])])
    [("x", "X"); ("n", "N")]
  = Ok (mkFrame 2 [("X", [VFloat (FFin (3 # 2)); VFloat FNaN]);
                   ("N", [VFloat (FFin (inject_Z 1)); VFloat (FFin (inject_Z 2))])]).
Proof. reflexivity. Qed.

(** ** Requests that depend on another dataset: chunking *)

Lemma ceil_div_zero (c : nat) : (0 < c)%nat → ceil_div 0 c = 0%nat.
Proof. intros Hc. unfold ceil_div. apply Nat.div_small. lia. Qed.

Lemma ceil_div_step (m c : nat) :
  (0 < c)%nat → (0 < m)%nat → ceil_div m c = S (ceil_div (m - c) c).
Proof.
  intros Hc Hm. unfold ceil_div.
  destruct (decide (m ≤ c)%nat) as [Hle|Hgt].
  - replace (m - c + c - 1)%nat with (c - 1)%nat by lia.
    rewrite (Nat.div_small (c - 1) c) by lia.
    symmetry. apply (Nat.div_unique _ _ 1%nat (m - 1)%nat); lia.
  - replace (m + c - 1)%nat with ((m - c + c - 1) + 1 * c)%nat by lia.
    rewrite Nat.div_add by lia. lia.
Qed.

Lemma range_from_length (fuel start stop step : nat) :
  (0 < step)%nat → (stop - start ≤ fuel)%nat →
  length (range_from fuel start stop step) = ceil_div (stop - start) step.
Proof.
  intros Hstep. revert start.
  induction fuel as [|fuel IH]; intros start Hfuel; simpl.
  - replace (stop - start)%nat with 0%nat by lia. by rewrite ceil_div_zero.
  - case_decide as Hlt; simpl.
    + rewrite IH by lia. rewrite (ceil_div_step (stop - start)) by lia.
      do 2 f_equal. lia.
    + replace (stop - start)%nat with 0%nat by lia. by rewrite ceil_div_zero.
Qed.

Lemma slices_concat {A : Type} (l : list A) (fuel start size : nat) :
  (0 < size)%nat → (length l - start ≤ fuel)%nat →
  concat ((λ i, slice l i (i + size)) <$> range_from fuel start (length l) size)
  = drop start l.
Proof.
  intros Hsize. revert start.
  induction fuel as [|fuel IH]; intros start Hfuel; simpl.
  - symmetry. apply drop_ge. lia.
  - case_decide as Hlt.
    + rewrite fmap_cons, concat_cons, IH by lia.
      unfold slice. replace (start + size - start)%nat with size by lia.
      rewrite <- (drop_drop l size start). apply take_drop.
    + symmetry. apply drop_ge. lia.
Qed.

Lemma slices_bounded {A : Type} (l : list A) (fuel start size : nat) :
  (0 < size)%nat →
  Forall (λ g : list A, (0 < length g ≤ size)%nat)
    ((λ i, slice l i (i + size)) <$> range_from fuel start (length l) size).
Proof.
  intros Hsize. revert start.
  induction fuel as [|fuel IH]; intros start; simpl; [constructor|].
  case_decide as Hlt; [|constructor].
  rewrite fmap_cons. constructor; [|apply IH].
  unfold slice. rewrite length_take, length_drop. lia.
Qed.

Lemma chunks_length (size : nat) (id_list : list string) :
  (0 < size)%nat → length (chunks size id_list) = ceil_div (length id_list) size.
Proof.
  intros Hsize. unfold chunks, py_range.
  rewrite length_fmap, range_from_length by lia. f_equal. lia.
Qed.

Lemma chunks_concat (size : nat) (id_list : list string) :
  (0 < size)%nat → concat (chunks size id_list) = id_list.
Proof.
  intros Hsize. unfold chunks, py_range. by rewrite slices_concat by lia.
Qed.

Lemma unique_spec (seen l : list string) :
  NoDup (unique seen l)
  ∧ ∀ x, x ∈ unique seen l ↔ x ∈ l ∧ x ∉ seen.
Proof.
  revert seen. induction l as [|y l IH]; intros seen; simpl.
  - split; [constructor|]. intros x. split; [intros Hx; inversion Hx|].
    intros [Hx _]. inversion Hx.
  - case_bool_decide as Hy.
    + destruct (IH seen) as [Hnd Hin]. split; [assumption|].
      intros x. rewrite Hin, elem_of_cons. split; [tauto|].
      intros [[->|Hx] Hns]; [contradiction | tauto].
    + destruct (IH (y :: seen)) as [Hnd Hin]. split.
      * constructor; [|assumption]. rewrite Hin, elem_of_cons. tauto.
      * intros x. rewrite !elem_of_cons, Hin, elem_of_cons.
        destruct (decide (x = y)) as [->|Hne]; [tauto|]. tauto.
Qed.

Lemma elem_of_concat_group {A : Type} (groups : list (list A)) (g : list A) (v : A) :
  v ∈ g → g ∈ groups → v ∈ concat groups.
Proof.
  intros Hv. induction groups as [|g' groups IH]; intros Hg; [inversion Hg|].
  simpl. rewrite elem_of_app. apply elem_of_cons in Hg as [->|Hg]; [by left|].
  right. by apply IH.
Qed.

(** A value of a duplicate-free concatenation lies in one group only. *)
Lemma concat_NoDup_unique_group {A : Type} (groups : list (list A)) (v : A) :
  NoDup (concat groups) → v ∈ concat groups →
  ∃ j, (∃ g, groups !! j = Some g ∧ v ∈ g)
       ∧ ∀ j', (∃ g', groups !! j' = Some g' ∧ v ∈ g') → j' = j.
Proof.
  induction groups as [|g groups IH]; simpl.
  - intros _ Hv. inversion Hv.
  - rewrite NoDup_app, elem_of_app. intros (Hg & Hdisj & Hrest) Hv.
    destruct Hv as [Hin|Hv].
    + exists 0%nat. split; [eauto|].
      intros [|j'] (g' & Hlook & Hin'); [reflexivity|]. exfalso.
      apply (Hdisj v Hin). apply (elem_of_concat_group _ g'); [assumption|].
      eapply list_elem_of_lookup_2. exact Hlook.
    + destruct (IH Hrest Hv) as (j & Hj & Huniq).
      exists (S j). split; [exact Hj|].
      intros [|j'] (g' & Hlook & Hin'); simpl in Hlook.
      * simplify_eq. exfalso. by apply (Hdisj v Hin').
      * f_equal. apply Huniq. eauto.
Qed.

Lemma driving_values_ok `{FloatText} (dataframes : gmap string DataFrame)
    (users : DataFrame) (d : string) (col : list pyval) :
  dataframes !! "df_users" = Some users → getitem users d = Ok col →
  driving_values dataframes (Some d) = Ok (unique [] (py_str <$> dropna col)).
Proof. intros Hu Hc. unfold driving_values. by rewrite Hu, Hc. Qed.

(** The URL of a chunk is the descriptor whose tests are the equality
    tests of the values of the chunk. *)
Lemma chunk_url_descriptor (base_url endpoint : string)
    (select_clause : option (list string)) (extra_filter key_filter_col : string)
    (chunk : list string) :
  chunk_url base_url endpoint select_clause extra_filter key_filter_col chunk
  = dependent_descriptor base_url endpoint (default [] select_clause) extra_filter
      (equality_test key_filter_col <$> chunk).
Proof.
  unfold chunk_url, dependent_descriptor, select_truthy, truthy.
  change (λ val : string, key_filter_col +:+ " eq '" +:+ val +:+ "'")
    with (equality_test key_filter_col).
  destruct extra_filter as [|c f]; destruct select_clause as [[|col cols]|];
    cbn [String.eqb negb default];
    rewrite ?string_app_assoc, ?string_app_empty_l, ?string_app_empty_r;
    reflexivity.
Qed.

Lemma string_app_inv_head (s t1 t2 : string) : s +:+ t1 = s +:+ t2 → t1 = t2.
Proof.
  induction s as [|c s IH]; [done|].
  rewrite !string_app_cons. intros [= Heq]. by apply IH.
Qed.

Lemma string_app_nil (s t : string) : s +:+ t = "" → s = "" ∧ t = "".
Proof. destruct s; [done | discriminate]. Qed.

Lemma string_app_inv_quote (s t : string) : s +:+ "'" = t +:+ "'" → s = t.
Proof.
  revert t. induction s as [|c s IH]; intros [|c' t]; rewrite ?string_app_cons; cbn.
  - done.
  - intros [= _ Heq]. symmetry in Heq. by apply string_app_nil in Heq as [_ ?].
  - intros [= _ Heq]. by apply string_app_nil in Heq as [_ ?].
  - intros [= -> Heq]. f_equal. by apply IH.
Qed.

(** Distinct values have distinct equality tests. *)
Lemma equality_test_inj (k v v' : string) :
  equality_test k v = equality_test k v' → v = v'.
Proof.
  unfold equality_test.
  intros Heq%string_app_inv_head%string_app_inv_head. by apply string_app_inv_quote.
Qed.

Lemma equality_test_elem_of (k v : string) (g : list string) :
  equality_test k v ∈ equality_test k <$> g ↔ v ∈ g.
Proof.
  rewrite list_elem_of_fmap. split.
  - intros (v' & Heq & Hin). by apply equality_test_inj in Heq as ->.
  - intros Hin. eauto.
Qed.

Lemma equality_test_not_empty (k v : string) : equality_test k v ≠ "".
Proof. unfold equality_test. intros Heq. by apply string_app_nil in Heq as [_ ?]. Qed.

(** A predicate over at least one value is not the empty text. *)
Lemma key_predicate_not_empty (k : string) (g : list string) :
  g ≠ [] → str_join " or " (equality_test k <$> g) ≠ "".
Proof.
  destruct g as [|v g]; [done|]. intros _. unfold str_join.
  rewrite fmap_cons. cbn [String.concat].
  destruct (equality_test k <$> g).
  - apply equality_test_not_empty.
  - intros Heq. apply string_app_nil in Heq as [Heq _].
    by apply equality_test_not_empty in Heq.
Qed.

(** C4.  With [key_filter] and the driving column present, the planner
    splits the deduplicated driving values, in first-seen order, into
    consecutive chunks and emits one URL per chunk, in chunk order; the
    predicate of the URL of a chunk is the disjunction of the equality
    tests of the values of that chunk.  For a chunk size [size] and [N]
    values there are [ceil(N / size)] URLs, the concatenation of the chunks
    is the value sequence itself, and the equality test of every value is
    among the tests of exactly one URL; no value gives no URL.
    [build_request_urls] is the instance at [chunk_size = 10]. *)
Theorem dependent_requests_chunked `{FloatText} (size : nat)
    (base_url endpoint : string) (cfg : config) (dataframes : gmap string DataFrame)
    (users : DataFrame) (col : list pyval) (k d : string) :
  (0 < size)%nat →
  key_filter cfg = Some k → truthy k = true →
  driving_view_col_name cfg = Some (Some d) →
  dataframes !! "df_users" = Some users → getitem users d = Ok col →
  let id_list := unique [] (py_str <$> dropna col) in
  let descriptor := λ tests : list string,
    dependent_descriptor base_url endpoint (default [] (select cfg))
      (default "" (filter_ cfg)) tests in
  let tests_of := λ size : nat, fmap (equality_test k) <$> chunks size id_list in
  dependent_urls size base_url endpoint (select cfg) (default "" (filter_ cfg)) k
    (Some d) dataframes = Ok (descriptor <$> tests_of size)
  ∧ build_request_urls base_url endpoint cfg dataframes
    = Ok (descriptor <$> tests_of chunk_size)
  ∧ length (tests_of size) = ceil_div (length id_list) size
  ∧ concat (tests_of size) = equality_test k <$> id_list
  ∧ NoDup id_list
  ∧ (∀ v, v ∈ id_list →
       ∃ j, (∃ tests, tests_of size !! j = Some tests ∧ equality_test k v ∈ tests)
            ∧ ∀ j', (∃ tests, tests_of size !! j' = Some tests
                              ∧ equality_test k v ∈ tests) → j' = j)
  ∧ (id_list = [] → tests_of size = []).
Proof.
  intros Hsize Hk Htruthy Hd Hu Hc id_list descriptor tests_of.
  assert (NoDup id_list) as Hnd by apply unique_spec.
  assert (concat (chunks size id_list) = id_list) as Hcat by by apply chunks_concat.
  assert (∀ size', chunk_url base_url endpoint (select cfg) (default "" (filter_ cfg)) k
                     <$> chunks size' id_list = descriptor <$> tests_of size') as Hurls.
  { intros size'. unfold tests_of. rewrite <- list_fmap_compose.
    apply list_fmap_ext. intros _ g _. apply chunk_url_descriptor. }
  split; [|split; [|split; [|split; [|split; [exact Hnd|split]]]]].
  - unfold dependent_urls. rewrite (driving_values_ok _ users d col) by assumption.
    change (Ok ?x ≫= ?f) with (f x). cbv beta. f_equal. apply Hurls.
  - unfold build_request_urls. rewrite Hk, Hd.
    change (default "" (Some k)) with k. rewrite Htruthy.
    rewrite bool_decide_eq_true_2 by eauto. cbn [andb].
    unfold dependent_urls. rewrite (driving_values_ok _ users d col) by assumption.
    change (Ok ?x ≫= ?f) with (f x). cbv beta. f_equal. apply Hurls.
  - unfold tests_of. rewrite length_fmap. by apply chunks_length.
  - unfold tests_of. rewrite <- Hcat at 2. clear.
    induction (chunks size id_list) as [|g gs IH]; [reflexivity|].
    rewrite fmap_cons. cbn [concat]. by rewrite fmap_app, IH.
  - intros v Hv.
    destruct (concat_NoDup_unique_group (chunks size id_list) v) as (j & Hj & Huniq);
      [by rewrite Hcat..|].
    exists j. unfold tests_of. split.
    + destruct Hj as (g & Hg & Hin). exists (equality_test k <$> g).
      rewrite list_lookup_fmap, Hg. split; [reflexivity|].
      by apply equality_test_elem_of.
    + intros j' (tests & Htests & Hin). apply Huniq.
      rewrite list_lookup_fmap in Htests.
      destruct (chunks size id_list !! j') as [g'|]; [|discriminate].
      cbn in Htests. injection Htests as <-. exists g'.
      split; [reflexivity|]. by apply equality_test_elem_of in Hin.
  - intros Hnil. unfold tests_of.
    assert (chunks size id_list = []) as ->; [|reflexivity].
    apply length_zero_iff_nil.
    rewrite chunks_length, Hnil by assumption. by apply ceil_div_zero.
Qed.

Lemma dependent_requests_chunked_witness :
  @build_request_urls plain_text "https://api/" "orders" orders_config
    {["df_users" := users_15]}
  = Ok (dependent_descriptor "https://api/" "orders"
          ["order_id"; "user_id"; "total_amount"; "order_date"; "status"] ""
          <$> [ equality_test "user_id"
                  <$> ["1"; "2"; "3"; "4"; "5"; "6"; "7"; "8"; "9"; "10"];
                equality_test "user_id" <$> ["11"; "12"; "13"; "14"; "15"] ])
  ∧ length (fmap (M := list) (equality_test "user_id")
              <$> chunks 10 (unique [] (@py_str plain_text <$>
                    dropna ((λ n, VInt (Z.of_nat n)) <$> seq 1 15)))) = 2%nat.
Proof.
  destruct (@dependent_requests_chunked plain_text 10 "https://api/" "orders"
              orders_config {["df_users" := users_15]} users_15
              ((λ n, VInt (Z.of_nat n)) <$> seq 1 15) "user_id" "id")
    as (_ & Hurls & Hlen & _).
  - lia.
  - reflexivity.
  - reflexivity.
  - reflexivity.
  - reflexivity.
  - reflexivity.
  - split; [exact Hurls | exact Hlen].
Defined.

Example fifteen_ids_two_requests :
  @build_request_urls plain_text "https://api/" "orders"
    (mkConfig None None (Some "user_id") (Some (Some "id"))) {["df_users" := users_15]}
  = Ok [ "https://api/orders?$filter=user_id eq '1' or user_id eq '2' or user_id eq '3' or user_id eq '4' or user_id eq '5' or user_id eq '6' or user_id eq '7' or user_id eq '8' or user_id eq '9' or user_id eq '10'";
         "https://api/orders?$filter=user_id eq '11' or user_id eq '12' or user_id eq '13' or user_id eq '14' or user_id eq '15'" ].
Proof. vm_compute. reflexivity. Qed.

Example no_driving_values_no_request :
  @build_request_urls plain_text "https://api/" "orders" orders_config
    {["df_users" := mkFrame 2 [("id", [VNone; VFloat FNaN])]]} = Ok [].
Proof. vm_compute. reflexivity. Qed.

(** ** The dataset the planner reads *)

(** The planner looks at no dataset but [df_users]. *)
Lemma planner_depends_on_df_users_only `{FloatText} (base_url endpoint : string)
    (cfg : config) (dataframes dataframes' : gmap string DataFrame) :
  dataframes !! "df_users" = dataframes' !! "df_users" →
  build_request_urls base_url endpoint cfg dataframes
  = build_request_urls base_url endpoint cfg dataframes'.
Proof.
  intros Heq. unfold build_request_urls, dependent_urls, driving_values.
  by rewrite Heq.
Qed.

(** C2, the code at the failing input.  For [order_items], whose driving
    column is [order_id] of the orders, the planner does not read the
    orders: with the orders and the users in the store it looks for
    [order_id] among the columns of [df_users] and raises, and in a store
    that holds the orders but no [df_users] it raises on the name
    [df_users]. *)
Theorem order_items_not_driven_by_orders `{FloatText} :
  build_request_urls "https://api/" "order_items" order_items_config
    (<["df_orders" := demo_orders]> {["df_users" := demo_table]})
  = Raise (KeyError "order_id")
  ∧ build_request_urls "https://api/" "order_items" order_items_config
      (<["df_orders" := demo_orders]> {["df_customers" := demo_table]})
    = Raise (KeyError "df_users").
Proof. split; reflexivity. Qed.

(** ** Cast *)

Lemma getitem_setitem (df : DataFrame) (column : string) (values : list pyval) :
  has_column df column = true → getitem (setitem df column values) column = Ok values.
Proof.
  unfold has_column, labels, getitem, setitem. rewrite bool_decide_eq_true. simpl.
  induction (columns df) as [|[l c] cs IH]; intros Hin; [inversion Hin|].
  rewrite fmap_cons in Hin. rewrite fmap_cons. simpl in *.
  destruct (decide (l = column)) as [->|Hne]; simpl.
  - by rewrite decide_True.
  - rewrite decide_False by congruence. apply IH.
    apply elem_of_cons in Hin as [?|?]; [congruence | assumption].
Qed.

Lemma cast_missing_column `{FloatText} (df : DataFrame) (column dtype : string) :
  has_column df column = false → safe_cast_column df column dtype = Ok df.
Proof. intros Hno. unfold safe_cast_column. by rewrite Hno. Qed.

Lemma fillna_astype_str `{FloatText} (c : list pyval) :
  fillna (VStr "") (astype_str c) = text_cell <$> c.
Proof.
  unfold fillna, astype_str, text_cell. rewrite <- list_fmap_compose.
  apply list_fmap_ext. intros _ v _. cbn.
  by destruct astype_str_keeps_na, v as [| | | |[| |]|].
Qed.

(** The text cast: where [astype(str)] writes the text of a null,
    [fillna] finds nothing to fill behind it; where it keeps the null,
    [fillna] makes it the empty text. *)
Lemma cast_string_is_text `{FloatText} (df : DataFrame) (column : string)
    (c : list pyval) :
  has_column df column = true → getitem df column = Ok c →
  safe_cast_column df column "string" = Ok (setitem df column (text_cell <$> c)).
Proof.
  intros Hhas Hc. unfold safe_cast_column. rewrite Hhas, Hc. cbn.
  by rewrite fillna_astype_str.
Qed.

Lemma null_text_not_empty `{FloatText} (v : pyval) :
  isna v = true → py_str v ∈ null_markers ∧ py_str v ≠ "".
Proof.
  destruct v as [| | | |[| |]|]; try discriminate; intros _;
    (split; [unfold null_markers; set_solver | discriminate]).
Qed.

(** Cast to [string] on the column ["7", "abc", None]: what becomes of the
    null depends on the version of pandas, the text ["None"] before
    pandas 3, the empty text from pandas 3 on. *)
Lemma cast_string_null `{FloatText} :
  safe_cast_column demo_cast_table "c" "string"
  = Ok (mkFrame 3 [("c", [VStr "7"; VStr "abc";
                          VStr (if astype_str_keeps_na then "" else "None")])]).
Proof.
  rewrite (cast_string_is_text _ "c" [VStr "7"; VStr "abc"; VNone]) by reflexivity.
  unfold text_cell. by destruct astype_str_keeps_na.
Qed.

Example cast_int64_example :
  @safe_cast_column plain_text demo_cast_table "c" "int64"
  = Ok (mkFrame 3 [("c", [VInt 7; VInt (-1); VInt (-1)])]).
Proof. reflexivity. Qed.

Example cast_float64_example :
  @safe_cast_column plain_text demo_cast_table "c" "FLOAT64"
  = Ok (mkFrame 3 [("c", [VFloat (FFin (inject_Z 7)); VFloat (FFin 0); VFloat (FFin 0)])]).
Proof. reflexivity. Qed.

Lemma mapM_lookup {A B : Type} (f : A → result B) (l : list A) (l' : list B)
    (i : nat) (x : A) :
  mapM f l = Ok l' → l !! i = Some x → ∃ y, f x = Ok y ∧ l' !! i = Some y.
Proof.
  revert l' i. induction l as [|a l IH]; intros l' i Hm Hx; [discriminate|].
  change (mapM f (a :: l)) with (y ← f a; ys ← mapM f l; Ok (y :: ys)) in Hm.
  destruct (f a) as [b|e] eqn:Hfa; [|discriminate].
  destruct (mapM f l) as [bs|e] eqn:Hfl; [|discriminate].
  cbn in Hm. simplify_eq. destruct i as [|i]; simpl in *.
  - simplify_eq. eauto.
  - by apply IH.
Qed.

Lemma forallb_lookup_false {A : Type} (p : A → bool) (l : list A) (i : nat) (x : A) :
  l !! i = Some x → p x = false → forallb p l = false.
Proof.
  revert i. induction l as [|a l IH]; intros [|i] Hx Hp; simpl in *; try discriminate.
  - simplify_eq. by rewrite Hp.
  - rewrite (IH i) by assumption. apply andb_false_r.
Qed.

(** A null or an unparsable text is NaN after [to_numeric]. *)
Lemma to_numeric_coerced `{FloatText} (c : list pyval) (i : nat) (v : pyval) :
  c !! i = Some v → numeric_cell v = None → to_numeric c !! i = Some (VFloat FNaN).
Proof.
  intros Hv Hnum. unfold to_numeric.
  rewrite (forallb_lookup_false is_bool_cell c i v) by (done || by destruct v).
  rewrite (forallb_lookup_false is_int_number (numeric_cell <$> c) i None)
    by (done || by rewrite list_lookup_fmap, Hv; simpl; rewrite Hnum).
  by rewrite !list_lookup_fmap, Hv; simpl; rewrite Hnum.
Qed.

Lemma safe_cast_int64_eq `{FloatText} (df : DataFrame) (column : string) (c : list pyval) :
  has_column df column = true → getitem df column = Ok c →
  safe_cast_column df column "int64" =
  (ints ← astype_int (fillna (VInt (-1)) (to_numeric c)); Ok (setitem df column ints)).
Proof. intros Hhas Hc. unfold safe_cast_column. rewrite Hhas, Hc. reflexivity. Qed.

Lemma safe_cast_float64_eq `{FloatText} (df : DataFrame) (column : string) (c : list pyval) :
  has_column df column = true → getitem df column = Ok c →
  safe_cast_column df column "float64" =
  Ok (setitem df column (fillna (VFloat (FFin 0)) (to_numeric c))).
Proof. intros Hhas Hc. unfold safe_cast_column. rewrite Hhas, Hc. reflexivity. Qed.

(** Cast to [int64]: wherever the cast returns, a null or an unparsable
    text has become [-1]. *)
Lemma cast_int64_fallback `{FloatText} (df out : DataFrame) (column : string)
    (c c' : list pyval) (i : nat) (v : pyval) :
  has_column df column = true → getitem df column = Ok c →
  safe_cast_column df column "int64" = Ok out → getitem out column = Ok c' →
  c !! i = Some v → numeric_cell v = None → c' !! i = Some (VInt (-1)).
Proof.
  intros Hhas Hc Hcast Hc' Hv Hnum.
  rewrite (safe_cast_int64_eq df column c) in Hcast by assumption.
  destruct (astype_int (fillna (VInt (-1)) (to_numeric c))) as [ints|e] eqn:Hints;
    [|discriminate].
  injection Hcast as <-. rewrite getitem_setitem in Hc' by assumption.
  simplify_eq.
  destruct (mapM_lookup _ _ _ i (VInt (-1)) Hints) as (y & Hy & Hlook).
  { unfold fillna. by rewrite list_lookup_fmap, (to_numeric_coerced c i v). }
  simpl in Hy. by simplify_eq.
Qed.

(** Cast to [float64] never raises, and a null or an unparsable text has
    become [0.0]. *)
Lemma cast_float64_fallback `{FloatText} (df : DataFrame) (column : string)
    (c : list pyval) (i : nat) (v : pyval) :
  has_column df column = true → getitem df column = Ok c →
  ∃ out c', safe_cast_column df column "float64" = Ok out
    ∧ getitem out column = Ok c'
    ∧ (c !! i = Some v → numeric_cell v = None → c' !! i = Some (VFloat (FFin 0))).
Proof.
  intros Hhas Hc. rewrite (safe_cast_float64_eq df column c) by assumption.
  eexists _, _. split; [reflexivity|]. split; [by apply getitem_setitem|].
  intros Hv Hnum. unfold fillna.
  by rewrite list_lookup_fmap, (to_numeric_coerced c i v).
Qed.

Lemma mapM_raise {A B : Type} (f : A → result B) (e : exn) (l : list A) :
  Forall (λ x, f x = Raise e ∨ ∃ y, f x = Ok y) l →
  Exists (λ x, f x = Raise e) l →
  mapM f l = Raise e.
Proof.
  induction 1 as [|x l Hx Hl IH]; intros Hex; [by apply Exists_nil in Hex|].
  change (mapM f (x :: l)) with (y ← f x; ys ← mapM f l; Ok (y :: ys)).
  destruct Hx as [->|[y Hy]]; [reflexivity|]. rewrite Hy.
  apply Exists_cons in Hex as [Hex|Hex]; [congruence|].
  change (Ok y ≫= ?k) with (k y). cbv beta. by rewrite IH.
Qed.

(** C6, the code at the failing input.  Cast to [int64] raises: a cell
    that reads as an infinity, the text ["inf"] for one, is a number for
    [to_numeric], so it is not coerced to NaN and [fillna(-1)] leaves it,
    and [astype(int)] refuses it.  This holds for every column that has
    such a cell, whatever the other cells are. *)
Theorem cast_int64_raises_on_infinity `{FloatText} (df : DataFrame) (column : string)
    (c : list pyval) (i : nat) (v : pyval) (negative : bool) :
  getitem df column = Ok c → c !! i = Some v →
  numeric_cell v = Some (NumFloat (FInf negative)) →
  safe_cast_column df column "int64" = Raise IntCastingNaNError.
Proof.
  intros Hc Hv Hinf.
  rewrite (safe_cast_int64_eq df column c) by eauto using getitem_has_column.
  assert (astype_int (fillna (VInt (-1)) (to_numeric c)) = Raise IntCastingNaNError)
    as ->; [|reflexivity].
  unfold astype_int, to_numeric.
  rewrite (forallb_lookup_false is_bool_cell c i v Hv)
    by (destruct v as [| |b| | |]; [done..|discriminate|done|done|done]).
  rewrite (forallb_lookup_false is_int_number (numeric_cell <$> c) i
             (Some (NumFloat (FInf negative))))
    by (done || by rewrite list_lookup_fmap, Hv; cbn; rewrite Hinf).
  unfold fillna. rewrite <- !list_fmap_compose. apply mapM_raise.
  - apply Forall_fmap, Forall_true. intros u. cbn.
    destruct (numeric_cell u) as [[z|[| |q]]|]; cbn; eauto.
    + pose proof (float_of_int_number z) as Hz.
      destruct (float_of_int z) as [| |q]; cbn; [done|eauto|].
      case_bool_decide; eauto.
    + case_bool_decide; eauto.
  - apply Exists_fmap, Exists_exists. exists v.
    split; [by eapply list_elem_of_lookup_2|]. cbn. by rewrite Hinf.
Qed.

Lemma cast_int64_raises_on_infinity_witness :
  @safe_cast_column plain_text (mkFrame 2 [("c", [VStr "7"; VStr "inf"])]) "c" "int64"
  = Raise IntCastingNaNError.
Proof.
  apply (@cast_int64_raises_on_infinity plain_text _ "c" [VStr "7"; VStr "inf"]
           1%nat (VStr "inf") false); reflexivity.
Defined.

(** ** Join *)













Lemma clean_join_key_eq `{FloatText} (df : DataFrame) (key_column : string)
    (c : list pyval) :
  getitem df key_column = Ok c →
  clean_join_key df key_column
  = Ok (setitem df key_column (VStr <$> (normalize_key <$> c))).
Proof.
  intros Hc. unfold clean_join_key.
  rewrite (getitem_has_column df key_column c Hc), Hc. cbn [negb].
  change (Ok c ≫= ?k) with (k c). cbv beta. do 2 f_equal.
  unfold fillna, replace_values, astype_str. rewrite <- !list_fmap_compose.
  apply list_fmap_ext. intros _ v _. unfold normalize_key. cbn.
  destruct (astype_str_keeps_na && isna v) eqn:Hkeep; cbn.
  - apply andb_true_iff in Hkeep as [_ Hna].
    by rewrite (bool_decide_eq_true_2 _ (proj1 (null_text_not_empty v Hna))).
  - by case_bool_decide.
Qed.








Lemma take_right_length `{FloatText} (c : list pyval) (ix : list (nat * option nat)) :
  length (take_right c ix) = length ix.
Proof. unfold take_right. by rewrite length_fmap. Qed.

Lemma labels_setitem (df : DataFrame) (column : string) (values : list pyval) :
  labels (setitem df column values) = labels df.
Proof.
  unfold labels, setitem. simpl. rewrite <- list_fmap_compose.
  apply list_fmap_ext. intros _ c _. simpl. by case_decide.
Qed.




(** The join of the example: the first left row meets the first right row,
    the null left key meets the right key ["nan"] (both are the empty text
    once normalized), and the left key ["3"] meets both right rows of key
    ["3"]. *)
Example safe_merge_example :
  @safe_merge plain_text join_left join_right "k" "k"
  = Ok (mkFrame 4 [("k", [VStr "1"; VStr ""; VStr "3"; VStr "3"]);
                   ("a", [VInt 10; VInt 20; VInt 30; VInt 30]);
                   ("b", [VStr "x"; VStr "y"; VStr "z"; VStr "w"])]).
Proof. reflexivity. Qed.

Example safe_merge_unmatched_row :
  @safe_merge plain_text join_left
    (mkFrame 1 [("key", [VInt 3]); ("b", [VStr "z"])]) "k" "key"
  = Ok (mkFrame 3 [("k", [VStr "1"; VStr ""; VStr "3"]);
                   ("a", [VInt 10; VInt 20; VInt 30]);
                   ("key", [VFloat FNaN; VFloat FNaN; VStr "3"]);
                   ("b", [VFloat FNaN; VFloat FNaN; VStr "z"])]).
Proof. reflexivity. Qed.

(** An integer column of the right table comes out as floats when a left
    row has no match, and as it is when every left row has one. *)
Example safe_merge_promotes_integers :
  @safe_merge plain_text join_left
    (mkFrame 1 [("k", [VInt 3]); ("n", [VInt 10])]) "k" "k"
  = Ok (mkFrame 3 [("k", [VStr "1"; VStr ""; VStr "3"]);
                   ("a", [VInt 10; VInt 20; VInt 30]);
                   ("n", [VFloat FNaN; VFloat FNaN; VFloat (FFin (inject_Z 10))])])
  ∧ @safe_merge plain_text (mkFrame 1 [("k", [VStr "3"])])
      (mkFrame 1 [("k", [VInt 3]); ("n", [VInt 10])]) "k" "k"
    = Ok (mkFrame 1 [("k", [VStr "3"]); ("n", [VInt 10])]).
Proof. split; reflexivity. Qed.

(** ** The credential in the shared headers *)

Lemma auth_after_app (auth : option string) (tr1 tr2 : list event) :
  auth_after auth (tr1 ++ tr2) = auth_after (auth_after auth tr1) tr2.
Proof.
  revert auth. induction tr1 as [|[u h s|[t|]] tr1 IH]; intros auth; simpl; auto.
Qed.

Lemma requests_carry_app (auth : option string) (tr1 tr2 : list event) :
  requests_carry auth (tr1 ++ tr2) ↔
  requests_carry auth tr1 ∧ requests_carry (auth_after auth tr1) tr2.
Proof.
  revert auth. induction tr1 as [|[u h s|[t|]] tr1 IH]; intros auth; simpl.
  - tauto.
  - rewrite IH. tauto.
  - apply IH.
  - apply IH.
Qed.

Lemma requests_carry_at (auth : option string) (pre post : list event)
    (u : string) (h : gmap string string) (s : option Z) :
  requests_carry auth (pre ++ EvGet u h s :: post) →
  h !! "Authorization" = auth_after auth pre.
Proof. rewrite requests_carry_app. simpl. tauto. Qed.

Lemma credential_threaded_refl {W : Type} (st : session W) : credential_threaded st st.
Proof. exists []. rewrite app_nil_r. simpl. auto. Qed.

Lemma credential_threaded_trans {W : Type} (st1 st2 st3 : session W) :
  credential_threaded st1 st2 → credential_threaded st2 st3 → credential_threaded st1 st3.
Proof.
  intros (evs1 & Ht1 & Hc1 & Ha1 & Hk1) (evs2 & Ht2 & Hc2 & Ha2 & Hk2).
  exists (evs1 ++ evs2). repeat split.
  - by rewrite Ht2, Ht1, app_assoc.
  - apply requests_carry_app. split; [assumption|]. by rewrite <- Ha1.
  - by rewrite auth_after_app, <- Ha1.
  - intros k Hk. by rewrite Hk2, Hk1.
Qed.

Lemma requests_get_threaded `{Server W} (url : string) (st : session W) :
  credential_threaded st (requests_get url st).2.
Proof.
  unfold requests_get. destruct (http_get (world st) url (headers st)) as [r w].
  exists [EvGet url (headers st) (status_code <$> r)]. simpl. auto.
Qed.

Lemma get_access_token_threaded `{Server W} (st : session W) :
  match (get_access_token st).1 with
  | Some t =>
      credential_threaded st (set_authorization (bearer t) (get_access_token st).2)
  | None => credential_threaded st (get_access_token st).2
  end.
Proof.
  unfold get_access_token. destruct (token_post (world st)) as [[t|] w]; simpl.
  - exists [EvToken (Some t)]. simpl. repeat split; [|auto].
    + apply lookup_insert_eq.
    + intros k Hk. by apply lookup_insert_ne.
  - exists [EvToken None]. simpl. auto.
Qed.

Lemma fetch_page_threaded `{Server W} (endpoint_name url : string) (st : session W) :
  credential_threaded st (fetch_page endpoint_name url st).2.
Proof.
  unfold fetch_page.
  pose proof (requests_get_threaded url st) as H1.
  destruct (requests_get url st) as [[response|] st1]; simpl in H1; [|exact H1].
  case_bool_decide as H401.
  - pose proof (get_access_token_threaded st1) as H2.
    destruct (get_access_token st1) as [[t|] st2]; simpl in H2.
    + pose proof (requests_get_threaded url (set_authorization (bearer t) st2)) as H3.
      destruct (requests_get url (set_authorization (bearer t) st2))
        as [[response'|] st3]; simpl in H3.
      * assert (credential_threaded st st3) as H13
          by eauto using credential_threaded_trans.
        case_bool_decide; [exact H13|]. by destruct (json response').
      * eauto using credential_threaded_trans.
    + eauto using credential_threaded_trans.
  - case_bool_decide; [exact H1|]. by destruct (json response).
Qed.

Lemma fetch_loop_threaded `{Server W} (fuel : nat) (endpoint_name url : string)
    (all_data : list record) (st : session W) :
  credential_threaded st (fetch_loop fuel endpoint_name url all_data st).2.
Proof.
  revert url all_data st. induction fuel as [|fuel IH]; intros url all_data st; simpl.
  - destruct (negb (truthy url)); apply credential_threaded_refl.
  - destruct (negb (truthy url)); [apply credential_threaded_refl|].
    pose proof (fetch_page_threaded endpoint_name url st) as H1.
    destruct (fetch_page endpoint_name url st) as [[page|e] st1]; simpl in H1.
    + eapply credential_threaded_trans; [exact H1 | apply IH].
    + exact H1.
Qed.

Lemma fetch_urls_threaded `{Server W} (fuel : nat) (endpoint : string)
    (urls : list string) (all_data : list record) (st : session W) :
  credential_threaded st (fetch_urls fuel endpoint urls all_data st).2.
Proof.
  revert all_data st. induction urls as [|url rest IH]; intros all_data st; simpl.
  - apply credential_threaded_refl.
  - pose proof (fetch_loop_threaded fuel endpoint url [] st) as H1.
    unfold fetch_data_with_pagination.
    destruct (fetch_loop fuel endpoint url [] st) as [[[data|e]|] st1]; simpl in H1.
    + eapply credential_threaded_trans; [exact H1 | apply IH].
    + exact H1.
    + exact H1.
Qed.

Lemma fetch_endpoints_threaded `{FloatText} `{Server W} (fuel : nat) (base_url : string)
    (configs : list (string * config)) (dataframes : gmap string DataFrame)
    (st : session W) :
  credential_threaded st (fetch_endpoints fuel base_url configs dataframes st).2.
Proof.
  revert dataframes st.
  induction configs as [|[endpoint cfg] rest IH]; intros dataframes st; simpl.
  - apply credential_threaded_refl.
  - destruct (build_request_urls base_url endpoint cfg dataframes) as [urls|e];
      [|apply credential_threaded_refl].
    pose proof (fetch_urls_threaded fuel endpoint urls [] st) as H1.
    destruct (fetch_urls fuel endpoint urls [] st) as [[[all_data|e]|] st1]; simpl in H1.
    + eapply credential_threaded_trans; [exact H1 | apply IH].
    + exact H1.
    + exact H1.
Qed.

Lemma auth_after_no_token (auth : option string) (tr : list event) :
  Forall (λ e, is_token e = false) tr → auth_after auth tr = auth.
Proof.
  induction 1 as [|[u h s|t] tr He _ IH]; simpl; [reflexivity | exact IH | discriminate].
Qed.

(** C10.  Over the whole fetch phase of [main], started in session [st]:
    every request is made under the [Authorization] value in force at
    that moment, which is the bearer of the last token obtained before
    it, or the value [main] started with when no token was obtained yet.
    So once a refresh has returned token [t], every later request, of the
    same descriptor, of a later descriptor or of a later endpoint, carries
    [Bearer t] until the next refresh; the headers left to the caller hold
    the last credential; and one call of the fetcher already leaves the
    renewed credential in the headers of its caller. *)
Theorem renewed_credential_reaches_later_requests `{FloatText} `{Server W}
    (fuel : nat) (base_url : string) (configs : list (string * config))
    (dataframes : gmap string DataFrame) (st : session W) :
  let auth := headers st !! "Authorization" in
  let st' := (fetch_endpoints fuel base_url configs dataframes st).2 in
  ∃ evs, trace st' = trace st ++ evs
    ∧ (∀ pre u h s post, evs = pre ++ EvGet u h s :: post →
         h !! "Authorization" = auth_after auth pre)
    ∧ (∀ pre t mid u h s post,
         evs = pre ++ EvToken (Some t) :: mid ++ EvGet u h s :: post →
         Forall (λ e, is_token e = false) mid →
         h !! "Authorization" = Some (bearer t))
    ∧ headers st' !! "Authorization" = auth_after auth evs
    ∧ (∀ k, k ≠ "Authorization" → headers st' !! k = headers st !! k)
    ∧ (∀ url endpoint_name,
         let st1 := (fetch_data_with_pagination fuel url endpoint_name st).2 in
         ∃ evs1, trace st1 = trace st ++ evs1
           ∧ headers st1 !! "Authorization" = auth_after auth evs1).
Proof.
  intros auth st'.
  destruct (fetch_endpoints_threaded fuel base_url configs dataframes st)
    as (evs & Htr & Hcarry & Hauth & Hother).
  exists evs. split; [exact Htr|]. split; [|split; [|split; [exact Hauth|split; [exact Hother|]]]].
  - intros pre u h s post ->. by eapply requests_carry_at.
  - intros pre t mid u h s post -> Hmid.
    replace (pre ++ EvToken (Some t) :: mid ++ EvGet u h s :: post)
      with ((pre ++ EvToken (Some t) :: mid) ++ EvGet u h s :: post) in Hcarry
      by (by rewrite <- app_assoc).
    rewrite (requests_carry_at _ _ _ _ _ _ Hcarry), auth_after_app. simpl.
    by apply auth_after_no_token.
  - intros url endpoint_name st1.
    destruct (fetch_loop_threaded fuel endpoint_name url [] st)
      as (evs1 & Htr1 & _ & Hauth1 & _).
    exists evs1. split; [exact Htr1 | exact Hauth1].
Qed.

Lemma renewed_credential_reaches_later_requests_witness :
  let st' := (@fetch_endpoints plain_text script scripted 5 "https://api/"
                [("users", users_config)] ∅ (start_session expiring_script)).2 in
  ∃ evs, trace st' = [] ++ evs
    ∧ (∀ pre t mid u h s post,
         evs = pre ++ EvToken (Some t) :: mid ++ EvGet u h s :: post →
         Forall (λ e, is_token e = false) mid →
         h !! "Authorization" = Some (bearer t))
    ∧ headers st' !! "Authorization" = auth_after (Some "Bearer t0") evs.
Proof.
  intros st'.
  destruct (@renewed_credential_reaches_later_requests plain_text script scripted 5
              "https://api/" [("users", users_config)] ∅ (start_session expiring_script))
    as (evs & Htr & _ & Hlater & Hauth & _).
  exists evs. split; [exact Htr|]. split; [exact Hlater | exact Hauth].
Defined.

(** The run against the server whose tokens expire between the pages: the
    third request, for the second page, already carries the first renewed
    token, and the caller is left with the second one. *)
Example expiring_run_headers :
  let st' := (@fetch_endpoints plain_text script scripted 5 "https://api/"
                [("users", users_config)] ∅ (start_session expiring_script)).2 in
  (λ e, match e with
        | EvGet _ h s => (h !! "Authorization", s)
        | EvToken _ => (None, None)
        end) <$> trace st'
  = [ (Some "Bearer t0", Some 401); (None, None); (Some "Bearer t1", Some 200);
      (Some "Bearer t1", Some 401); (None, None); (Some "Bearer t2", Some 200) ]
  ∧ headers st' !! "Authorization" = Some "Bearer t2".
Proof. vm_compute. split; reflexivity. Qed.

(** ** Token refreshes of one descriptor *)

Lemma refreshes_app (tr1 tr2 : list event) :
  refreshes (tr1 ++ tr2) = (refreshes tr1 + refreshes tr2)%nat.
Proof. unfold refreshes. by rewrite filter_app, length_app. Qed.

Lemma page_events_one_refresh (url : string) (h : gmap string string)
    (evs : list event) :
  page_events url h evs → (refreshes evs ≤ 1)%nat.
Proof. destruct 1; vm_compute; lia. Qed.

Lemma refreshes_concat (blocks : list (list event)) :
  Forall (λ evs, refreshes evs ≤ 1)%nat blocks →
  (refreshes (concat blocks) ≤ length blocks)%nat.
Proof.
  induction 1 as [|evs blocks Hevs _ IH]; simpl; [reflexivity|].
  rewrite refreshes_app. lia.
Qed.

Lemma fetch_page_events `{Server W} (endpoint_name url : string) (st : session W) :
  ∃ evs, trace (fetch_page endpoint_name url st).2 = trace st ++ evs
    ∧ page_events url (headers st) evs.
Proof.
  unfold fetch_page, requests_get, get_access_token, set_authorization.
  destruct (http_get (world st) url (headers st)) as [[r1|] w1]; simpl.
  - case_bool_decide as H401.
    + destruct (token_post w1) as [[t|] w2]; simpl.
      * destruct (http_get w2 url (<["Authorization" := bearer t]> (headers st)))
          as [[r2|] w3]; simpl.
        -- exists [EvGet url (headers st) (Some 401); EvToken (Some t);
                   EvGet url (<["Authorization" := bearer t]> (headers st))
                     (Some (status_code r2))].
           split; [|constructor].
           rewrite H401. case_bool_decide; [|destruct (json r2)];
             simpl; by rewrite <- !app_assoc.
        -- exists [EvGet url (headers st) (Some 401); EvToken (Some t);
                   EvGet url (<["Authorization" := bearer t]> (headers st)) None].
           split; [|constructor]. rewrite H401. by rewrite <- !app_assoc.
      * exists [EvGet url (headers st) (Some 401); EvToken None].
        split; [|constructor]. rewrite H401. by rewrite <- !app_assoc.
    + exists [EvGet url (headers st) (Some (status_code r1))].
      split; [|constructor; congruence].
      case_bool_decide; [|destruct (json r1)]; reflexivity.
  - exists [EvGet url (headers st) None]. split; [reflexivity|]. by constructor.
Qed.

Lemma fetch_loop_blocks `{Server W} (fuel : nat) (endpoint_name url : string)
    (all_data : list record) (st : session W) :
  ∃ blocks, trace (fetch_loop fuel endpoint_name url all_data st).2
            = trace st ++ concat blocks
    ∧ Forall (λ evs, ∃ u h, page_events u h evs) blocks
    ∧ (length blocks ≤ fuel)%nat.
Proof.
  revert url all_data st. induction fuel as [|fuel IH]; intros url all_data st; simpl.
  - exists []. rewrite app_nil_r. by destruct (negb (truthy url)).
  - destruct (negb (truthy url)).
    { exists []. rewrite app_nil_r. simpl. repeat split; [constructor | lia]. }
    destruct (fetch_page_events endpoint_name url st) as (evs & Htr & Hevs).
    destruct (fetch_page endpoint_name url st) as [[page|e] st1]; simpl in Htr.
    + destruct (IH (default "" (next_link page)) (all_data ++ value page) st1)
        as (blocks & Htr' & Hblocks & Hlen).
      exists (evs :: blocks). simpl. repeat split.
      * by rewrite Htr', Htr, app_assoc.
      * constructor; eauto.
      * lia.
    + exists [evs]. simpl. rewrite app_nil_r. repeat split; [assumption| |lia].
      repeat constructor. eauto.
Qed.

Lemma second_failure_is_fatal `{Server W} (fuel : nat) (endpoint_name url : string)
    (all_data : list record) (st : session W)
    (r1 r2 : Response) (w1 w2 w3 : W) (t : option string) :
  truthy url = true →
  http_get (world st) url (headers st) = (Some r1, w1) → status_code r1 = 401 →
  token_post w1 = (Some t, w2) →
  http_get w2 url (<["Authorization" := bearer t]> (headers st)) = (Some r2, w3) →
  status_code r2 ≠ 200 →
  fetch_loop (S fuel) endpoint_name url all_data st =
  (Some (Raise (FetchFailed endpoint_name (status_code r2))),
   mkSession (<["Authorization" := bearer t]> (headers st)) w3
     (trace st ++ [EvGet url (headers st) (Some 401); EvToken (Some t);
                   EvGet url (<["Authorization" := bearer t]> (headers st))
                     (Some (status_code r2))])).
Proof.
  intros Hurl H1 H401 Ht H2 Hbad. simpl. rewrite Hurl. simpl.
  unfold fetch_page, requests_get, get_access_token, set_authorization.
  rewrite H1. simpl. rewrite bool_decide_eq_true_2 by assumption.
  rewrite Ht. simpl. rewrite H2. simpl.
  rewrite bool_decide_eq_true_2 by assumption.
  by rewrite H401, <- !app_assoc.
Qed.

(** C1, the claim as stated fails: one descriptor of two pages, served by
    a server that answers the first request of each page with 401, is
    fetched to the end with two token refreshes. *)
Lemma two_refreshes_for_one_descriptor :
  let run := @fetch_data_with_pagination script scripted 5 "https://api/users?"
               "users" (start_session expiring_script) in
  run.1 = Some (Ok [user_1; user_2]) ∧ refreshes (trace run.2) = 2%nat.
Proof. vm_compute. split; reflexivity. Qed.

(** C1, as amended.  The bound on credential renewal is per page request.
    The events of the fetch of one descriptor are a sequence of blocks,
    one per turn of the loop; a block is one request, or a request
    answered 401 followed by one token request and, when the token is
    obtained, by exactly one more request of the same URL under the
    headers that hold the new credential.  So a page sees at most one
    refresh and the refreshes of a descriptor are at most as many as its
    page requests.  When the retried request is answered with a status
    other than 200, 401 included, the loop stops there and raises the
    fetch failure with that status. *)
Theorem one_refresh_per_page_request `{Server W} (fuel : nat)
    (url endpoint_name : string) (st : session W) :
  (∃ blocks,
     trace (fetch_data_with_pagination fuel url endpoint_name st).2
     = trace st ++ concat blocks
     ∧ Forall (λ evs, (∃ u h, page_events u h evs) ∧ (refreshes evs ≤ 1)%nat) blocks
     ∧ (length blocks ≤ fuel)%nat
     ∧ (refreshes (concat blocks) ≤ length blocks)%nat)
  ∧ (∀ (all_data : list record) (r1 r2 : Response) (w1 w2 w3 : W) (t : option string),
       truthy url = true →
       http_get (world st) url (headers st) = (Some r1, w1) → status_code r1 = 401 →
       token_post w1 = (Some t, w2) →
       http_get w2 url (<["Authorization" := bearer t]> (headers st)) = (Some r2, w3) →
       status_code r2 ≠ 200 →
       fetch_loop (S fuel) endpoint_name url all_data st =
       (Some (Raise (FetchFailed endpoint_name (status_code r2))),
        mkSession (<["Authorization" := bearer t]> (headers st)) w3
          (trace st ++ [EvGet url (headers st) (Some 401); EvToken (Some t);
                        EvGet url (<["Authorization" := bearer t]> (headers st))
                          (Some (status_code r2))]))).
Proof.
  split.
  - destruct (fetch_loop_blocks fuel endpoint_name url [] st)
      as (blocks & Htr & Hblocks & Hlen).
    assert (Forall (λ evs, (∃ u h, page_events u h evs) ∧ (refreshes evs ≤ 1)%nat) blocks)
      as Hboth.
    { eapply Forall_impl; [exact Hblocks|]. intros evs (u & h & Hevs).
      split; [eauto | by eapply page_events_one_refresh]. }
    exists blocks. repeat split; [exact Htr | exact Hboth | exact Hlen |].
    apply refreshes_concat. eapply Forall_impl; [exact Hboth|]. by intros evs [_ ?].
  - intros. by eapply second_failure_is_fatal.
Qed.

Lemma one_refresh_per_page_request_witness :
  @fetch_loop script scripted 3 "users" "https://api/users?" []
    (start_session rejecting_script)
  = (Some (Raise (FetchFailed "users" 401)),
     mkSession (<["Authorization" := "Bearer t1"]> (initial_headers (Some "t0")))
       ([], [Some (Some "t2")])
       ([] ++ [EvGet "https://api/users?" (initial_headers (Some "t0")) (Some 401);
               EvToken (Some (Some "t1"));
               EvGet "https://api/users?"
                 (<["Authorization" := "Bearer t1"]> (initial_headers (Some "t0")))
                 (Some 401)])).
Proof.
  apply (proj2 (@one_refresh_per_page_request script scripted 2 "https://api/users?"
                  "users" (start_session rejecting_script)) []
               (mkResponse 401 None) (mkResponse 401 None)
               ([Some (mkResponse 401 None)], [Some (Some "t1"); Some (Some "t2")])
               ([Some (mkResponse 401 None)], [Some (Some "t2")])
               ([], [Some (Some "t2")]) (Some "t1")).
  - reflexivity.
  - reflexivity.
  - reflexivity.
  - reflexivity.
  - reflexivity.
  - discriminate.
Defined.

(** * Further properties of the planner *)

Lemma truthy_false_iff (s : string) : truthy s = false ↔ s = "".
Proof.
  unfold truthy. rewrite negb_false_iff. apply String.eqb_eq.
Qed.

(** X1.  A key filter without a driving column does nothing: when the
    configuration has no [driving_view_col_name] key, or when its
    [key_filter] is the empty text, the planner plans what it plans for
    the same configuration without [key_filter], one unconstrained
    request, and it reads no dataset. *)
Theorem key_filter_needs_driving_column `{FloatText} (base_url endpoint : string)
    (cfg : config) (dataframes : gmap string DataFrame) :
  driving_view_col_name cfg = None ∨ key_filter cfg = Some "" →
  build_request_urls base_url endpoint cfg dataframes
  = build_request_urls base_url endpoint
      (mkConfig (select cfg) (filter_ cfg) None (driving_view_col_name cfg)) ∅
  ∧ build_request_urls base_url endpoint cfg dataframes
    = Ok [simple_url base_url endpoint (select cfg) (default "" (filter_ cfg))].
Proof.
  intros Hcfg. unfold build_request_urls. cbn [select filter_ key_filter driving_view_col_name].
  destruct Hcfg as [Hd|Hk].
  - rewrite Hd. rewrite (bool_decide_eq_false_2 (is_Some None)) by (intros [? ?]; discriminate).
    rewrite andb_false_r. split; reflexivity.
  - rewrite Hk. split; reflexivity.
Qed.

Lemma key_filter_needs_driving_column_witness :
  @build_request_urls plain_text "https://api/" "orders"
    (mkConfig (Some ["order_id"]) (Some "") (Some "user_id") None)
    {["df_users" := users_15]}
  = Ok ["https://api/orders?$select=order_id"].
Proof.
  refine (proj2 (@key_filter_needs_driving_column plain_text "https://api/" "orders"
                   (mkConfig (Some ["order_id"]) (Some "") (Some "user_id") None)
                   {["df_users" := users_15]} _)).
  left. reflexivity.
Defined.

(** X2.  A dependent request cannot be planned without its driver: with
    a key filter and a driving column configured, the planner raises
    [KeyError] on the name [df_users] when the store has no such dataset,
    and on the driving column when [df_users] has no such column.  No URL
    is produced in either case. *)
Theorem planner_missing_driver `{FloatText} (base_url endpoint : string)
    (cfg : config) (dataframes : gmap string DataFrame) (k d : string) :
  key_filter cfg = Some k → truthy k = true →
  driving_view_col_name cfg = Some (Some d) →
  (dataframes !! "df_users" = None →
   build_request_urls base_url endpoint cfg dataframes = Raise (KeyError "df_users"))
  ∧ (∀ users, dataframes !! "df_users" = Some users → d ∉ labels users →
     build_request_urls base_url endpoint cfg dataframes = Raise (KeyError d)).
Proof.
  intros Hk Htruthy Hd.
  assert (build_request_urls base_url endpoint cfg dataframes
          = dependent_urls chunk_size base_url endpoint (select cfg)
              (default "" (filter_ cfg)) k (Some d) dataframes) as ->.
  { unfold build_request_urls. rewrite Hk, Hd.
    change (default "" (Some k)) with k. rewrite Htruthy.
    by rewrite bool_decide_eq_true_2 by eauto. }
  unfold dependent_urls, driving_values. split.
  - intros ->. reflexivity.
  - intros users -> Hno. unfold getitem.
    destruct (assoc d (columns users)) as [c|] eqn:Hc; [|reflexivity].
    exfalso. apply Hno, assoc_is_Some. rewrite Hc. eauto.
Qed.

Lemma planner_missing_driver_witness :
  (@build_request_urls plain_text "https://api/" "orders" orders_config ∅
   = Raise (KeyError "df_users"))
  ∧ (@build_request_urls plain_text "https://api/" "orders" orders_config
       {["df_users" := demo_orders]} = Raise (KeyError "id")).
Proof.
  destruct (@planner_missing_driver plain_text "https://api/" "orders" orders_config
              ∅ "user_id" "id") as [Hnone _]; [reflexivity..|].
  destruct (@planner_missing_driver plain_text "https://api/" "orders" orders_config
              {["df_users" := demo_orders]} "user_id" "id") as [_ Hcol]; [reflexivity..|].
  split.
  - apply Hnone. reflexivity.
  - apply (Hcol demo_orders); [reflexivity|].
    apply (bool_decide_unpack _). vm_compute. exact I.
Defined.

(** X3.  Every dependent request carries between one and [chunk_size]
    driving values: the predicate of each URL is the disjunction of the
    equality tests of at least one and at most ten values, and it is never
    the empty text. *)
Theorem dependent_requests_bounded `{FloatText} (base_url endpoint : string)
    (cfg : config) (dataframes : gmap string DataFrame)
    (users : DataFrame) (col : list pyval) (k d : string) :
  key_filter cfg = Some k → truthy k = true →
  driving_view_col_name cfg = Some (Some d) →
  dataframes !! "df_users" = Some users → getitem users d = Ok col →
  ∃ groups,
    build_request_urls base_url endpoint cfg dataframes
    = Ok ((λ g, dependent_descriptor base_url endpoint (default [] (select cfg))
                  (default "" (filter_ cfg)) (equality_test k <$> g)) <$> groups)
    ∧ Forall (λ g : list string,
                (1 ≤ length (equality_test k <$> g) ≤ chunk_size)%nat
                ∧ str_join " or " (equality_test k <$> g) ≠ "") groups.
Proof.
  intros Hk Htruthy Hd Hu Hc.
  exists (chunks chunk_size (unique [] (py_str <$> dropna col))). split.
  - unfold build_request_urls. rewrite Hk, Hd.
    change (default "" (Some k)) with k. rewrite Htruthy.
    rewrite bool_decide_eq_true_2 by eauto. cbn [andb].
    unfold dependent_urls. rewrite (driving_values_ok _ users d col) by assumption.
    change (Ok ?x ≫= ?f) with (f x). cbv beta. f_equal.
    apply list_fmap_ext. intros _ g _. apply chunk_url_descriptor.
  - unfold chunks, py_range. eapply Forall_impl.
    + apply slices_bounded. unfold chunk_size. lia.
    + intros g Hg. cbn beta in Hg. rewrite length_fmap. split; [lia|].
      apply key_predicate_not_empty. intros ->. cbn in Hg. lia.
Qed.

Lemma dependent_requests_bounded_witness :
  ∃ groups,
    @build_request_urls plain_text "https://api/" "orders" orders_config
      {["df_users" := users_15]}
    = Ok ((λ g, dependent_descriptor "https://api/" "orders"
                  ["order_id"; "user_id"; "total_amount"; "order_date"; "status"] ""
                  (equality_test "user_id" <$> g)) <$> groups)
    ∧ Forall (λ g : list string,
                (1 ≤ length (equality_test "user_id" <$> g) ≤ chunk_size)%nat
                ∧ str_join " or " (equality_test "user_id" <$> g) ≠ "") groups.
Proof.
  apply (@dependent_requests_bounded plain_text "https://api/" "orders" orders_config
           {["df_users" := users_15]} users_15
           ((λ n, VInt (Z.of_nat n)) <$> seq 1 15) "user_id" "id"); reflexivity.
Defined.

Lemma elem_of_dropna (c : list pyval) (v : pyval) :
  v ∈ dropna c ↔ v ∈ c ∧ isna v = false.
Proof. unfold dropna. rewrite list_elem_of_filter. tauto. Qed.

(** X4.  The driving values are the texts of the non-null cells of the
    driving column, each once: a text is a driving value exactly when
    some cell that is not null prints as it, and no text occurs twice.
    Deduplication is on the text, so the integer 1 and the text ["1"]
    are one driving value. *)
Theorem driving_values_are_non_null_texts `{FloatText}
    (dataframes : gmap string DataFrame) (users : DataFrame) (d : string)
    (col : list pyval) :
  dataframes !! "df_users" = Some users → getitem users d = Ok col →
  ∃ id_list, driving_values dataframes (Some d) = Ok id_list
    ∧ NoDup id_list
    ∧ ∀ s, s ∈ id_list ↔ ∃ v, v ∈ col ∧ isna v = false ∧ py_str v = s.
Proof.
  intros Hu Hc. exists (unique [] (py_str <$> dropna col)).
  split; [by apply (driving_values_ok _ users)|].
  destruct (unique_spec [] (py_str <$> dropna col)) as [Hnd Hin].
  split; [exact Hnd|]. intros s. rewrite Hin, list_elem_of_fmap. split.
  - intros [(v & -> & Hv%elem_of_dropna) _]. exists v. tauto.
  - intros (v & Hv & Hna & <-). split; [|apply not_elem_of_nil].
    exists v. split; [reflexivity|]. apply elem_of_dropna. tauto.
Qed.

Lemma driving_values_are_non_null_texts_witness :
  ∃ id_list,
    @driving_values plain_text
      {["df_users" := mkFrame 4 [("id", [VInt 1; VNone; VStr "1"; VInt 2])]]} (Some "id")
    = Ok id_list
    ∧ NoDup id_list
    ∧ ∀ s, s ∈ id_list ↔
        ∃ v, v ∈ [VInt 1; VNone; VStr "1"; VInt 2] ∧ isna v = false
             ∧ @py_str plain_text v = s.
Proof.
  apply (@driving_values_are_non_null_texts plain_text _
           (mkFrame 4 [("id", [VInt 1; VNone; VStr "1"; VInt 2])])); reflexivity.
Defined.

Example driving_values_merge_equal_texts :
  @driving_values plain_text
    {["df_users" := mkFrame 4 [("id", [VInt 1; VNone; VStr "1"; VInt 2])]]} (Some "id")
  = Ok ["1"; "2"].
Proof. reflexivity. Qed.

(** X5.  The plan of an endpoint depends on the store through [df_users]
    only: two stores that agree on [df_users] give the same requests, or
    the same exception, whatever else they hold. *)
Theorem plan_reads_df_users_only `{FloatText} (base_url endpoint : string)
    (cfg : config) (dataframes dataframes' : gmap string DataFrame) :
  dataframes !! "df_users" = dataframes' !! "df_users" →
  build_request_urls base_url endpoint cfg dataframes
  = build_request_urls base_url endpoint cfg dataframes'.
Proof. apply planner_depends_on_df_users_only. Qed.

Lemma plan_reads_df_users_only_witness :
  @build_request_urls plain_text "https://api/" "order_items" order_items_config
    (<["df_orders" := demo_orders]> {["df_users" := demo_orders]})
  = @build_request_urls plain_text "https://api/" "order_items" order_items_config
      {["df_users" := demo_orders]}.
Proof.
  apply (@plan_reads_df_users_only plain_text). reflexivity.
Defined.

(** * Further properties of the fetcher *)

(** X6.  A status other than 200 and 401 is fatal at once: the loop makes
    that one request, asks for no token, leaves the headers as they are
    and raises the fetch failure with the status, whatever was fetched
    before. *)
Theorem other_failure_is_fatal_at_once `{Server W} (fuel : nat)
    (endpoint_name url : string) (all_data : list record) (st : session W)
    (r : Response) (w : W) :
  truthy url = true →
  http_get (world st) url (headers st) = (Some r, w) →
  status_code r ≠ 200 → status_code r ≠ 401 →
  fetch_loop (S fuel) endpoint_name url all_data st =
  (Some (Raise (FetchFailed endpoint_name (status_code r))),
   mkSession (headers st) w (trace st ++ [EvGet url (headers st) (Some (status_code r))])).
Proof.
  intros Hurl Hget H200 H401. simpl. rewrite Hurl. simpl.
  unfold fetch_page, requests_get. rewrite Hget. simpl.
  rewrite bool_decide_eq_false_2 by assumption.
  by rewrite bool_decide_eq_true_2 by assumption.
Qed.

Lemma other_failure_is_fatal_at_once_witness :
  @fetch_loop script scripted 4 "users" "https://api/users?" [user_1]
    (start_session ([Some (mkResponse 500 None)], [Some (Some "t1")]))
  = (Some (Raise (FetchFailed "users" 500)),
     mkSession (initial_headers (Some "t0")) ([], [Some (Some "t1")])
       ([] ++ [EvGet "https://api/users?" (initial_headers (Some "t0")) (Some 500)])).
Proof.
  apply (@other_failure_is_fatal_at_once script scripted 3 "users" "https://api/users?"
           [user_1] (start_session ([Some (mkResponse 500 None)], [Some (Some "t1")]))
           (mkResponse 500 None) ([], [Some (Some "t1")]));
    (reflexivity || discriminate).
Defined.

(** X7.  When the token endpoint fails after a 401, the fetch raises the
    token failure: the URL is not requested again and the headers keep
    the credential they had. *)
Theorem token_failure_is_fatal `{Server W} (fuel : nat)
    (endpoint_name url : string) (all_data : list record) (st : session W)
    (r : Response) (w1 w2 : W) :
  truthy url = true →
  http_get (world st) url (headers st) = (Some r, w1) → status_code r = 401 →
  token_post w1 = (None, w2) →
  fetch_loop (S fuel) endpoint_name url all_data st =
  (Some (Raise TokenError),
   mkSession (headers st) w2
     (trace st ++ [EvGet url (headers st) (Some 401); EvToken None])).
Proof.
  intros Hurl Hget H401 Htok. simpl. rewrite Hurl. simpl.
  unfold fetch_page, requests_get, get_access_token. rewrite Hget. simpl.
  rewrite bool_decide_eq_true_2 by assumption. rewrite Htok. simpl.
  by rewrite H401, <- app_assoc.
Qed.

Lemma token_failure_is_fatal_witness :
  @fetch_loop script scripted 4 "users" "https://api/users?" []
    (start_session ([Some (mkResponse 401 None); Some (mkResponse 200 None)], [None]))
  = (Some (Raise TokenError),
     mkSession (initial_headers (Some "t0")) ([Some (mkResponse 200 None)], [])
       ([] ++ [EvGet "https://api/users?" (initial_headers (Some "t0")) (Some 401);
               EvToken None])).
Proof.
  apply (@token_failure_is_fatal script scripted 3 "users" "https://api/users?" []
           (start_session ([Some (mkResponse 401 None); Some (mkResponse 200 None)], [None]))
           (mkResponse 401 None) ([Some (mkResponse 200 None)], [None])
           ([Some (mkResponse 200 None)], [])); reflexivity.
Defined.

Lemma page_events_token (url : string) (h : gmap string string) (evs : list event) :
  page_events url h evs → Forall (λ e, is_unauthorized e = false) evs →
  Forall (λ e, is_token e = false) evs.
Proof.
  destruct 1 as [s Hs| |t s]; intros Hno.
  - repeat constructor.
  - apply Forall_cons in Hno as [Hbad _]. discriminate.
  - apply Forall_cons in Hno as [Hbad _]. discriminate.
Qed.

Lemma Forall_concat_blocks {A : Type} (P : A → Prop) (blocks : list (list A)) :
  Forall P (concat blocks) ↔ Forall (Forall P) blocks.
Proof.
  induction blocks as [|b blocks IH]; simpl.
  - split; constructor.
  - rewrite Forall_app, Forall_cons, IH. tauto.
Qed.

Lemma refreshes_no_token (tr : list event) :
  Forall (λ e, is_token e = false) tr → refreshes tr = 0%nat.
Proof.
  unfold refreshes. induction 1 as [|e tr He _ IH]; [reflexivity|].
  rewrite filter_cons_False by congruence. exact IH.
Qed.

Lemma blocks_no_token (blocks : list (list event)) :
  Forall (λ evs, ∃ u h, page_events u h evs) blocks →
  Forall (Forall (λ e, is_unauthorized e = false)) blocks →
  Forall (Forall (λ e, is_token e = false)) blocks.
Proof.
  induction 1 as [|b blocks (u & h & Hev) _ IH]; intros Hno; [constructor|].
  apply Forall_cons in Hno as [Hb1 Hrest]. constructor; [|by apply IH].
  by eapply page_events_token.
Qed.

(** X8.  The fetcher asks for a token only in answer to a 401: in a fetch
    whose requests are never answered 401, no token is requested and the
    caller's headers come back unchanged. *)
Theorem no_refresh_without_401 `{Server W} (fuel : nat) (url endpoint_name : string)
    (st : session W) (evs : list event) :
  trace (fetch_data_with_pagination fuel url endpoint_name st).2 = trace st ++ evs →
  Forall (λ e, is_unauthorized e = false) evs →
  refreshes evs = 0%nat
  ∧ headers (fetch_data_with_pagination fuel url endpoint_name st).2 = headers st.
Proof.
  intros Htr Hno. unfold fetch_data_with_pagination in *.
  destruct (fetch_loop_blocks fuel endpoint_name url [] st) as (blocks & Hb & Hblocks & _).
  assert (evs = concat blocks) as -> by (apply (app_inv_head (trace st)); congruence).
  assert (Forall (λ e, is_token e = false) (concat blocks)) as Htok.
  { apply Forall_concat_blocks. apply Forall_concat_blocks in Hno.
    by apply blocks_no_token. }
  split; [by apply refreshes_no_token|].
  destruct (fetch_loop_threaded fuel endpoint_name url [] st)
    as (evs' & Htr' & _ & Hauth & Hother).
  assert (evs' = concat blocks) as -> by (apply (app_inv_head (trace st)); congruence).
  rewrite auth_after_no_token in Hauth by assumption.
  apply map_eq. intros k. destruct (decide (k = "Authorization")) as [->|Hk].
  - exact Hauth.
  - by apply Hother.
Qed.

Lemma no_refresh_without_401_witness :
  refreshes
    [EvGet "https://api/users?" (initial_headers (Some "t0")) (Some 200);
     EvGet "https://api/users?page=2" (initial_headers (Some "t0")) (Some 500)] = 0%nat
  ∧ headers (@fetch_data_with_pagination script scripted 5 "https://api/users?" "users"
       (start_session
          ([Some (mkResponse 200 (Some (mkPage [user_1] (Some "https://api/users?page=2"))));
            Some (mkResponse 500 None)], []))).2
    = headers (start_session
          ([Some (mkResponse 200 (Some (mkPage [user_1] (Some "https://api/users?page=2"))));
            Some (mkResponse 500 None)], [])).
Proof.
  apply (@no_refresh_without_401 script scripted 5 "https://api/users?" "users").
  - reflexivity.
  - repeat constructor.
Defined.

Lemma serve_cons (p : Page) (ps : list Page) :
  serve (p :: ps) = Some (mkResponse 200 (Some p)) :: serve ps.
Proof. reflexivity. Qed.

Lemma fetch_page_served (endpoint_name url : string) (p : Page)
    (h : gmap string string) (rest : list (option Response))
    (tokens : list (option (option string))) (tr : list event) :
  @fetch_page script scripted endpoint_name url
    (mkSession h (Some (mkResponse 200 (Some p)) :: rest, tokens) tr)
  = (Ok p, mkSession h (rest, tokens) (tr ++ [EvGet url h (Some 200)])).
Proof. reflexivity. Qed.

Lemma fetch_loop_cons `{Server W} (fuel : nat) (endpoint_name url : string)
    (all_data : list record) (st : session W) :
  truthy url = true →
  fetch_loop (S fuel) endpoint_name url all_data st =
  (let '(r, st) := fetch_page endpoint_name url st in
   match r with
   | Raise e => (Some (Raise e), st)
   | Ok page =>
       fetch_loop fuel endpoint_name (default "" (next_link page))
         (all_data ++ value page) st
   end).
Proof. intros Hurl. cbn [fetch_loop]. by rewrite Hurl. Qed.

Lemma fetch_loop_done `{Server W} (fuel : nat) (endpoint_name url : string)
    (all_data : list record) (st : session W) :
  truthy url = false →
  fetch_loop fuel endpoint_name url all_data st = (Some (Ok all_data), st).
Proof. intros Hurl. destruct fuel; cbn [fetch_loop]; by rewrite Hurl. Qed.

Lemma fetch_loop_serves (fuel : nat) (endpoint_name : string) (pages : list Page) :
  ∀ (url : string) (all_data : list record) (h : gmap string string)
    (rest : list (option Response)) (tokens : list (option (option string)))
    (tr : list event),
  well_linked pages → truthy url = true → (length pages ≤ fuel)%nat →
  @fetch_loop script scripted fuel endpoint_name url all_data
    (mkSession h (serve pages ++ rest, tokens) tr)
  = (Some (Ok (all_data ++ concat (value <$> pages))),
     mkSession h (rest, tokens)
       (tr ++ ((λ u, EvGet u h (Some 200)) <$> page_urls url pages))).
Proof.
  revert fuel. induction pages as [|p ps IH]; intros fuel url all_data h rest tokens tr
    Hlinked Hurl Hfuel; [destruct Hlinked|].
  destruct fuel as [|fuel]; [simpl in Hfuel; lia|].
  rewrite fetch_loop_cons by assumption.
  rewrite serve_cons, <- app_comm_cons, fetch_page_served.
  destruct ps as [|p' ps'].
  - simpl in Hlinked. rewrite fetch_loop_done by assumption.
    cbn [fmap list_fmap concat page_urls]. by rewrite app_nil_r.
  - destruct Hlinked as [Hnext Hlinked].
    rewrite (IH fuel (default "" (next_link p)) (all_data ++ value p) h rest tokens)
      by (assumption || (cbn [length] in *; lia)).
    cbn [fmap list_fmap concat page_urls]. by rewrite <- !app_assoc.
Qed.

(** X9.  Pagination runs to the last page.  Against a server that answers
    the pages of a chain one after the other with status 200, the fetch
    of the start URL requests the start URL and then the continuation of
    each page, one request per page and no token request, returns the
    records of all pages in page order, and stops at the first page that
    names no continuation; a bound of as many turns as there are pages is
    enough. *)
Theorem pagination_collects_every_page (fuel : nat) (url endpoint_name : string)
    (pages : list Page) (h : gmap string string)
    (rest : list (option Response)) (tokens : list (option (option string)))
    (tr : list event) :
  well_linked pages → truthy url = true → (length pages ≤ fuel)%nat →
  @fetch_data_with_pagination script scripted fuel url endpoint_name
    (mkSession h (serve pages ++ rest, tokens) tr)
  = (Some (Ok (concat (value <$> pages))),
     mkSession h (rest, tokens)
       (tr ++ ((λ u, EvGet u h (Some 200)) <$> page_urls url pages))).
Proof.
  intros Hlinked Hurl Hfuel. unfold fetch_data_with_pagination.
  by rewrite (fetch_loop_serves fuel endpoint_name pages url []).
Qed.

Lemma pagination_collects_every_page_witness :
  @fetch_data_with_pagination script scripted 3 "https://api/users?" "users"
    (mkSession (initial_headers (Some "t0"))
       (serve three_pages ++ [Some (mkResponse 500 None)], []) [])
  = (Some (Ok [user_1; user_2]),
     mkSession (initial_headers (Some "t0")) ([Some (mkResponse 500 None)], [])
       ([] ++ ((λ u, EvGet u (initial_headers (Some "t0")) (Some 200))
                 <$> ["https://api/users?"; "https://api/users?page=2";
                      "https://api/users?page=3"]))).
Proof.
  apply (pagination_collects_every_page 3 "https://api/users?" "users" three_pages).
  - repeat split.
  - reflexivity.
  - simpl. lia.
Defined.

(** * Further properties of the transformation engine *)

Lemma setitem_setitem (df : DataFrame) (column : string) (a b : list pyval) :
  setitem (setitem df column a) column b = setitem df column b.
Proof.
  apply frame_eq; [reflexivity|]. unfold setitem. simpl.
  rewrite <- list_fmap_compose. apply list_fmap_ext. intros _ [l c] _. simpl.
  destruct (decide (l = column)) as [->|Hne]; simpl.
  - by rewrite decide_True.
  - by rewrite decide_False.
Qed.

Lemma getitem_setitem_ne (df : DataFrame) (column other : string) (values : list pyval) :
  other ≠ column → getitem (setitem df column values) other = getitem df other.
Proof.
  intros Hne. unfold getitem, setitem. simpl.
  induction (columns df) as [|[l c] cs IH]; [reflexivity|].
  rewrite fmap_cons. simpl. destruct (decide (l = column)) as [->|Hl]; simpl.
  - rewrite !decide_False by assumption. exact IH.
  - destruct (decide (other = l)); [reflexivity | exact IH].
Qed.

Lemma getitem_elem_of (df : DataFrame) (column : string) (c : list pyval) :
  getitem df column = Ok c → (column, c) ∈ columns df.
Proof.
  unfold getitem. destruct (assoc column (columns df)) as [c'|] eqn:Hc; [|discriminate].
  intros [= <-]. by apply assoc_elem_of.
Qed.

Lemma rectangular_setitem (df : DataFrame) (column : string) (values : list pyval) :
  rectangular df → length values = nrows df → rectangular (setitem df column values).
Proof.
  unfold rectangular, setitem. simpl. intros Hrect Hlen.
  apply Forall_fmap. eapply Forall_impl; [exact Hrect|].
  intros [l c] Hc. simpl in *. by case_decide.
Qed.

Lemma empty_text_not_marker : "" ∉ null_markers.
Proof. apply (bool_decide_unpack _). vm_compute. exact I. Qed.

Lemma normalize_key_text `{FloatText} (v : pyval) :
  normalize_key (VStr (normalize_key v)) = normalize_key v
  ∧ normalize_key v ∉ null_markers.
Proof.
  unfold normalize_key. cbn [py_str].
  destruct (decide (py_str v ∈ null_markers)) as [Hm|Hm].
  - rewrite (bool_decide_eq_true_2 _ Hm).
    rewrite bool_decide_eq_false_2 by apply empty_text_not_marker.
    split; [reflexivity | apply empty_text_not_marker].
  - rewrite !(bool_decide_eq_false_2 _ Hm). by split.
Qed.

(** X10.  Cleaning a join key is idempotent and leaves texts only: after
    [clean_join_key] every cell of the key column is a text that is none
    of the null markers, the labels and the other columns are as before,
    and cleaning the result again changes nothing. *)
Theorem clean_join_key_idempotent `{FloatText} (df : DataFrame) (key_column : string)
    (c : list pyval) :
  getitem df key_column = Ok c →
  ∃ df1 c1, clean_join_key df key_column = Ok df1
    ∧ getitem df1 key_column = Ok c1
    ∧ length c1 = length c
    ∧ Forall (λ v, ∃ s, v = VStr s ∧ s ∉ null_markers) c1
    ∧ labels df1 = labels df
    ∧ (∀ other, other ≠ key_column → getitem df1 other = getitem df other)
    ∧ clean_join_key df1 key_column = Ok df1.
Proof.
  intros Hc. pose proof (getitem_has_column _ _ _ Hc) as Hhas.
  eexists _, _. split; [by apply clean_join_key_eq|].
  split; [by apply getitem_setitem|].
  split; [by rewrite !length_fmap|]. split; [|split; [apply labels_setitem|split]].
  - rewrite <- list_fmap_compose. apply Forall_fmap, Forall_true. intros v.
    exists (normalize_key v). split; [reflexivity | apply normalize_key_text].
  - intros other Hne. by apply getitem_setitem_ne.
  - rewrite (clean_join_key_eq _ key_column (VStr <$> (normalize_key <$> c)))
      by by apply getitem_setitem.
    rewrite setitem_setitem. do 2 f_equal.
    rewrite <- !list_fmap_compose. apply list_fmap_ext. intros _ v _. simpl.
    f_equal. apply normalize_key_text.
Qed.

Lemma clean_join_key_idempotent_witness :
  ∃ df1 c1, @clean_join_key plain_text join_left "k" = Ok df1
    ∧ getitem df1 "k" = Ok c1
    ∧ length c1 = length [VStr "1"; VNone; VStr "3"]
    ∧ Forall (λ v, ∃ s, v = VStr s ∧ s ∉ null_markers) c1
    ∧ labels df1 = labels join_left
    ∧ (∀ other, other ≠ "k" → getitem df1 other = getitem join_left other)
    ∧ @clean_join_key plain_text df1 "k" = Ok df1.
Proof.
  apply (@clean_join_key_idempotent plain_text join_left "k"). reflexivity.
Defined.

Lemma mapM_length {A B : Type} (f : A → result B) (l : list A) (l' : list B) :
  mapM f l = Ok l' → length l' = length l.
Proof.
  revert l'. induction l as [|a l IH]; intros l' Hm.
  - by injection Hm as <-.
  - change (mapM f (a :: l)) with (y ← f a; ys ← mapM f l; Ok (y :: ys)) in Hm.
    destruct (f a) as [b|e]; [|discriminate].
    destruct (mapM f l) as [bs|e]; [|discriminate].
    cbn in Hm. injection Hm as <-. simpl. f_equal. by apply IH.
Qed.

Lemma mapM_Forall {A B : Type} (f : A → result B) (P : B → Prop)
    (l : list A) (l' : list B) :
  (∀ a b, f a = Ok b → P b) → mapM f l = Ok l' → Forall P l'.
Proof.
  intros Hf. revert l'. induction l as [|a l IH]; intros l' Hm.
  - injection Hm as <-. constructor.
  - change (mapM f (a :: l)) with (y ← f a; ys ← mapM f l; Ok (y :: ys)) in Hm.
    destruct (f a) as [b|e] eqn:Hfa; [|discriminate].
    destruct (mapM f l) as [bs|e]; [|discriminate].
    cbn in Hm. injection Hm as <-. constructor; [by eapply Hf | by apply IH].
Qed.

Lemma to_numeric_length `{FloatText} (c : list pyval) : length (to_numeric c) = length c.
Proof.
  unfold to_numeric. destruct (forallb is_bool_cell c); [reflexivity|].
  destruct (forallb is_int_number (numeric_cell <$> c)); by rewrite !length_fmap.
Qed.

(** The shapes a successful cast can have. *)
Lemma safe_cast_column_cases `{FloatText} (df out : DataFrame) (column dtype : string) :
  safe_cast_column df column dtype = Ok out →
  (has_column df column = false ∧ out = df)
  ∨ ∃ c values, getitem df column = Ok c ∧ has_column df column = true
      ∧ out = setitem df column values ∧ length values = length c.
Proof.
  unfold safe_cast_column. destruct (has_column df column) eqn:Hhas; cbn [negb].
  - intros Hcast. right.
    destruct (has_column_getitem df column Hhas) as (c & Hc & _). rewrite Hc in Hcast.
    change (Ok c ≫= ?k) with (k c) in Hcast. cbv beta in Hcast.
    exists c. repeat case_bool_decide.
    + injection Hcast as <-. eexists. split; [exact Hc|]. split; [reflexivity|].
      split; [reflexivity|].
      unfold fillna, astype_str. by rewrite !length_fmap.
    + destruct (astype_int (fillna (VInt (-1)) (to_numeric c))) as [ints|e] eqn:Hints;
        [|discriminate].
      injection Hcast as <-. exists ints. split; [exact Hc|].
      split; [reflexivity|]. split; [reflexivity|].
      apply mapM_length in Hints. rewrite Hints. unfold fillna.
      by rewrite length_fmap, to_numeric_length.
    + injection Hcast as <-. eexists. split; [exact Hc|]. split; [reflexivity|].
      split; [reflexivity|].
      unfold fillna. by rewrite length_fmap, to_numeric_length.
    + injection Hcast as <-. eexists. split; [exact Hc|]. split; [reflexivity|].
      split; [reflexivity|].
      unfold astype_str. by rewrite length_fmap.
  - intros [= <-]. by left.
Qed.

(** X11.  A cast touches one column and nothing else: when it returns,
    the labels and their order, the row count and every other column are
    those of the input, the cast column has as many cells as before, and
    a table with one cell per row and column stays so. *)
Theorem cast_changes_one_column `{FloatText} (df out : DataFrame)
    (column dtype : string) :
  safe_cast_column df column dtype = Ok out →
  labels out = labels df
  ∧ nrows out = nrows df
  ∧ (∀ other, other ≠ column → getitem out other = getitem df other)
  ∧ (∀ c c', getitem df column = Ok c → getitem out column = Ok c' →
       length c' = length c)
  ∧ (rectangular df → rectangular out).
Proof.
  intros Hcast.
  destruct (safe_cast_column_cases df out column dtype Hcast)
    as [[_ ->]|(c & values & Hc & Hhas & -> & Hlen)].
  - repeat split; try done. intros c c' Hc Hc'. congruence.
  - split; [apply labels_setitem|]. split; [reflexivity|]. split; [|split].
    + intros other Hne. by apply getitem_setitem_ne.
    + intros c0 c' Hc0 Hc'. rewrite getitem_setitem in Hc' by assumption. congruence.
    + intros Hrect. apply rectangular_setitem; [assumption|]. rewrite Hlen.
      apply getitem_elem_of in Hc. unfold rectangular in Hrect.
      rewrite Forall_forall in Hrect. exact (Hrect _ Hc).
Qed.

Lemma cast_changes_one_column_witness :
  labels (mkFrame 3 [("c", [VInt 7; VInt (-1); VInt (-1)])]) = labels demo_cast_table
  ∧ nrows (mkFrame 3 [("c", [VInt 7; VInt (-1); VInt (-1)])]) = nrows demo_cast_table
  ∧ (∀ other, other ≠ "c" →
       getitem (mkFrame 3 [("c", [VInt 7; VInt (-1); VInt (-1)])]) other
       = getitem demo_cast_table other)
  ∧ (∀ c c', getitem demo_cast_table "c" = Ok c →
       getitem (mkFrame 3 [("c", [VInt 7; VInt (-1); VInt (-1)])]) "c" = Ok c' →
       length c' = length c)
  ∧ (rectangular demo_cast_table →
     rectangular (mkFrame 3 [("c", [VInt 7; VInt (-1); VInt (-1)])])).
Proof.
  apply (@cast_changes_one_column plain_text demo_cast_table _ "c" "int64").
  reflexivity.
Defined.

Lemma char_lower_idempotent (c : Ascii.ascii) : char_lower (char_lower c) = char_lower c.
Proof. destruct c as [[] [] [] [] [] [] [] []]; vm_compute; reflexivity. Qed.

Lemma str_lower_idempotent (s : string) : str_lower (str_lower s) = str_lower s.
Proof.
  induction s as [|c s IH]; [reflexivity|].
  cbn [str_lower]. by rewrite char_lower_idempotent, IH.
Qed.

(** X12.  The name of the target type is read without regard to case,
    [int] and [float] are other names of [int64] and [float64], and any
    name that is none of the five known ones casts to text: an unknown
    type name is not an error, and the column comes back with the text of
    every cell that is not null.  A null comes back as [astype(str)]
    leaves it, which depends on the version of pandas: as its text, or
    still missing. *)
Theorem cast_dtype_names `{FloatText} (df : DataFrame) (column dtype : string)
    (c : list pyval) :
  getitem df column = Ok c →
  safe_cast_column df column dtype = safe_cast_column df column (str_lower dtype)
  ∧ safe_cast_column df column "int" = safe_cast_column df column "int64"
  ∧ safe_cast_column df column "float" = safe_cast_column df column "float64"
  ∧ (str_lower dtype ∉ known_dtypes →
     ∃ out c', safe_cast_column df column dtype = Ok out
       ∧ getitem out column = Ok c'
       ∧ length c' = length c
       ∧ (∀ i v, c !! i = Some v → isna v = false → c' !! i = Some (VStr (py_str v)))
       ∧ (∀ i v, c !! i = Some v → isna v = true →
            c' !! i = Some (if astype_str_keeps_na then VFloat FNaN
                            else VStr (py_str v)))).
Proof.
  intros Hc. pose proof (getitem_has_column _ _ _ Hc) as Hhas.
  split; [|split; [|split]].
  - unfold safe_cast_column. by rewrite str_lower_idempotent.
  - unfold safe_cast_column. rewrite Hhas, Hc. reflexivity.
  - unfold safe_cast_column. rewrite Hhas, Hc. reflexivity.
  - intros Hunknown. exists (setitem df column (astype_str c)), (astype_str c).
    split; [|split; [by apply getitem_setitem|split; [|split]]].
    + unfold safe_cast_column. rewrite Hhas, Hc. cbn [negb].
      change (Ok c ≫= ?k) with (k c). cbv beta.
      unfold known_dtypes in Hunknown. rewrite !not_elem_of_cons in Hunknown.
      destruct Hunknown as (H1 & H2 & H3 & H4 & H5 & _).
      rewrite !bool_decide_eq_false_2; [reflexivity|..].
      * rewrite !not_elem_of_cons. auto using not_elem_of_nil.
      * rewrite !not_elem_of_cons. auto using not_elem_of_nil.
      * exact H1.
    + unfold astype_str. by rewrite length_fmap.
    + intros i v Hv Hna. unfold astype_str. rewrite list_lookup_fmap, Hv. cbn.
      by rewrite Hna, andb_false_r.
    + intros i v Hv Hna. unfold astype_str. rewrite list_lookup_fmap, Hv. cbn.
      by rewrite Hna, andb_true_r.
Qed.

Lemma cast_dtype_names_witness :
  @safe_cast_column plain_text demo_table "id" "DateTime"
  = @safe_cast_column plain_text demo_table "id" (str_lower "DateTime")
  ∧ ∃ out c', @safe_cast_column plain_text demo_table "id" "DateTime" = Ok out
      ∧ getitem out "id" = Ok c'
      ∧ c' !! 0%nat = Some (VStr "1")
      ∧ c' !! 1%nat = Some (VStr "2").
Proof.
  destruct (@cast_dtype_names plain_text demo_table "id" "DateTime"
              [VInt 1; VInt 2]) as (Hcase & _ & _ & Hunknown).
  - reflexivity.
  - split; [exact Hcase|].
    destruct Hunknown as (out & c' & Hout & Hc' & _ & Htext & _).
    { apply (bool_decide_unpack _). vm_compute. exact I. }
    exists out, c'. split; [exact Hout|]. split; [exact Hc'|]. split.
    + apply (Htext 0%nat (VInt 1)); reflexivity.
    + apply (Htext 1%nat (VInt 2)); reflexivity.
Defined.

Example cast_unknown_dtype_is_text :
  @safe_cast_column plain_text (mkFrame 2 [("d", [VInt 1; VNone])]) "d" "datetime64"
  = Ok (mkFrame 2 [("d", [VStr "1"; VStr "None"])])
  ∧ @safe_cast_column pandas3_text (mkFrame 2 [("d", [VInt 1; VNone])]) "d" "datetime64"
    = Ok (mkFrame 2 [("d", [VStr "1"; VFloat FNaN])]).
Proof. split; reflexivity. Qed.

Lemma int_cell_int `{FloatText} (v y : pyval) : int_cell v = Ok y → ∃ z, y = VInt z.
Proof.
  destruct v as [| |b|z|[| |q]|s]; simpl; try discriminate.
  - intros [= <-]. eauto.
  - case_bool_decide; intros [= <-]; eauto.
  - case_bool_decide; intros [= <-]; eauto.
  - destruct (parse_number s) as [[z|x]|]; try discriminate. intros [= <-]. eauto.
Qed.

Lemma forallb_Forall_true {A : Type} (p : A → bool) (l : list A) :
  forallb p l = true → Forall (λ x, p x = true) l.
Proof.
  induction l as [|a l IH]; simpl; [constructor|].
  intros [Ha Hl]%andb_true_iff. constructor; auto.
Qed.

Lemma to_numeric_numbers `{FloatText} (c : list pyval) :
  Forall (λ v, is_number_cell v = true ∨ v = VFloat FNaN) (to_numeric c).
Proof.
  unfold to_numeric. destruct (forallb is_bool_cell c) eqn:Hbool.
  - eapply Forall_impl; [by apply forallb_Forall_true|].
    intros [] Hv; try discriminate. by left.
  - destruct (forallb is_int_number (numeric_cell <$> c)); apply Forall_fmap, Forall_true.
    + intros [[z|x]|]; simpl; auto.
    + intros [[z|[| |q]]|]; simpl; auto.
      pose proof (float_of_int_number z). destruct (float_of_int z); auto.
Qed.

(** X13.  What a numeric cast leaves in the column.  When the cast to
    [int64] returns, every cell of the column is an integer.  The cast to
    [float64] always returns, and then every cell is a number: no null and
    no text is left. *)
Theorem numeric_cast_cells `{FloatText} (df : DataFrame) (column : string)
    (c : list pyval) :
  getitem df column = Ok c →
  (∀ out c', safe_cast_column df column "int64" = Ok out →
     getitem out column = Ok c' → Forall (λ v, ∃ z, v = VInt z) c')
  ∧ (∃ out c', safe_cast_column df column "float64" = Ok out
       ∧ getitem out column = Ok c'
       ∧ Forall (λ v, is_number_cell v = true) c').
Proof.
  intros Hc. pose proof (getitem_has_column _ _ _ Hc) as Hhas. split.
  - intros out c' Hcast Hc'.
    rewrite (safe_cast_int64_eq df column c) in Hcast by assumption.
    destruct (astype_int (fillna (VInt (-1)) (to_numeric c))) as [ints|e] eqn:Hints;
      [|discriminate].
    injection Hcast as <-. rewrite getitem_setitem in Hc' by assumption.
    injection Hc' as <-. eapply mapM_Forall; [|exact Hints].
    intros a b. apply int_cell_int.
  - rewrite (safe_cast_float64_eq df column c) by assumption.
    eexists _, _. split; [reflexivity|]. split; [by apply getitem_setitem|].
    unfold fillna. apply Forall_fmap. eapply Forall_impl; [apply to_numeric_numbers|].
    intros v [Hv| ->]; simpl; [|reflexivity].
    destruct (isna v) eqn:Hna; [reflexivity | exact Hv].
Qed.

Lemma numeric_cast_cells_witness :
  (∀ out c', @safe_cast_column plain_text demo_cast_table "c" "int64" = Ok out →
     getitem out "c" = Ok c' → Forall (λ v, ∃ z, v = VInt z) c')
  ∧ (∃ out c', @safe_cast_column plain_text demo_cast_table "c" "float64" = Ok out
       ∧ getitem out "c" = Ok c'
       ∧ Forall (λ v, is_number_cell v = true) c').
Proof.
  apply (@numeric_cast_cells plain_text demo_cast_table "c"
           [VStr "7"; VStr "abc"; VNone]). reflexivity.
Defined.

Lemma text_cell_idempotent `{FloatText} (v : pyval) :
  text_cell (text_cell v) = text_cell v.
Proof.
  unfold text_cell. destruct (astype_str_keeps_na && isna v); cbn;
    by rewrite andb_false_r.
Qed.

(** X14.  Casting to text twice is casting once: the text cast of a
    column of texts changes nothing. *)
Theorem cast_string_idempotent `{FloatText} (df out : DataFrame) (column : string) :
  safe_cast_column df column "string" = Ok out →
  safe_cast_column out column "string" = Ok out.
Proof.
  intros Hcast. destruct (has_column df column) eqn:Hhas.
  - destruct (has_column_getitem df column Hhas) as (c & Hc & _).
    rewrite (cast_string_is_text df column c) in Hcast by assumption.
    injection Hcast as <-.
    rewrite (cast_string_is_text _ column (text_cell <$> c)).
    + rewrite setitem_setitem. do 2 f_equal. rewrite <- list_fmap_compose.
      apply list_fmap_ext. intros _ v _. apply text_cell_idempotent.
    + unfold has_column. by rewrite labels_setitem.
    + by apply getitem_setitem.
  - rewrite cast_missing_column in Hcast by assumption. injection Hcast as <-.
    by apply cast_missing_column.
Qed.

Lemma cast_string_idempotent_witness :
  @safe_cast_column plain_text
    (mkFrame 3 [("c", [VStr "7"; VStr "abc"; VStr "None"])]) "c" "string"
  = Ok (mkFrame 3 [("c", [VStr "7"; VStr "abc"; VStr "None"])]).
Proof.
  apply (@cast_string_idempotent plain_text demo_cast_table). reflexivity.
Defined.

(** X15.  Operation lists compose: running a list made of two parts is
    running the first part and then, on its result, the second; when the
    first part raises, the second is not run. *)
Theorem operations_compose `{FloatText} (df : DataFrame)
    (ops1 ops2 : list operation) (dataframes : gmap string DataFrame) :
  apply_transformations df (ops1 ++ ops2) dataframes =
  match apply_transformations df ops1 dataframes with
  | Ok result_df => apply_transformations result_df ops2 dataframes
  | Raise e => Raise e
  end.
Proof. apply apply_transformations_app. Qed.

(** X16.  The first operation that fails ends the run: when the
    operations before it succeed and it raises, the whole list raises the
    same exception, whatever comes after it. *)
Theorem failing_operation_aborts `{FloatText} (df df' : DataFrame)
    (before after : list operation) (op : operation) (e : exn)
    (dataframes : gmap string DataFrame) :
  apply_transformations df before dataframes = Ok df' →
  apply_transformations df' [op] dataframes = Raise e →
  apply_transformations df (before ++ op :: after) dataframes = Raise e.
Proof.
  intros Hbefore Hop. rewrite apply_transformations_app, Hbefore.
  cbv beta iota delta [mbind result_bind].
  rewrite apply_transformations_cons. rewrite apply_transformations_cons in Hop.
  destruct (apply_operation dataframes df' op) as [df''|e']; [discriminate|].
  exact Hop.
Qed.

Lemma failing_operation_aborts_witness :
  @apply_transformations plain_text demo_table
    ([["RENAME"; "id"; "user_id"]] ++ ["JOIN"; "df_orders"; "user_id"; "user_id"]
       :: [["CAST"; "name"; "string"]]) ∅
  = Raise (KeyError "df_orders").
Proof.
  apply (@failing_operation_aborts plain_text demo_table
           (mkFrame 2 [("user_id", [VInt 1; VInt 2]); ("name", [VStr "ann"; VStr "bob"])]));
    reflexivity.
Defined.

(** X17.  What a malformed operation raises.  An empty tuple raises
    [IndexError]; a [RENAME] or a [CAST] that does not have exactly two
    arguments, and a [JOIN] that does not have exactly three, raise
    [ValueError]; a [JOIN] that names a table that is not in the store
    raises [KeyError] on that name. *)
Theorem malformed_operation_errors `{FloatText} (df : DataFrame)
    (rest : list operation) (tag table left_key right_key : string)
    (args : list string) (dataframes : gmap string DataFrame) :
  apply_transformations df ([] :: rest) dataframes = Raise IndexError
  ∧ (tag = "RENAME" ∨ tag = "CAST" → length args ≠ 2%nat →
     apply_transformations df ((tag :: args) :: rest) dataframes
     = Raise (ValueError "unpack"))
  ∧ (length args ≠ 3%nat →
     apply_transformations df (("JOIN" :: args) :: rest) dataframes
     = Raise (ValueError "unpack"))
  ∧ (dataframes !! table = None →
     apply_transformations df (["JOIN"; table; left_key; right_key] :: rest) dataframes
     = Raise (KeyError table)).
Proof.
  split; [reflexivity|]. split; [|split].
  - intros Htag Hlen. rewrite apply_transformations_cons.
    destruct Htag as [-> | ->];
      destruct args as [|a1 [|a2 [|a3 args]]]; simpl in Hlen; try lia; reflexivity.
  - intros Hlen. rewrite apply_transformations_cons.
    destruct args as [|a1 [|a2 [|a3 [|a4 args]]]]; simpl in Hlen; try lia; reflexivity.
  - intros Hnone. rewrite apply_transformations_cons.
    unfold apply_operation. cbn. by rewrite Hnone.
Qed.

Lemma malformed_operation_errors_witness :
  @apply_transformations plain_text demo_table
    (["CAST"; "id"] :: [["RENAME"; "id"; "user_id"]]) ∅ = Raise (ValueError "unpack")
  ∧ @apply_transformations plain_text demo_table
      (["JOIN"; "df_orders"; "id"] :: []) ∅ = Raise (ValueError "unpack")
  ∧ @apply_transformations plain_text demo_table
      (["JOIN"; "df_orders"; "id"; "user_id"] :: []) ∅ = Raise (KeyError "df_orders").
Proof.
  destruct (@malformed_operation_errors plain_text demo_table
              [["RENAME"; "id"; "user_id"]] "CAST" "" "" "" ["id"] ∅)
    as (_ & Hcast & _).
  destruct (@malformed_operation_errors plain_text demo_table
              [] "" "df_orders" "id" "user_id" ["df_orders"; "id"] ∅)
    as (_ & _ & Hjoin & Htable).
  split; [|split].
  - apply Hcast; [by right | simpl; lia].
  - apply Hjoin. simpl. lia.
  - apply Htable. reflexivity.
Defined.

Lemma getitem_missing (df : DataFrame) (column : string) :
  column ∉ labels df → getitem df column = Raise (KeyError column).
Proof.
  intros Hno. unfold getitem.
  destruct (assoc column (columns df)) as [c|] eqn:Hc; [|reflexivity].
  exfalso. apply Hno, assoc_is_Some. rewrite Hc. eauto.
Qed.

Lemma clean_join_key_missing `{FloatText} (df : DataFrame) (key_column : string) :
  key_column ∉ labels df → clean_join_key df key_column = Ok df.
Proof.
  intros Hno. unfold clean_join_key, has_column.
  by rewrite bool_decide_eq_false_2.
Qed.

Lemma clean_join_key_labels `{FloatText} (df out : DataFrame) (key_column : string) :
  clean_join_key df key_column = Ok out → labels out = labels df.
Proof.
  unfold clean_join_key. destruct (has_column df key_column) eqn:Hhas; cbn [negb].
  - destruct (has_column_getitem df key_column Hhas) as (c & Hc & _). rewrite Hc.
    intros [= <-]. apply labels_setitem.
  - by intros [= <-].
Qed.

Lemma clean_join_key_total `{FloatText} (df : DataFrame) (key_column : string) :
  ∃ out, clean_join_key df key_column = Ok out.
Proof.
  unfold clean_join_key. destruct (has_column df key_column) eqn:Hhas; cbn [negb]; [|eauto].
  destruct (has_column_getitem df key_column Hhas) as (c & Hc & _). rewrite Hc. eauto.
Qed.

Lemma safe_merge_missing_right `{FloatText} (left_df right_df : DataFrame)
    (left_key right_key : string) :
  right_key ∉ labels right_df →
  safe_merge left_df right_df left_key right_key = Raise (KeyError right_key).
Proof.
  intros Hno. unfold safe_merge.
  destruct (clean_join_key_total left_df left_key) as [left' ->].
  change (Ok left' ≫= ?k) with (k left'). cbv beta.
  rewrite (clean_join_key_missing right_df) by assumption.
  change (Ok right_df ≫= ?k) with (k right_df). cbv beta.
  unfold merge. by rewrite (getitem_missing right_df right_key Hno).
Qed.

Lemma safe_merge_missing_left `{FloatText} (left_df right_df : DataFrame)
    (left_key right_key : string) :
  right_key ∈ labels right_df → left_key ∉ labels left_df →
  safe_merge left_df right_df left_key right_key = Raise (KeyError left_key).
Proof.
  intros Hyes Hno. unfold safe_merge.
  rewrite (clean_join_key_missing left_df) by assumption.
  change (Ok left_df ≫= ?k) with (k left_df). cbv beta.
  destruct (clean_join_key_total right_df right_key) as [right' Hright].
  rewrite Hright. change (Ok right' ≫= ?k) with (k right'). cbv beta.
  unfold merge.
  assert (right_key ∈ labels right') as Hin
    by by rewrite (clean_join_key_labels right_df right' right_key Hright).
  destruct (has_column_getitem right' right_key) as (c & Hc & _);
    [unfold has_column; by apply bool_decide_eq_true_2|].
  rewrite Hc. change (Ok c ≫= ?k) with (k c). cbv beta.
  by rewrite (getitem_missing left_df left_key Hno).
Qed.

(** X18.  A join on a key column that is missing raises [KeyError]:
    cleaning skips the missing column silently and the merge then fails.
    The merge looks up the right key first, so it names the right key
    whenever that one is missing, and the left key when only the left key
    is missing. *)
Theorem join_on_missing_key `{FloatText} (left_df right_df : DataFrame)
    (left_key right_key : string) :
  (right_key ∉ labels right_df →
   safe_merge left_df right_df left_key right_key = Raise (KeyError right_key))
  ∧ (right_key ∈ labels right_df → left_key ∉ labels left_df →
     safe_merge left_df right_df left_key right_key = Raise (KeyError left_key)).
Proof.
  split; [apply safe_merge_missing_right | apply safe_merge_missing_left].
Qed.

Lemma join_on_missing_key_witness :
  @safe_merge plain_text join_left join_right "key" "other" = Raise (KeyError "other")
  ∧ @safe_merge plain_text join_left join_right "key" "k" = Raise (KeyError "key").
Proof.
  split.
  - apply (proj1 (@join_on_missing_key plain_text join_left join_right "key" "other")).
    apply (bool_decide_unpack _). vm_compute. exact I.
  - apply (proj2 (@join_on_missing_key plain_text join_left join_right "key" "k"));
      apply (bool_decide_unpack _); vm_compute; exact I.
Defined.






(** [safe_merge] on tables that have their key columns is the merge of
    the two tables with normalized keys. *)
Lemma safe_merge_eq `{FloatText} (left_df right_df : DataFrame)
    (left_key right_key : string) (lcol rcol : list pyval) :
  getitem left_df left_key = Ok lcol → getitem right_df right_key = Ok rcol →
  safe_merge left_df right_df left_key right_key
  = merge (setitem left_df left_key (VStr <$> (normalize_key <$> lcol)))
          (setitem right_df right_key (VStr <$> (normalize_key <$> rcol)))
          left_key right_key.
Proof.
  intros Hl Hr. unfold safe_merge.
  rewrite (clean_join_key_eq left_df left_key lcol Hl).
  change (Ok ?x ≫= ?k) with (k x). cbv beta.
  rewrite (clean_join_key_eq right_df right_key rcol Hr).
  reflexivity.
Qed.

Lemma fst_filter_columns (cols : list (string * list pyval)) (key : string) :
  (filter (λ c : string * list pyval, c.1 ≠ key) cols).*1
  = filter (λ l, l ≠ key) cols.*1.
Proof.
  induction cols as [|[l c] cols IH]; [reflexivity|].
  rewrite fmap_cons. cbn [fst].
  destruct (decide (l = key)) as [->|Hne].
  - rewrite !filter_cons_False by (cbn; auto). exact IH.
  - rewrite !filter_cons_True by (cbn; auto). rewrite fmap_cons. cbn [fst].
    by rewrite IH.
Qed.

Lemma fmap_fst_ext {B : Type} (F : string * list pyval → string * B)
    (f : string → string) (cols : list (string * list pyval)) :
  (∀ c, (F c).1 = f c.1) → (F <$> cols).*1 = f <$> cols.*1.
Proof.
  intros HF. induction cols as [|c cols IH]; [reflexivity|].
  rewrite !fmap_cons. by rewrite HF, IH.
Qed.

(** The shape of the result of a merge. *)
Lemma merge_shape `{FloatText} (left_df right_df : DataFrame) (left_on right_on : string)
    (lk rk : list pyval) :
  getitem left_df left_on = Ok lk → getitem right_df right_on = Ok rk →
  ∃ out, merge left_df right_df left_on right_on = Ok out
    ∧ nrows out = length (left_join_indexers lk rk 0)
    ∧ labels out = merge_labels (labels left_df) (labels right_df) left_on right_on
    ∧ rectangular out.
Proof.
  intros Hl Hr. unfold merge. rewrite Hl, Hr.
  change (Ok rk ≫= ?k) with (k rk). cbv beta.
  change (Ok lk ≫= ?k) with (k lk). cbv beta zeta.
  eexists. split; [reflexivity|]. split; [reflexivity|]. split.
  - unfold labels, merge_labels. cbn [columns]. rewrite fmap_app.
    destruct (bool_decide (left_on = right_on)).
    + rewrite <- (fst_filter_columns (columns right_df) right_on).
      f_equal; apply fmap_fst_ext; intros [l c]; reflexivity.
    + f_equal; apply fmap_fst_ext; intros [l c]; reflexivity.
  - unfold rectangular. cbn [columns nrows]. apply Forall_app. split.
    + apply Forall_fmap, Forall_true. intros [l c]. cbn. unfold take_left.
      by rewrite length_fmap.
    + apply Forall_fmap, Forall_true. intros [l c]. cbn.
      apply take_right_length.
Qed.

Lemma safe_merge_rows `{FloatText} (left_df right_df : DataFrame)
    (left_key right_key : string) (lcol rcol : list pyval) :
  getitem left_df left_key = Ok lcol → getitem right_df right_key = Ok rcol →
  ∃ out, safe_merge left_df right_df left_key right_key = Ok out
    ∧ nrows out = length (left_join_indexers (VStr <$> (normalize_key <$> lcol))
                            (VStr <$> (normalize_key <$> rcol)) 0)
    ∧ labels out = merge_labels (labels left_df) (labels right_df) left_key right_key
    ∧ rectangular out.
Proof.
  intros Hl Hr. rewrite (safe_merge_eq _ _ _ _ lcol rcol) by assumption.
  destruct (merge_shape (setitem left_df left_key (VStr <$> (normalize_key <$> lcol)))
              (setitem right_df right_key (VStr <$> (normalize_key <$> rcol)))
              left_key right_key (VStr <$> (normalize_key <$> lcol))
              (VStr <$> (normalize_key <$> rcol)))
    as (out & Hout & Hrows & Hlabels & Hrect);
    [apply getitem_setitem; by eapply getitem_has_column..|].
  exists out. rewrite !labels_setitem in Hlabels. auto.
Qed.



Lemma labels_rename (df : DataFrame) (old_col new_col : string) :
  labels (rename df old_col new_col)
  = (λ l, if decide (l = old_col) then new_col else l) <$> labels df.
Proof.
  unfold labels, rename. cbn [columns]. apply fmap_fst_ext.
  intros [l c]. cbn. by case_decide.
Qed.

Lemma rectangular_rename (df : DataFrame) (old_col new_col : string) :
  rectangular df → rectangular (rename df old_col new_col).
Proof.
  unfold rectangular, rename. cbn [columns nrows]. intros Hrect.
  apply Forall_fmap. eapply Forall_impl; [exact Hrect|].
  intros [l c] Hc. cbn in *. by case_decide.
Qed.

Lemma safe_cast_column_labels `{FloatText} (df out : DataFrame) (column dtype : string) :
  safe_cast_column df column dtype = Ok out → labels out = labels df.
Proof.
  intros Hcast.
  destruct (safe_cast_column_cases df out column dtype Hcast)
    as [[_ ->]|(c & values & _ & _ & -> & _)]; [reflexivity | apply labels_setitem].
Qed.

Lemma safe_cast_column_rectangular `{FloatText} (df out : DataFrame)
    (column dtype : string) :
  safe_cast_column df column dtype = Ok out → rectangular df → rectangular out.
Proof.
  intros Hcast Hrect.
  destruct (safe_cast_column_cases df out column dtype Hcast)
    as [[_ ->]|(c & values & Hc & _ & -> & Hlen)]; [assumption|].
  apply rectangular_setitem; [assumption|]. rewrite Hlen.
  apply getitem_elem_of in Hc. unfold rectangular in Hrect.
  rewrite Forall_forall in Hrect. exact (Hrect _ Hc).
Qed.

Lemma safe_cast_column_total `{FloatText} (df : DataFrame) (column dtype : string) :
  str_lower dtype ∉ ["int64"; "int"] →
  ∃ out, safe_cast_column df column dtype = Ok out.
Proof.
  intros Hnot. unfold safe_cast_column.
  destruct (has_column df column) eqn:Hhas; cbn [negb]; [|eauto].
  destruct (has_column_getitem df column Hhas) as (c & Hc & _). rewrite Hc.
  change (Ok c ≫= ?k) with (k c). cbv beta.
  rewrite (bool_decide_eq_false_2 (str_lower dtype ∈ ["int64"; "int"])) by assumption.
  repeat case_bool_decide; eauto.
Qed.

Lemma elem_of_labels_getitem (df : DataFrame) (column : string) :
  column ∈ labels df → ∃ c, getitem df column = Ok c.
Proof.
  intros Hin. destruct (has_column_getitem df column) as (c & Hc & _); [|eauto].
  unfold has_column. by apply bool_decide_eq_true_2.
Qed.

(** A join, by cases on the presence of the keys. *)
Lemma safe_merge_schema `{FloatText} (left_df right_df : DataFrame)
    (left_key right_key : string) :
  match safe_merge left_df right_df left_key right_key with
  | Ok out =>
      (left_key ∈ labels left_df) ∧ (right_key ∈ labels right_df)
      ∧ labels out = merge_labels (labels left_df) (labels right_df) left_key right_key
      ∧ rectangular out
  | Raise e =>
      ((right_key ∉ labels right_df) ∧ e = KeyError right_key)
      ∨ ((right_key ∈ labels right_df) ∧ (left_key ∉ labels left_df)
         ∧ e = KeyError left_key)
  end.
Proof.
  destruct (decide (right_key ∈ labels right_df)) as [Hr|Hr].
  - destruct (decide (left_key ∈ labels left_df)) as [Hl|Hl].
    + destruct (elem_of_labels_getitem _ _ Hl) as [lcol Hlcol].
      destruct (elem_of_labels_getitem _ _ Hr) as [rcol Hrcol].
      destruct (safe_merge_rows left_df right_df left_key right_key lcol rcol)
        as (out & -> & _ & Hlabels & Hrect); auto.
    + rewrite safe_merge_missing_left by assumption. auto.
  - rewrite safe_merge_missing_right by assumption. auto.
Qed.

(** One operation against the schema: the labels of its result, the
    exception it raises and the rectangular shape it keeps. *)
Lemma apply_operation_schema `{FloatText} (dataframes : gmap string DataFrame)
    (df : DataFrame) (op : operation) :
  match apply_operation dataframes df op with
  | Ok out =>
      schema_step (labels <$> dataframes) (labels df) op = Ok (labels out)
      ∧ (rectangular df → rectangular out)
  | Raise e =>
      schema_step (labels <$> dataframes) (labels df) op = Raise e
      ∨ is_int_cast op = true
  end.
Proof.
  destruct op as [|action args]; [by left|].
  destruct (decide (action = "RENAME")) as [->|Hrename].
  { destruct args as [|a [|b [|c args]]]; try by left.
    change (apply_operation dataframes df ["RENAME"; a; b]) with (Ok (rename df a b)).
    split; [|apply rectangular_rename].
    change (schema_step (labels <$> dataframes) (labels df) ["RENAME"; a; b])
      with (Ok ((λ l, if decide (l = a) then b else l) <$> labels df) : result _).
    by rewrite labels_rename. }
  destruct (decide (action = "CAST")) as [->|Hcast].
  { destruct args as [|c [|d [|x args]]]; try by left.
    change (apply_operation dataframes df ["CAST"; c; d]) with (safe_cast_column df c d).
    change (schema_step (labels <$> dataframes) (labels df) ["CAST"; c; d])
      with (Ok (labels df) : result _).
    destruct (safe_cast_column df c d) as [out|e] eqn:Hout.
    - rewrite (safe_cast_column_labels df out c d Hout). split; [reflexivity|].
      by apply (safe_cast_column_rectangular df out c d).
    - right. unfold is_int_cast.
      destruct (decide (str_lower d ∈ ["int64"; "int"])) as [Hint|Hint].
      + by rewrite (bool_decide_eq_true_2 _ Hint).
      + destruct (safe_cast_column_total df c d Hint) as [out Hok]. congruence. }
  destruct (decide (action = "JOIN")) as [->|Hjoin].
  { destruct args as [|t [|lk [|rk [|x args]]]]; try by left.
    change (apply_operation dataframes df ["JOIN"; t; lk; rk])
      with (match dataframes !! t with
            | Some df_to_merge => safe_merge df df_to_merge lk rk
            | None => Raise (KeyError t)
            end).
    change (schema_step (labels <$> dataframes) (labels df) ["JOIN"; t; lk; rk])
      with (match (labels <$> dataframes) !! t with
            | Some rs =>
                if bool_decide (rk ∈ rs) then
                  if bool_decide (lk ∈ labels df)
                  then Ok (merge_labels (labels df) rs lk rk)
                  else Raise (KeyError lk)
                else Raise (KeyError rk)
            | None => Raise (KeyError t)
            end).
    rewrite lookup_fmap. destruct (dataframes !! t) as [r|]; cbn [fmap option_fmap option_map];
      [|by left].
    pose proof (safe_merge_schema df r lk rk) as Hm.
    destruct (safe_merge df r lk rk) as [out|e].
    - destruct Hm as (Hl & Hr & Hlabels & Hrect).
      rewrite !bool_decide_eq_true_2 by assumption. rewrite Hlabels. auto.
    - left. destruct Hm as [(Hr & ->)|(Hr & Hl & ->)].
      + by rewrite (bool_decide_eq_false_2 _ Hr).
      + by rewrite (bool_decide_eq_true_2 _ Hr), (bool_decide_eq_false_2 _ Hl). }
  rewrite apply_operation_unknown by assumption. split; [|auto].
  unfold schema_step. by rewrite !bool_decide_eq_false_2 by assumption.
Qed.

(** A list of operations against the schema. *)
Lemma apply_transformations_schema `{FloatText} (df : DataFrame)
    (operations : list operation) (dataframes : gmap string DataFrame) :
  match apply_transformations df operations dataframes with
  | Ok out =>
      schema_run (labels <$> dataframes) (labels df) operations = Ok (labels out)
      ∧ (rectangular df → rectangular out)
  | Raise e =>
      schema_run (labels <$> dataframes) (labels df) operations = Raise e
      ∨ Exists (λ op, is_int_cast op = true) operations
  end.
Proof.
  revert df. induction operations as [|op rest IH]; intros df; [by split|].
  rewrite apply_transformations_cons. cbn [schema_run].
  pose proof (apply_operation_schema dataframes df op) as Hop.
  destruct (apply_operation dataframes df op) as [df'|e].
  - destruct Hop as [-> Hrect]. specialize (IH df').
    change (Ok df' ≫= ?k) with (k df'). change (Ok (labels df') ≫= ?k) with (k (labels df')).
    cbv beta.
    destruct (apply_transformations df' rest dataframes) as [out|e].
    + destruct IH as [-> Hrect']. auto.
    + destruct IH as [-> | Hint]; [by left | right; by constructor 2].
  - destruct Hop as [-> | Hint]; [by left | right; by constructor 1].
Qed.

(** X20.  The engine keeps the table rectangular: when the working table
    has one cell per row in every column, so has the result of any list
    of operations that returns, whatever the stored tables look like. *)
Theorem engine_keeps_table_rectangular `{FloatText} (df out : DataFrame)
    (operations : list operation) (dataframes : gmap string DataFrame) :
  rectangular df → apply_transformations df operations dataframes = Ok out →
  rectangular out.
Proof.
  intros Hrect Hrun.
  pose proof (apply_transformations_schema df operations dataframes) as Hschema.
  rewrite Hrun in Hschema. destruct Hschema as [_ Hkeep]. by apply Hkeep.
Qed.

Lemma engine_keeps_table_rectangular_witness :
  rectangular (mkFrame 4 [("k", [VStr "1"; VStr ""; VStr "3"; VStr "3"]);
                          ("a", [VInt 10; VInt 20; VInt 30; VInt 30]);
                          ("b", [VStr "x"; VStr "y"; VStr "z"; VStr "w"])]).
Proof.
  apply (@engine_keeps_table_rectangular plain_text join_left _
           [["CAST"; "a"; "int64"]; ["JOIN"; "df_right"; "k"; "k"]]
           {["df_right" := join_right]}).
  - repeat constructor.
  - reflexivity.
Defined.

(** X21.  The labels of the result are decided by labels alone: when a
    list of operations returns, the labels of its result are the ones
    computed from the labels of the working table and of the stored
    tables, without looking at a single cell. *)
Theorem result_labels_follow_schema `{FloatText} (df out : DataFrame)
    (operations : list operation) (dataframes : gmap string DataFrame) :
  apply_transformations df operations dataframes = Ok out →
  schema_run (labels <$> dataframes) (labels df) operations = Ok (labels out).
Proof.
  intros Hrun.
  pose proof (apply_transformations_schema df operations dataframes) as Hschema.
  rewrite Hrun in Hschema. by destruct Hschema as [Hlabels _].
Qed.

Lemma result_labels_follow_schema_witness :
  schema_run (labels <$> ({["df_right" := join_right]} : gmap string DataFrame))
    (labels join_left)
    [["RENAME"; "a"; "b"]; ["JOIN"; "df_right"; "k"; "k"]]
  = Ok ["k"; "b_x"; "b_y"].
Proof.
  apply (@result_labels_follow_schema plain_text join_left
           (mkFrame 4 [("k", [VStr "1"; VStr ""; VStr "3"; VStr "3"]);
                       ("b_x", [VInt 10; VInt 20; VInt 30; VInt 30]);
                       ("b_y", [VStr "x"; VStr "y"; VStr "z"; VStr "w"])])).
  reflexivity.
Defined.

(** X22.  Without a cast to [int64], success and failure are decided by
    labels alone, as long as labels stay distinct: when the stored tables
    have distinct labels and the working table has distinct labels before
    every operation and at the end, the run returns exactly when the
    schema computation returns, with the labels it computes, and raises
    exactly the exception the schema computation raises.  For a join with
    a missing key that is [KeyError] on the right key when that one is
    missing, on the left key otherwise. *)
Theorem outcome_follows_schema `{FloatText} (df : DataFrame)
    (operations : list operation) (dataframes : gmap string DataFrame) :
  Forall (λ op, is_int_cast op = false) operations →
  (∀ table right_df, dataframes !! table = Some right_df → NoDup (labels right_df)) →
  unique_labels_run (labels <$> dataframes) (labels df) operations →
  match apply_transformations df operations dataframes with
  | Ok out => Ok (labels out)
  | Raise e => Raise e
  end = schema_run (labels <$> dataframes) (labels df) operations.
Proof.
  intros Hops _ _.
  pose proof (apply_transformations_schema df operations dataframes) as Hschema.
  destruct (apply_transformations df operations dataframes) as [out|e].
  - by destruct Hschema as [-> _].
  - destruct Hschema as [-> | Hint]; [reflexivity|]. exfalso.
    apply Exists_exists in Hint as (op & Hin & Hop).
    rewrite Forall_forall in Hops. specialize (Hops op Hin). congruence.
Qed.

Lemma outcome_follows_schema_witness :
  match @apply_transformations plain_text join_left
          [["CAST"; "a"; "string"]; ["JOIN"; "df_right"; "key"; "k"]]
          {["df_right" := join_right]} with
  | Ok out => Ok (labels out)
  | Raise e => Raise e
  end = Raise (KeyError "key")
  ∧ match @apply_transformations plain_text join_left
            [["RENAME"; "a"; "b"]; ["JOIN"; "df_right"; "k"; "k"]]
            {["df_right" := join_right]} with
    | Ok out => Ok (labels out)
    | Raise e => Raise e
    end = Ok ["k"; "b_x"; "b_y"].
Proof.
  assert (∀ table right_df,
            ({["df_right" := join_right]} : gmap string DataFrame) !! table
            = Some right_df → NoDup (labels right_df)) as Hstore.
  { intros table right_df [_ <-]%lookup_singleton_Some.
    apply (bool_decide_unpack _). vm_compute. exact I. }
  split.
  - etrans.
    + apply (@outcome_follows_schema plain_text join_left
               [["CAST"; "a"; "string"]; ["JOIN"; "df_right"; "key"; "k"]]
               {["df_right" := join_right]}); [repeat constructor | exact Hstore |].
      vm_compute. repeat split; apply (bool_decide_unpack _); vm_compute; exact I.
    + vm_compute. reflexivity.
  - etrans.
    + apply (@outcome_follows_schema plain_text join_left
               [["RENAME"; "a"; "b"]; ["JOIN"; "df_right"; "k"; "k"]]
               {["df_right" := join_right]}); [repeat constructor | exact Hstore |].
      vm_compute. repeat split; apply (bool_decide_unpack _); vm_compute; exact I.
    + vm_compute. reflexivity.
Defined.

(** * Further properties of [main] *)

Lemma maybe_convert_objects_length `{FloatText} (c : list pyval) :
  length (maybe_convert_objects c) = length c.
Proof.
  unfold maybe_convert_objects. destruct (_ && _); [by rewrite length_fmap | reflexivity].
Qed.

(** Inference keeps a null a null. *)
Lemma maybe_convert_objects_null `{FloatText} (c : list pyval) (i : nat) (v : pyval) :
  c !! i = Some v → isna v = true →
  ∃ w, maybe_convert_objects c !! i = Some w ∧ isna w = true.
Proof.
  intros Hv Hna. unfold maybe_convert_objects. destruct (_ && _); [|eauto].
  rewrite list_lookup_fmap, Hv. cbn.
  destruct v as [| | | |[| |]|]; try discriminate; eauto.
Qed.

Lemma frame_of_records_labels `{FloatText} (all_data : list record)
    (expected_cols : list string) :
  labels (frame_of_records all_data expected_cols) = expected_cols.
Proof.
  unfold labels, frame_of_records. cbn [columns].
  rewrite <- list_fmap_compose. apply list_fmap_id.
Qed.

Lemma frame_of_records_getitem `{FloatText} (all_data : list record)
    (expected_cols : list string) (col : string) :
  col ∈ expected_cols →
  getitem (frame_of_records all_data expected_cols) col
  = Ok (maybe_convert_objects
          ((λ r : record, default (VFloat FNaN) (r !! col)) <$> all_data)).
Proof.
  unfold getitem, frame_of_records. cbn [columns].
  induction expected_cols as [|c cols IH]; intros Hin; [by apply elem_of_nil in Hin|].
  rewrite fmap_cons. cbn [assoc]. destruct (decide (col = c)) as [->|Hne]; [reflexivity|].
  apply elem_of_cons in Hin as [?|Hin]; [contradiction | by apply IH].
Qed.

Lemma frame_of_records_rectangular `{FloatText} (all_data : list record)
    (expected_cols : list string) :
  rectangular (frame_of_records all_data expected_cols).
Proof.
  unfold rectangular, frame_of_records. cbn [columns nrows].
  apply Forall_fmap, Forall_true. intros c. cbn.
  by rewrite maybe_convert_objects_length, length_fmap.
Qed.

(** X23.  The dataset stored for an endpoint has exactly the selected
    columns, in the order of [select], and one row per record fetched,
    also when no record was fetched.  In a selected column the cell of a
    record that lacks the field is null.  A column outside [select] is not
    in the dataset, whatever the records hold. *)
Theorem stored_dataset_shape `{FloatText} (all_data : list record)
    (expected_cols : list string) (col : string) :
  labels (frame_of_records all_data expected_cols) = expected_cols
  ∧ nrows (frame_of_records all_data expected_cols) = length all_data
  ∧ rectangular (frame_of_records all_data expected_cols)
  ∧ (col ∈ expected_cols →
     ∃ c, getitem (frame_of_records all_data expected_cols) col = Ok c
       ∧ length c = length all_data
       ∧ ∀ (i : nat) (r : record), all_data !! i = Some r → r !! col = None →
           ∃ v, c !! i = Some v ∧ isna v = true)
  ∧ (col ∉ expected_cols →
     getitem (frame_of_records all_data expected_cols) col = Raise (KeyError col)).
Proof.
  split; [apply frame_of_records_labels|]. split; [reflexivity|].
  split; [apply frame_of_records_rectangular|]. split.
  - intros Hin. eexists. split; [by apply frame_of_records_getitem|].
    split; [by rewrite maybe_convert_objects_length, length_fmap|].
    intros i r Hi Hr. apply (maybe_convert_objects_null _ i (VFloat FNaN)); [|reflexivity].
    rewrite list_lookup_fmap, Hi. cbn. by rewrite Hr.
  - intros Hno. apply getitem_missing. by rewrite frame_of_records_labels.
Qed.

Lemma stored_dataset_shape_witness :
  (∃ c, getitem (@frame_of_records plain_text [user_1; ∅; user_2] ["id"; "email"]) "id"
        = Ok c
     ∧ length c = 3%nat
     ∧ ∃ v, c !! 1%nat = Some v ∧ isna v = true)
  ∧ getitem (@frame_of_records plain_text [user_1; ∅; user_2] ["id"; "email"]) "name"
    = Raise (KeyError "name").
Proof.
  destruct (@stored_dataset_shape plain_text [user_1; ∅; user_2] ["id"; "email"] "id")
    as (_ & _ & _ & Hin & _).
  destruct (@stored_dataset_shape plain_text [user_1; ∅; user_2] ["id"; "email"] "name")
    as (_ & _ & _ & _ & Hout).
  split.
  - destruct Hin as (c & Hc & Hlen & Hnull).
    { apply (bool_decide_unpack _). vm_compute. exact I. }
    exists c. split; [exact Hc|]. split; [exact Hlen|].
    apply (Hnull 1%nat ∅); reflexivity.
  - apply Hout. apply (bool_decide_unpack _). vm_compute. exact I.
Defined.

(** A record without the field makes an integer column a float column. *)
Example stored_dataset_example :
  @frame_of_records plain_text [user_1; ∅; user_2] ["id"; "email"]
  = mkFrame 3 [("id", [VFloat (FFin (inject_Z 1)); VFloat FNaN;
                       VFloat (FFin (inject_Z 2))]);
               ("email", [VFloat FNaN; VFloat FNaN; VFloat FNaN])]
  ∧ @frame_of_records plain_text [user_1; user_2] ["id"]
    = mkFrame 2 [("id", [VInt 1; VInt 2])].
Proof. split; vm_compute; reflexivity. Qed.

(** The driving values of such a column are the texts of floats. *)
Example float_ids_in_requests :
  @build_request_urls plain_text "https://api/" "orders"
    (mkConfig None None (Some "user_id") (Some (Some "id")))
    {["df_users" := @frame_of_records plain_text [user_1; ∅; user_2] ["id"]]}
  = Ok ["https://api/orders?$filter=user_id eq '1.0' or user_id eq '2.0'"].
Proof. vm_compute. reflexivity. Qed.

Lemma df_name_inj (a b : string) : "df_" +:+ a = "df_" +:+ b → a = b.
Proof.
  intros Heq.
  apply (f_equal (λ s, match s with
                       | String _ (String _ (String _ r)) => r
                       | _ => ""
                       end)) in Heq.
  exact Heq.
Qed.

Lemma fetch_endpoints_cons `{FloatText} `{Server W} (fuel : nat) (base_url endpoint : string)
    (cfg : config) (rest : list (string * config)) (dataframes : gmap string DataFrame)
    (st : session W) :
  fetch_endpoints fuel base_url ((endpoint, cfg) :: rest) dataframes st =
  match build_request_urls base_url endpoint cfg dataframes with
  | Raise e => (Some (Raise e), st)
  | Ok urls =>
      let '(r, st) := fetch_urls fuel endpoint urls [] st in
      match r with
      | None => (None, st)
      | Some (Raise e) => (Some (Raise e), st)
      | Some (Ok all_data) =>
          fetch_endpoints fuel base_url rest
            (<["df_" +:+ endpoint := frame_of_records all_data (default [] (select cfg))]>
               dataframes) st
      end
  end.
Proof. reflexivity. Qed.

Lemma fetch_endpoints_store `{FloatText} `{Server W} (fuel : nat) (base_url : string)
    (configs : list (string * config)) :
  ∀ (dataframes dataframes' : gmap string DataFrame) (st : session W),
  (fetch_endpoints fuel base_url configs dataframes st).1 = Some (Ok dataframes') →
  (∀ name, name ∉ (λ e, "df_" +:+ e) <$> configs.*1 →
     dataframes' !! name = dataframes !! name)
  ∧ (NoDup configs.*1 →
     ∀ endpoint cfg, (endpoint, cfg) ∈ configs →
       ∃ all_data,
         dataframes' !! ("df_" +:+ endpoint)
         = Some (frame_of_records all_data (default [] (select cfg)))).
Proof.
  induction configs as [|[e c] rest IH]; intros dataframes dataframes' st Hrun.
  - cbn in Hrun. injection Hrun as <-. split; [done|].
    intros _ endpoint cfg Hin. by apply elem_of_nil in Hin.
  - rewrite fetch_endpoints_cons in Hrun.
    destruct (build_request_urls base_url e c dataframes) as [urls|err]; [|discriminate].
    destruct (fetch_urls fuel e urls [] st) as [[[all_data|err]|] st1]; try discriminate.
    destruct (IH _ _ _ Hrun) as [Hother Hmine]. split.
    + intros name Hname. rewrite !fmap_cons in Hname.
      apply not_elem_of_cons in Hname as [Hne Hname].
      rewrite (Hother name Hname). by apply lookup_insert_ne.
    + intros Hnd endpoint cfg Hin. rewrite fmap_cons in Hnd.
      apply NoDup_cons in Hnd as [Hnot Hnd].
      apply elem_of_cons in Hin as [Heq|Hin].
      * injection Heq as -> ->. exists all_data. rewrite Hother.
        -- apply lookup_insert_eq.
        -- intros (e' & Heq & He')%list_elem_of_fmap. apply df_name_inj in Heq as <-.
           contradiction.
      * by apply Hmine.
Qed.

(** X24.  What a successful fetch phase leaves in the store.  When the
    endpoints have distinct names and the phase returns, the store holds
    under [df_<endpoint>], for every configured endpoint, a dataset built
    from fetched records with exactly the columns of its [select]; and
    every entry under another name is as it was before. *)
Theorem fetch_phase_fills_store `{FloatText} `{Server W} (fuel : nat) (base_url : string)
    (configs : list (string * config)) (dataframes dataframes' : gmap string DataFrame)
    (st : session W) :
  (fetch_endpoints fuel base_url configs dataframes st).1 = Some (Ok dataframes') →
  NoDup configs.*1 →
  (∀ endpoint cfg, (endpoint, cfg) ∈ configs →
     ∃ df, dataframes' !! ("df_" +:+ endpoint) = Some df
       ∧ labels df = default [] (select cfg) ∧ rectangular df)
  ∧ (∀ name, name ∉ (λ e, "df_" +:+ e) <$> configs.*1 →
       dataframes' !! name = dataframes !! name).
Proof.
  intros Hrun Hnd.
  destruct (fetch_endpoints_store fuel base_url configs _ _ _ Hrun) as [Hother Hmine].
  split; [|exact Hother].
  intros endpoint cfg Hin. destruct (Hmine Hnd endpoint cfg Hin) as [all_data Hdf].
  eexists. split; [exact Hdf|]. split.
  - apply frame_of_records_labels.
  - apply frame_of_records_rectangular.
Qed.

Lemma fetch_phase_fills_store_witness :
  ∃ df, (<["df_users" := @frame_of_records plain_text [user_1; user_2]
                           ["id"; "username"; "email"; "created_date"; "status"]]>
           (∅ : gmap string DataFrame)) !! ("df_" +:+ "users") = Some df
    ∧ labels df = default [] (select users_config) ∧ rectangular df.
Proof.
  destruct (@fetch_phase_fills_store plain_text script scripted 5 "https://api/"
              [("users", users_config)] ∅
              (<["df_users" := @frame_of_records plain_text [user_1; user_2]
                                 ["id"; "username"; "email"; "created_date"; "status"]]> ∅)
              (start_session expiring_script)) as [Hmine _].
  - vm_compute. reflexivity.
  - repeat constructor. apply not_elem_of_nil.
  - apply (Hmine "users" users_config). apply list_elem_of_singleton. reflexivity.
Defined.

Lemma build_request_urls_dependent `{FloatText} (base_url endpoint : string)
    (cfg : config) (dataframes : gmap string DataFrame) (k : string) (d : option string) :
  key_filter cfg = Some k → truthy k = true → driving_view_col_name cfg = Some d →
  build_request_urls base_url endpoint cfg dataframes
  = dependent_urls chunk_size base_url endpoint (select cfg)
      (default "" (filter_ cfg)) k d dataframes.
Proof.
  intros Hk Htruthy Hd. unfold build_request_urls. rewrite Hk, Hd.
  change (default "" (Some k)) with k. rewrite Htruthy.
  by rewrite bool_decide_eq_true_2 by eauto.
Qed.

(** X25.  A dependent endpoint must come after [users]: when the fetch
    phase reaches an endpoint with a key filter and a driving column and
    the store has no [df_users], it stops with [KeyError] on [df_users]
    before any request is sent for that endpoint, and no later endpoint
    is fetched. *)
Theorem dependent_endpoint_needs_users_first `{FloatText} `{Server W} (fuel : nat)
    (base_url endpoint : string) (cfg : config) (rest : list (string * config))
    (dataframes : gmap string DataFrame) (st : session W) (k : string) (d : option string) :
  key_filter cfg = Some k → truthy k = true → driving_view_col_name cfg = Some d →
  dataframes !! "df_users" = None →
  fetch_endpoints fuel base_url ((endpoint, cfg) :: rest) dataframes st
  = (Some (Raise (KeyError "df_users")), st).
Proof.
  intros Hk Htruthy Hd Hnone. rewrite fetch_endpoints_cons.
  rewrite (build_request_urls_dependent _ _ _ _ k d) by assumption.
  unfold dependent_urls, driving_values. by rewrite Hnone.
Qed.

Lemma dependent_endpoint_needs_users_first_witness :
  @fetch_endpoints plain_text script scripted 5 "https://api/"
    [("orders", orders_config); ("users", users_config)] ∅
    (start_session expiring_script)
  = (Some (Raise (KeyError "df_users")), start_session expiring_script).
Proof.
  apply (@dependent_endpoint_needs_users_first plain_text script scripted 5
           "https://api/" "orders" orders_config [("users", users_config)] ∅
           (start_session expiring_script) "user_id" (Some "id")); reflexivity.
Defined.

Lemma schema_step_store (store store' : gmap string (list string)) (ls : list string)
    (op : operation) :
  (∀ t, t ∈ join_tables [op] → store !! t = store' !! t) →
  schema_step store ls op = schema_step store' ls op.
Proof.
  intros Hagree.
  destruct op as [|a [|t [|x [|y [|z args]]]]]; try reflexivity.
  unfold schema_step. repeat case_bool_decide; try reflexivity.
  all: rewrite (Hagree t); [reflexivity|].
  all: cbn [join_tables]; rewrite bool_decide_eq_true_2 by assumption; left.
Qed.

Lemma join_tables_cons (op : operation) (rest : list operation) :
  join_tables (op :: rest) = join_tables [op] ++ join_tables rest.
Proof.
  destruct op as [|a [|t [|x [|y [|z args]]]]]; try reflexivity.
  cbn [join_tables]. by case_bool_decide.
Qed.

(** The schema computation looks up the joined tables only. *)
Lemma schema_run_store (store store' : gmap string (list string)) (ls : list string)
    (operations : list operation) :
  (∀ t, t ∈ join_tables operations → store !! t = store' !! t) →
  schema_run store ls operations = schema_run store' ls operations.
Proof.
  revert ls. induction operations as [|op rest IH]; intros ls Hagree; [reflexivity|].
  rewrite join_tables_cons in Hagree. cbn [schema_run].
  rewrite (schema_step_store store store' ls op)
    by (intros t Ht; apply Hagree, elem_of_app; by left).
  destruct (schema_step store' ls op) as [ls'|e]; [|reflexivity].
  apply IH. intros t Ht. apply Hagree, elem_of_app. by right.
Qed.

Lemma projected_labels (df : DataFrame) (column_mappings : list (string * string)) :
  (projected_columns df column_mappings).*1
  = (filter (λ m : string * string, m.1 ∈ labels df) column_mappings).*2.
Proof.
  unfold projected_columns.
  induction column_mappings as [|[old new] ms IH]; [reflexivity|].
  change (omap ?f ((old, new) :: ms)) with
    (match f (old, new) with Some y => y :: omap f ms | None => omap f ms end).
  cbn [fst snd].
  destruct (assoc old (columns df)) as [c|] eqn:Hc.
  - rewrite filter_cons_True
      by (cbn; apply assoc_is_Some; rewrite Hc; eauto).
    cbn. by rewrite IH.
  - rewrite filter_cons_False; [exact IH|].
    cbn. intros [c Hsome]%assoc_is_Some. congruence.
Qed.

(** The formatter always returns, and the labels of its result are the
    output labels of the mappings whose source column exists. *)
Lemma format_output_labels `{FloatText} (df : DataFrame)
    (column_mappings : list (string * string)) :
  ∃ out, format_output_columns df column_mappings = Ok out
    ∧ labels out
      = (filter (λ m : string * string, m.1 ∈ labels df) column_mappings).*2.
Proof.
  unfold format_output_columns. rewrite format_series_list.
  eexists. split; [reflexivity|]. rewrite <- projected_labels.
  destruct (projected_columns df column_mappings) as [|p ps]; [reflexivity|].
  rewrite frame_of_series_projected. unfold labels. cbn [columns].
  apply fst_zip. by rewrite common_dtype_length, !length_fmap.
Qed.

(** The labels of the table [main] assembles from datasets shaped by its
    own configuration. *)
Lemma assemble_labels `{FloatText} (dataframes : gmap string DataFrame)
    (users orders : DataFrame) :
  dataframes !! "df_users" = Some users → dataframes !! "df_orders" = Some orders →
  labels users = default [] (select users_config) →
  labels orders = default [] (select orders_config) →
  ∃ final_df out,
    apply_transformations users JOIN_OPERATIONS dataframes = Ok final_df
    ∧ labels final_df
      = ["user_id"; "username"; "email"; "created_date"; "status_x";
         "order_id"; "total_amount"; "order_date"; "status_y"]
    ∧ assemble dataframes = Ok out
    ∧ labels out
      = ["User ID"; "Customer Name"; "Email Address"; "Order Number";
         "Order Total"; "Purchase Date"].
Proof.
  intros Hu Ho Hlu Hlo.
  assert (schema_run (labels <$> dataframes) (labels users) JOIN_OPERATIONS
          = Ok ["user_id"; "username"; "email"; "created_date"; "status_x";
                "order_id"; "total_amount"; "order_date"; "status_y"]) as Hschema.
  { rewrite (schema_run_store _ {["df_orders" := default [] (select orders_config)]}).
    - rewrite Hlu. vm_compute. reflexivity.
    - intros t Ht. apply list_elem_of_singleton in Ht as ->.
      by rewrite lookup_fmap, Ho, lookup_singleton_eq, <- Hlo. }
  pose proof (apply_transformations_schema users JOIN_OPERATIONS dataframes) as Hrun.
  unfold assemble. rewrite Hu.
  destruct (apply_transformations users JOIN_OPERATIONS dataframes) as [final_df|e].
  - destruct Hrun as [Hlabels _]. rewrite Hschema in Hlabels. injection Hlabels as Hlabels.
    destruct (format_output_labels final_df COLUMN_MAPPINGS) as (out & Hout & Hol).
    exists final_df, out. split; [reflexivity|]. split; [by symmetry|].
    split; [exact Hout|]. rewrite Hol, <- Hlabels. vm_compute. reflexivity.
  - exfalso. destruct Hrun as [Hraise|Hint]; [congruence|].
    unfold JOIN_OPERATIONS in Hint.
    repeat (apply Exists_cons in Hint as [Hint|Hint]; [vm_compute in Hint; discriminate|]).
    by apply Exists_nil in Hint.
Qed.

(** X26.  The export of [main] has no [Order Status] column.  Both the
    users and the orders select a column [status]; the join renames the
    two to [status_x] and [status_y], so the mapping of [status] finds no
    source column and is dropped.  Whatever the cells, the assembly
    returns, and the export has the six other mapped columns in mapping
    order. *)
Theorem export_has_no_order_status `{FloatText} (dataframes : gmap string DataFrame)
    (users orders : DataFrame) :
  dataframes !! "df_users" = Some users → dataframes !! "df_orders" = Some orders →
  labels users = ["id"; "username"; "email"; "created_date"; "status"] →
  labels orders = ["order_id"; "user_id"; "total_amount"; "order_date"; "status"] →
  ∃ out, assemble dataframes = Ok out
    ∧ labels out
      = ["User ID"; "Customer Name"; "Email Address"; "Order Number";
         "Order Total"; "Purchase Date"]
    ∧ "Order Status" ∉ labels out.
Proof.
  intros Hu Ho Hlu Hlo.
  destruct (assemble_labels dataframes users orders Hu Ho Hlu Hlo)
    as (final_df & out & _ & _ & Hout & Hlabels).
  exists out. split; [exact Hout|]. split; [exact Hlabels|].
  rewrite Hlabels. apply (bool_decide_unpack _). vm_compute. exact I.
Qed.

Lemma export_has_no_order_status_witness :
  ∃ out,
    @assemble plain_text
      (<["df_orders" :=
           @frame_of_records plain_text [] (default [] (select orders_config))]>
         {["df_users" :=
             @frame_of_records plain_text [user_1] (default [] (select users_config))]})
    = Ok out
    ∧ labels out
      = ["User ID"; "Customer Name"; "Email Address"; "Order Number";
         "Order Total"; "Purchase Date"]
    ∧ "Order Status" ∉ labels out.
Proof.
  apply (@export_has_no_order_status plain_text _
           (@frame_of_records plain_text [user_1] (default [] (select users_config)))
           (@frame_of_records plain_text [] (default [] (select orders_config))));
    reflexivity.
Defined.

(** X27.  End to end: whenever the fetch phase of [main], run on
    [ENDPOINT_CONFIGS] from an empty store, returns a store, the assembly
    on that store returns a table whose columns are the six mapped columns
    other than [Order Status]. *)
Theorem pipeline_export_columns `{FloatText} `{Server W} (fuel : nat) (base_url : string)
    (st : session W) (dataframes : gmap string DataFrame) :
  (fetch_endpoints fuel base_url ENDPOINT_CONFIGS ∅ st).1 = Some (Ok dataframes) →
  ∃ out, assemble dataframes = Ok out
    ∧ labels out
      = ["User ID"; "Customer Name"; "Email Address"; "Order Number";
         "Order Total"; "Purchase Date"].
Proof.
  intros Hrun.
  destruct (fetch_endpoints_store fuel base_url ENDPOINT_CONFIGS _ _ _ Hrun)
    as [_ Hmine].
  assert (NoDup ENDPOINT_CONFIGS.*1) as Hnd
    by (apply (bool_decide_unpack _); vm_compute; exact I).
  destruct (Hmine Hnd "users" users_config) as [us Hus]; [left|].
  destruct (Hmine Hnd "orders" orders_config) as [os Hos]; [right; left|].
  destruct (assemble_labels dataframes _ _ Hus Hos) as (final_df & out & _ & _ & Hout & Hl);
    [apply frame_of_records_labels..|].
  eauto.
Qed.

Lemma pipeline_export_columns_witness :
  ∃ out,
    @assemble plain_text
      (<["df_products" :=
           @frame_of_records plain_text [] (default [] (select products_config))]>
        (<["df_orders" :=
             @frame_of_records plain_text [] (default [] (select orders_config))]>
          (<["df_users" :=
               @frame_of_records plain_text [] (default [] (select users_config))]> ∅)))
    = Ok out
    ∧ labels out
      = ["User ID"; "Customer Name"; "Email Address"; "Order Number";
         "Order Total"; "Purchase Date"].
Proof.
  apply (@pipeline_export_columns plain_text script scripted 3 "https://api/"
           (start_session
              ([Some (mkResponse 200 (Some (mkPage [] None)));
                Some (mkResponse 200 (Some (mkPage [] None)))], []))).
  vm_compute. reflexivity.
Defined.

(** X28.  The schema that [TRANSFORMATION_STEPS] produces.  On datasets
    with the columns [VIEW_CONFIGS] selects, whenever the steps return,
    the result has the columns below: the three renamed customer columns,
    both join keys [cust_id] and [customer_id], and the columns
    [product_name] and [category], which the order items and the products
    both select, under the suffixes [_x] and [_y]. *)
Theorem transformation_steps_schema `{FloatText} (dataframes : gmap string DataFrame)
    (customers orders items products out : DataFrame) :
  dataframes !! "df_orders" = Some orders →
  dataframes !! "df_order_items" = Some items →
  dataframes !! "df_products" = Some products →
  labels customers = default [] (select customers_view) →
  labels orders = default [] (select orders_view) →
  labels items = default [] (select order_items_config) →
  labels products = default [] (select products_view) →
  apply_transformations customers TRANSFORMATION_STEPS dataframes = Ok out →
  labels out
  = ["cust_id"; "name"; "email"; "phone"; "region"; "account_status";
     "customer_since"; "last_modified_date"; "order_id"; "customer_id";
     "order_date"; "total_amount"; "status_code"; "priority_flag";
     "shipping_address"; "payment_method"; "item_id"; "product_id";
     "product_name_x"; "category_x"; "quantity"; "unit_price";
     "discount_applied"; "product_name_y"; "category_y"; "brand";
     "list_price"; "in_stock"; "discontinued"].
Proof.
  intros Ho Hi Hp Hlc Hlo Hli Hlp Hrun.
  pose proof (apply_transformations_schema customers TRANSFORMATION_STEPS dataframes)
    as Hschema.
  rewrite Hrun in Hschema. destruct Hschema as [Hschema _].
  rewrite (schema_run_store _
             (<["df_orders" := default [] (select orders_view)]>
               (<["df_order_items" := default [] (select order_items_config)]>
                 {["df_products" := default [] (select products_view)]}))) in Hschema.
  - rewrite Hlc in Hschema.
    match type of Hschema with
    | ?run = _ => let r := eval vm_compute in run in
                  change run with r in Hschema
    end.
    by injection Hschema as <-.
  - intros t Ht. rewrite lookup_fmap.
    change (join_tables TRANSFORMATION_STEPS)
      with ["df_orders"; "df_order_items"; "df_products"] in Ht.
    rewrite !elem_of_cons in Ht. destruct Ht as [->|[->|[->|Ht]]].
    + by rewrite Ho, lookup_insert_eq, <- Hlo.
    + rewrite Hi, lookup_insert_ne, lookup_insert_eq, <- Hli by done. reflexivity.
    + rewrite Hp, !lookup_insert_ne, lookup_singleton_eq, <- Hlp by done. reflexivity.
    + by apply elem_of_nil in Ht.
Qed.

Lemma transformation_steps_schema_witness :
  labels (match @apply_transformations plain_text demo_customers TRANSFORMATION_STEPS
                  demo_view_store with
          | Ok out => out
          | Raise _ => demo_customers
          end)
  = ["cust_id"; "name"; "email"; "phone"; "region"; "account_status";
     "customer_since"; "last_modified_date"; "order_id"; "customer_id";
     "order_date"; "total_amount"; "status_code"; "priority_flag";
     "shipping_address"; "payment_method"; "item_id"; "product_id";
     "product_name_x"; "category_x"; "quantity"; "unit_price";
     "discount_applied"; "product_name_y"; "category_y"; "brand";
     "list_price"; "in_stock"; "discontinued"].
Proof.
  apply (@transformation_steps_schema plain_text demo_view_store demo_customers
           (@frame_of_records plain_text
              [ {["order_id" := VInt 10; "customer_id" := VInt 1;
                  "total_amount" := VStr "12"]} ]
              (default [] (select orders_view)))
           (@frame_of_records plain_text
              [ {["item_id" := VInt 5; "order_id" := VInt 10; "product_id" := VInt 7;
                  "quantity" := VInt 2]} ]
              (default [] (select order_items_config)))
           (@frame_of_records plain_text
              [ {["product_id" := VInt 7; "product_name" := VStr "pen"]} ]
              (default [] (select products_view)))).
  1-7: reflexivity.
  vm_compute. reflexivity.
Defined.

Example transformation_steps_example :
  (λ df, (nrows df, getitem df "cust_id", getitem df "total_amount",
          getitem df "product_name_y"))
    <$> (match @apply_transformations plain_text demo_customers TRANSFORMATION_STEPS
                 demo_view_store with
         | Ok out => Some out
         | Raise _ => None
         end)
  = Some (1%nat, Ok [VStr "1"], Ok [VInt 12], Ok [VStr "pen"]).
Proof. vm_compute. reflexivity. Qed.

(** X29.  [main] cannot fetch [VIEW_CONFIGS].  Its first endpoint,
    [customers], is stored as [df_customers]; the second, [orders], is a
    dependent endpoint and the planner looks for [df_users], which this
    configuration never produces.  So from an empty store the fetch phase
    never returns a store, and once the customers are fetched it raises
    [KeyError] on [df_users]. *)
Theorem view_configs_cannot_be_fetched `{FloatText} `{Server W} (fuel : nat)
    (base_url : string) (st : session W) :
  (∀ dataframes,
     (fetch_endpoints fuel base_url VIEW_CONFIGS ∅ st).1 ≠ Some (Ok dataframes))
  ∧ (∀ urls all_data,
       build_request_urls base_url "customers" customers_view ∅ = Ok urls →
       (fetch_urls fuel "customers" urls [] st).1 = Some (Ok all_data) →
       (fetch_endpoints fuel base_url VIEW_CONFIGS ∅ st).1
       = Some (Raise (KeyError "df_users"))).
Proof.
  assert (∀ all_data st1 rest,
            fetch_endpoints fuel base_url (("orders", orders_view) :: rest)
              (<["df_" +:+ "customers" :=
                   frame_of_records all_data (default [] (select customers_view))]> ∅) st1
            = (Some (Raise (KeyError "df_users")), st1)) as Horders.
  { intros all_data st1 rest. rewrite fetch_endpoints_cons.
    rewrite (build_request_urls_dependent _ _ _ _ "customer_id" (Some "customer_id"))
      by reflexivity.
    unfold dependent_urls, driving_values.
    rewrite lookup_insert_ne by discriminate. by rewrite lookup_empty. }
  unfold VIEW_CONFIGS. rewrite fetch_endpoints_cons. split.
  - intros dataframes.
    destruct (build_request_urls base_url "customers" customers_view ∅) as [urls|e];
      [|discriminate].
    destruct (fetch_urls fuel "customers" urls [] st) as [[[all_data|e]|] st1];
      try rewrite Horders; discriminate.
  - intros urls all_data -> Hfetch.
    destruct (fetch_urls fuel "customers" urls [] st) as [[[data|e]|] st1];
      try discriminate.
    by rewrite Horders.
Qed.

Lemma view_configs_cannot_be_fetched_witness :
  (@fetch_endpoints plain_text script scripted 3 "https://api/" VIEW_CONFIGS ∅
     (start_session ([Some (mkResponse 200 (Some (mkPage [user_1] None)))], []))).1
  = Some (Raise (KeyError "df_users")).
Proof.
  apply (proj2 (@view_configs_cannot_be_fetched plain_text script scripted 3
                  "https://api/"
                  (start_session ([Some (mkResponse 200 (Some (mkPage [user_1] None)))], [])))
               ["https://api/customers?$filter=account_status eq 'active'&$select=customer_id,customer_name,email,phone,region,account_status,created_date,last_modified_date"]
               [user_1]).
  - reflexivity.
  - vm_compute. reflexivity.
Defined.
